(** * full_tracker: the Audible proxy service and the Tuya diagnostic script

    A shallow embedding of
      - [src/services/audible-service/app.py] (module [Audible]) and
      - [src/scripts/tuya-test-local.py]      (module [Tuya]),
    with the fragment of Python they rely on (module [Py]) and the interface
    of the [cryptography.fernet] cipher the service is keyed with
    (module [Fernet]). *)

From Stdlib Require Import ZArith String Ascii List Bool Lia.
From Stdlib Require Import Floats.SpecFloat.
From stdpp Require Import base option gmap strings list.

Set Warnings "-register-all".

Local Open Scope string_scope.
Local Open Scope Z_scope.

(** ** The Python fragment *)

Module Py.

(** Exception classes the two programs can meet.  [BadRequest] and
    [UnauthorizedRequest] are the classes of [audible.exceptions] the service
    names in its [except] clauses; every other class is only ever caught by
    [except Exception]. *)
Inductive exn_class : Type :=
| BadRequest
| UnauthorizedRequest
| InvalidToken
| AttributeError
| TypeError
| KeyError
| ValueError
| OverflowError
| ZeroDivisionError
| UnicodeDecodeError
| EOFError
| OtherException (name : string)
| SystemExit (code : Z).

(** [SystemExit] derives from [BaseException] only: [except Exception] lets
    it through. *)
Definition is_Exception (c : exn_class) : bool :=
  match c with
  | SystemExit _ => false
  | _ => true
  end.

(** An exception value: its class and what [str(e)] renders. *)
Record exn : Type := Exn { exn_cls : exn_class; exn_str : string }.

Inductive result (A : Type) : Type :=
| Ok (a : A)
| Raise (e : exn).
Arguments Ok {A} a.
Arguments Raise {A} e.

Definition rbind {A B} (c : result A) (k : A -> result B) : result B :=
  match c with
  | Ok a => k a
  | Raise e => Raise e
  end.

Declare Scope py_scope.
Delimit Scope py_scope with py.
Notation "'let?' x ':=' c 'in' k" := (rbind c (fun x => k))
  (at level 10, x name, c at level 100, k at level 200) : py_scope.

(** *** Floats: IEEE 754 binary64, as CPython's [float] *)

Definition prec : Z := 53.
Definition emax : Z := 1024.

Abbreviation float := spec_float.

(** The exact integer as an (unnormalised) operand. *)
Definition Z2SF (z : Z) : float :=
  match z with
  | Z0 => S754_zero false
  | Zpos p => S754_finite false p 0
  | Zneg p => S754_finite true p 0
  end.

(** [float(z)] for a literal: the nearest double. *)
Definition float_of_Z (z : Z) : float := binary_normalize prec emax z 0 false.

(** [a / b] on two ints: the correctly rounded quotient of the exact
    integers (CPython's [long_true_divide]). *)
Definition int_truediv (a b : Z) : result float :=
  if b =? 0 then Raise (Exn ZeroDivisionError "division by zero")
  else
    match SFdiv prec emax (Z2SF a) (Z2SF b) with
    | S754_infinity _ =>
        Raise (Exn OverflowError "integer division result too large for a float")
    | q => Ok q
    end.

(** [x / y] on two floats. *)
Definition float_truediv (x y : float) : result float :=
  match y with
  | S754_zero _ => Raise (Exn ZeroDivisionError "float division by zero")
  | _ => Ok (SFdiv prec emax x y)
  end.

(** [x * y] on two floats. *)
Definition float_mul (x y : float) : float := SFmul prec emax x y.

(** [int(x)] on a float: truncation towards zero. *)
Definition float_to_int (x : float) : result Z :=
  match x with
  | S754_zero _ => Ok 0
  | S754_finite s m e =>
      let mag := if 0 <=? e then Z.pos m * 2 ^ e else Z.pos m / 2 ^ (- e) in
      Ok (if s then - mag else mag)
  | S754_infinity _ =>
      Raise (Exn OverflowError "cannot convert float infinity to integer")
  | S754_nan => Raise (Exn ValueError "cannot convert float NaN to integer")
  end.

(** *** Dynamic values: what [json] and [tinytuya] hand to the programs *)

Inductive pyval : Type :=
| VNone
| VBool (b : bool)
| VInt (z : Z)
| VFloat (f : float)
| VStr (s : string)
| VList (l : list pyval)
| VDict (m : gmap string pyval).

(** Truth value, as [if v] and [not v] take it. *)
Definition truthy (v : pyval) : bool :=
  match v with
  | VNone => false
  | VBool b => b
  | VInt z => negb (z =? 0)
  | VFloat (S754_zero _) => false
  | VFloat _ => true
  | VStr s => negb (String.eqb s "")
  | VList l => negb (Nat.eqb (length l) 0)
  | VDict m => negb (Nat.eqb (size m) 0)
  end.

(** The name [type(v).__name__] that error messages quote. *)
Definition type_name (v : pyval) : string :=
  match v with
  | VNone => "NoneType"
  | VBool _ => "bool"
  | VInt _ => "int"
  | VFloat _ => "float"
  | VStr _ => "str"
  | VList _ => "list"
  | VDict _ => "dict"
  end.

(** [v.get(key, default)]: only dicts have the method. *)
Definition py_get (v : pyval) (key : string) (dflt : pyval) : result pyval :=
  match v with
  | VDict m => Ok (default dflt (m !! key))
  | _ => Raise (Exn AttributeError
                  ("'" +:+ type_name v +:+ "' object has no attribute 'get'"))
  end.

(** Substring test, for [key in s] on a str. *)
Fixpoint is_substring (k s : string) : bool :=
  String.prefix k s ||
  match s with
  | EmptyString => false
  | String _ s' => is_substring k s'
  end.

(** [key in v] for a str key. *)
Definition py_contains (key : string) (v : pyval) : result bool :=
  match v with
  | VDict m => Ok (bool_decide (is_Some (m !! key)))
  | VStr s => Ok (is_substring key s)
  | VList l =>
      Ok (existsb (fun x => match x with VStr s => String.eqb s key | _ => false end) l)
  | _ => Raise (Exn TypeError
                  ("argument of type '" +:+ type_name v +:+ "' is not iterable"))
  end.

(** [v[key]] for a str key. *)
Definition py_getitem (v : pyval) (key : string) : result pyval :=
  match v with
  | VDict m =>
      match m !! key with
      | Some x => Ok x
      | None => Raise (Exn KeyError ("'" +:+ key +:+ "'"))
      end
  | VStr _ => Raise (Exn TypeError "string indices must be integers")
  | VList _ => Raise (Exn TypeError "list indices must be integers or slices, not str")
  | _ => Raise (Exn TypeError ("'" +:+ type_name v +:+ "' object is not subscriptable"))
  end.

(** [v / n] for an int literal [n]. *)
Definition py_truediv (v : pyval) (n : Z) : result float :=
  match v with
  | VInt z => int_truediv z n
  | VBool b => int_truediv (if b then 1 else 0) n
  | VFloat f => float_truediv f (float_of_Z n)
  | _ => Raise (Exn TypeError
                  ("unsupported operand type(s) for /: '" +:+ type_name v +:+ "' and 'int'"))
  end.

(** [x == n] on a float and an int: CPython compares the two exact values,
    [m * 2^e] against [n], without rounding either.  A NaN and the infinities
    equal no int. *)
Definition float_eq_Z (x : float) (n : Z) : bool :=
  match x with
  | S754_zero _ => n =? 0
  | S754_finite s m e =>
      let v := if s then Z.neg m else Z.pos m in
      if 0 <=? e then v * 2 ^ e =? n else v =? n * 2 ^ (- e)
  | _ => false
  end.

(** [v == b] for a bool [b]: bools are ints in Python ([True] is 1, [False]
    is 0), so [1] and [1.0] compare equal to [True] as well; a value of any
    other type equals neither. *)
Definition py_eq_bool (v : pyval) (b : bool) : bool :=
  match v with
  | VBool b' => Bool.eqb b' b
  | VInt z => z =? (if b then 1 else 0)
  | VFloat f => float_eq_Z f (if b then 1 else 0)
  | _ => false
  end.

(** *** str and bytes

    A [str] is held by its UTF-8 encoding, so [s.encode()] returns the bytes
    as they are; [b.decode()] succeeds exactly on well-formed UTF-8. *)

Abbreviation bytes := (list Byte.byte).

Definition str_encode (s : string) : bytes := list_byte_of_string s.

Definition byte_val (b : Byte.byte) : Z := Z.of_N (Byte.to_N b).

Definition in_range (lo hi : Z) (b : Byte.byte) : bool :=
  (lo <=? byte_val b) && (byte_val b <=? hi).

(** The range the second byte of a sequence must lie in, by its lead byte
    (RFC 3629: no overlong forms, no surrogates, nothing above U+10FFFF). *)
Definition second_byte_range (lead : Z) : Z * Z :=
  if lead =? 224 then (160, 191)
  else if lead =? 237 then (128, 159)
  else if lead =? 240 then (144, 191)
  else if lead =? 244 then (128, 143)
  else (128, 191).

Fixpoint utf8_valid (bs : bytes) : bool :=
  match bs with
  | [] => true
  | b0 :: r0 =>
      let v := byte_val b0 in
      let '(lo, hi) := second_byte_range v in
      if v <=? 127 then utf8_valid r0
      else if (194 <=? v) && (v <=? 223) then
        match r0 with
        | b1 :: r1 => in_range 128 191 b1 && utf8_valid r1
        | _ => false
        end
      else if (224 <=? v) && (v <=? 239) then
        match r0 with
        | b1 :: b2 :: r2 => in_range lo hi b1 && in_range 128 191 b2 && utf8_valid r2
        | _ => false
        end
      else if (240 <=? v) && (v <=? 244) then
        match r0 with
        | b1 :: b2 :: b3 :: r3 =>
            in_range lo hi b1 && in_range 128 191 b2 && in_range 128 191 b3
            && utf8_valid r3
        | _ => false
        end
      else false
  end.

(** [b.decode()] *)
Definition bytes_decode (b : bytes) : result string :=
  if utf8_valid b then Ok (string_of_list_byte b)
  else Raise (Exn UnicodeDecodeError "'utf-8' codec can't decode bytes")%string.

(** A well-formed [str]: its representation is valid UTF-8. *)
Definition wf_str (s : string) : Prop := utf8_valid (str_encode s) = true.

Definition is_ascii (b : Byte.byte) : bool := byte_val b <=? 127.

(** *** Programs with effects

    A program threads a state (what the world has seen of it so far, and
    what it has yet to read from the world) and may raise.  An exception
    keeps the state reached when it was raised. *)

Section Prog.
Context {S : Type}.

Definition prog (A : Type) : Type := S -> result A * S.

Definition ret {A} (a : A) : prog A := fun s => (Ok a, s).

Definition bind {A B} (c : prog A) (k : A -> prog B) : prog B :=
  fun s =>
    match c s with
    | (Ok a, s') => k a s'
    | (Raise e, s') => (Raise e, s')
    end.

Definition raise {A} (e : exn) : prog A := fun s => (Raise e, s).

(** A pure Python operation run inside a program. *)
Definition lift {A} (r : result A) : prog A := fun s => (r, s).

(** [try: c  except <handled> as e: h e]; the handler declines ([None]) the
    classes its [except] clauses do not name. *)
Definition try_except {A} (c : prog A) (h : exn -> option (prog A)) : prog A :=
  fun s =>
    match c s with
    | (Ok a, s') => (Ok a, s')
    | (Raise e, s') =>
        match h e with
        | Some k => k s'
        | None => (Raise e, s')
        end
    end.

(** The clause [except Exception as e: h e]. *)
Definition except_Exception {A} (h : exn -> prog A) (e : exn) : option (prog A) :=
  if is_Exception (exn_cls e) then Some (h e) else None.

Definition get_state : prog S := fun s => (Ok s, s).
Definition put_state (s' : S) : prog unit := fun _ => (Ok tt, s').
Definition modify (f : S -> S) : prog unit := fun s => (Ok tt, f s).

End Prog.
Arguments prog S A : clear implicits.

Notation "'let*' x ':=' c 'in' k" := (bind c (fun x => k))
  (at level 10, x name, c at level 100, k at level 200) : py_scope.
Notation "c ';;' k" := (bind c (fun _ => k))
  (at level 100, k at level 200, right associativity) : py_scope.

End Py.

(** ** The cipher: [cryptography.fernet.Fernet]

    The service builds one [Fernet] object from ENCRYPTION_KEY at start-up
    and only ever calls its [encrypt] and [decrypt].  The library is not part
    of the repository, so the keyed object is taken as a parameter.
    [Fernet.encrypt(data)] reads the clock and draws a fresh 16-byte IV from
    [os.urandom]; both are arguments here. *)

Module Fernet.
Import Py.

Record suite : Type := Suite {
  (** [encrypt_at t iv data]: the token for [data] made at time [t] (seconds)
      with initialisation vector [iv]. *)
  encrypt_at : Z -> bytes -> bytes -> bytes;
  (** [decrypt token] (no ttl): [None] stands for [InvalidToken]. *)
  decrypt : bytes -> option bytes
}.

(** What the clock and [os.urandom(16)] can supply. *)
Definition entropy_ok (t : Z) (iv : bytes) : Prop :=
  0 <= t < 2 ^ 64 /\ length iv = 16%nat.

(** What the Fernet specification promises of a keyed object: a token
    decrypts to its plaintext, is url-safe base64 text, and carries its IV in
    the clear (bytes 9..24 under the armour). *)
Record laws (F : suite) : Prop := Laws {
  decrypt_encrypt_at :
    forall t iv m, entropy_ok t iv -> decrypt F (encrypt_at F t iv m) = Some m;
  token_is_ascii :
    forall t iv m, entropy_ok t iv -> forallb is_ascii (encrypt_at F t iv m) = true;
  token_carries_iv :
    forall t iv m t' iv' m',
      entropy_ok t iv -> entropy_ok t' iv' ->
      encrypt_at F t iv m = encrypt_at F t' iv' m' -> iv = iv'
}.

End Fernet.

(** ** The service: [src/services/audible-service/app.py] *)

Module Audible.
Import Py.
Local Open Scope py_scope.

(** *** The [audible] client library, as the service sees it *)

Record authenticator : Type := Authenticator {
  access_token : string;
  refresh_token : string;
  device_info : gmap string string
}.

Record contributor : Type := Contributor { contributor_name : option string }.

(** A library item's [product] object; a field that the JSON leaves out is
    [None].  An item without a [product] reads as one with every field left
    out ([item.get('product', {})]). *)
Record product : Type := Product {
  runtime_length_min : option Z;
  runtime_length_sec : option Z;
  title : option string;
  authors : list contributor;
  narrators : list contributor;
  product_images : gmap string string;
  release_date : option string;
  isbn : option string
}.

Record last_position : Type := LastPosition {
  position_in_book_seconds : option Z;
  status : option string
}.

Record item : Type := Item {
  item_asin : option string;
  item_product : product;
  last_position_heard : last_position
}.

(** The response of [client.get("library", ...)]: [items] may be left out. *)
Record library_response : Type := LibraryResponse {
  items : option (list item)
}.

Definition locale : Type := string.

(** The calls the service makes into the library; each may raise.  The
    service also names classes of the module [audible.exceptions] in its
    [except] clauses: [defines name] tells whether the installed package has
    an attribute of that name there. *)
Record upstream : Type := Upstream {
  Locale : pyval -> result locale;
  from_login : pyval -> pyval -> locale -> result authenticator;
  from_login_external : string -> string -> locale -> result authenticator;
  client_get : authenticator -> gmap string pyval -> result library_response;
  refresh_access_token : authenticator -> result authenticator;
  defines : string -> bool
}.

(** *** What a request does, as the outside can observe it *)

(** [Decrypt] and [Encrypt] are the uses of the cipher; the [Call...] events
    are the calls into the [audible] library. *)
Inductive event : Type :=
| Decrypt (token : string)
| Encrypt (text : string)
| CallLocale (country_code : pyval)
| CallFromLogin (email password : pyval)
| CallFromLoginExternal (access refresh : string)
| CallClientGet (params : gmap string pyval)
| CallRefreshAccessToken.

(** The trace so far, and how many times the clock and [os.urandom] were
    read. *)
Record state : Type := State { trace : list event; reads : nat }.

Definition initial : state := State [] 0.

(** The clock (microseconds since the epoch, at the n-th reading), the n-th
    draw of [os.urandom(16)], and [datetime.isoformat]. *)
Record world : Type := World {
  clock_us : nat -> Z;
  os_urandom : nat -> bytes;
  isoformat : Z -> string
}.

Record request : Type := Request {
  (** the X-API-Secret header, when the caller sent one *)
  header_secret : option string;
  (** what [request.get_json()] returns or raises *)
  get_json : result pyval
}.

Definition response : Type := pyval * Z.

(** [jsonify({...})] *)
Definition jsonify (fields : list (string * pyval)) : pyval :=
  VDict (list_to_map fields).

Definition opt_str (o : option string) : pyval :=
  match o with Some s => VStr s | None => VNone end.

Definition emit (e : event) : prog state unit :=
  modify (fun s => State (trace s ++ [e]) (reads s)).

(** The next reading of the world. *)
Definition next_read : prog state nat :=
  fun s => (Ok (reads s), State (trace s) (Datatypes.S (reads s))).

(** A call into the library: recorded, then answered. *)
Definition call {A} (e : event) (answer : result A) : prog state A :=
  emit e ;; lift answer.

(** *** Lines 249-260 and 369-374: runtime and progress of an item *)

(** [runtime_min] of [get_library]: the minutes field, or, when it is
    missing or zero, the seconds field floor-divided by 60. *)
Definition library_runtime_min (p : product) : Z :=
  let runtime_min := default 0 (runtime_length_min p) in
  if negb (truthy (VInt runtime_min)) then
    let runtime_sec := default 0 (runtime_length_sec p) in
    runtime_sec / 60
  else runtime_min.

(** [runtime_min] of [get_progress]: the minutes field alone. *)
Definition progress_runtime_min (p : product) : Z :=
  default 0 (runtime_length_min p).

(** [percent_complete], the same statements in both handlers:
<<
    percent_complete = 0
    if runtime_min > 0:
        percent_complete = min(100, int((position_sec / (runtime_min * 60)) * 100))
>> *)
Definition percent_complete (position_sec runtime_min : Z) : result Z :=
  if runtime_min >? 0 then
    let? q := int_truediv position_sec (runtime_min * 60) in
    let? n := float_to_int (float_mul q (float_of_Z 100)) in
    Ok (Z.min 100 n)
  else Ok 0.

Definition position_sec_of (lp : last_position) : Z :=
  default 0 (position_in_book_seconds lp).

(** [last_position.get('status') == 'Finished'] *)
Definition is_finished (lp : last_position) : bool :=
  match status lp with
  | Some s => String.eqb s "Finished"
  | None => false
  end.

Definition names_of (cs : list contributor) : pyval :=
  VList (map (fun c => VStr (default "" (contributor_name c))) cs).

(** The body of the loop of [get_library]: one entry of [books]. *)
Definition book_of_item (it : item) : result pyval :=
  let product := item_product it in
  let last_position := last_position_heard it in
  let runtime_min := library_runtime_min product in
  let position_sec := position_sec_of last_position in
  let? percent := percent_complete position_sec runtime_min in
  Ok (jsonify
        [("asin", opt_str (item_asin it));
         ("title", VStr (default "Unknown" (title product)));
         ("authors", names_of (authors product));
         ("narrators", names_of (narrators product));
         ("runtime_length_min", VInt runtime_min);
         ("cover_url", VStr (default "" (product_images product !! "500")));
         ("release_date", opt_str (release_date product));
         ("percent_complete", VInt percent);
         ("position_seconds", VInt position_sec);
         ("is_finished", VBool (is_finished last_position));
         ("isbn", opt_str (isbn product))]).

(** [for item in items: ... books.append(...)] *)
Fixpoint books_of (its : list item) : result (list pyval) :=
  match its with
  | [] => Ok []
  | it :: rest =>
      let? b := book_of_item it in
      let? bs := books_of rest in
      Ok (b :: bs)
  end.

(** *** The handlers *)

Section Service.
(** Process-wide configuration (lines 48-56) and the surroundings. *)
Variable API_SECRET : string.
Variable cipher_suite : Fernet.suite.
Variable audible : upstream.
Variable w : world.

(** Lines 65-69. *)
Definition verify_api_secret (request_secret : string) : bool :=
  if negb (truthy (VStr API_SECRET)) then true
  else String.eqb request_secret API_SECRET.

(** Lines 72-74, at a given reading of the clock and of [os.urandom]. *)
Definition encrypt_with (t : Z) (iv : bytes) (text : string) : result string :=
  bytes_decode (Fernet.encrypt_at cipher_suite t iv (str_encode text)).

(** Lines 77-79 on a str. *)
Definition decrypt_str (encrypted_text : string) : result string :=
  match Fernet.decrypt cipher_suite (str_encode encrypted_text) with
  | Some b => bytes_decode b
  | None => Raise (Exn InvalidToken "")
  end.

(** [encrypt(text)] inside a request. *)
Definition encrypt (text : string) : prog state string :=
  let* n := next_read in
  emit (Encrypt text) ;;
  lift (encrypt_with (clock_us w n / 1000000) (os_urandom w n) text).

(** [decrypt(encrypted_text)] inside a request; the argument comes from the
    request body, so it need not be a str. *)
Definition decrypt (encrypted_text : pyval) : prog state string :=
  match encrypted_text with
  | VStr s => emit (Decrypt s) ;; lift (decrypt_str s)
  | v => raise (Exn AttributeError
                  ("'" +:+ type_name v +:+ "' object has no attribute 'encode'"))
  end.

(** [datetime.utcnow() + timedelta(hours=1)] *)
Definition utcnow_plus_1h : prog state Z :=
  let* n := next_read in
  ret (clock_us w n + 3600 * 1000000).

(** Lines 82-94; [audible.Client(auth)] only wraps the authenticator. *)
Definition create_audible_client (access_token refresh_token country_code : pyval)
  : prog state authenticator :=
  let* a := decrypt access_token in
  let* r := decrypt refresh_token in
  let* loc := call (CallLocale country_code) (Locale audible country_code) in
  call (CallFromLoginExternal a r) (from_login_external audible a r loc).

Definition api_secret_of (req : request) : string :=
  default "" (header_secret req).

Definition unauthorized : response :=
  (jsonify [("success", VBool false); ("error", VStr "Unauthorized")], 401).

Definition failure (msg : string) (code : Z) : response :=
  (jsonify [("success", VBool false); ("error", VStr msg)], code).

(** The last [except Exception as e] clause of a handler. *)
Definition generic_error (prefix : string) (e : exn) : prog state response :=
  ret (failure (prefix +:+ exn_str e) 500).

(** What looking up [audible.exceptions.<name>] raises when the module has
    no such attribute. *)
Definition no_attribute (name : string) : exn :=
  Exn AttributeError
      ("module 'audible.exceptions' has no attribute '" +:+ name +:+ "'").

(** The clause [except audible.exceptions.<name>:] has been passed by an
    exception that is not of the class it names, and the clauses [rest]
    follow.  Python evaluates the expression after [except] when an exception
    reaches the clause, whatever the class of that exception; if the module
    does not define the name, the lookup raises [AttributeError] and that
    error leaves the [try] statement: the clauses after it are not tried. *)
Definition after_clause (name : string) (rest : exn -> option (prog state response))
    (e : exn) : option (prog state response) :=
  if defines audible name then rest e else Some (raise (no_attribute name)).

(** Both [except] clauses of [get_library] and [get_progress] (lines 292-305
    and 384-397).  An exception of class [UnauthorizedRequest] is an instance
    of what the name denotes, so the name is defined when one is in flight. *)
Definition token_handlers (prefix : string) (e : exn) : option (prog state response) :=
  match exn_cls e with
  | UnauthorizedRequest =>
      Some (ret (jsonify [("success", VBool false); ("error", VStr "Token expired");
                          ("needs_auth", VBool true)], 401))
  | _ => after_clause "UnauthorizedRequest" (except_Exception (generic_error prefix)) e
  end.

(** Both [except] clauses of [authenticate] (lines 176-188), likewise. *)
Definition login_handlers (e : exn) : option (prog state response) :=
  match exn_cls e with
  | BadRequest => Some (ret (failure "Invalid email or password" 400))
  | _ => after_clause "BadRequest"
           (except_Exception (generic_error "Authentication error: ")) e
  end.

(** Lines 101-108. *)
Definition health_check : prog state response :=
  let* n := next_read in
  ret (jsonify [("status", VStr "healthy"); ("service", VStr "audible-integration");
                ("timestamp", VStr (isoformat w (clock_us w n)))], 200).

(** Lines 111-188. *)
Definition authenticate (req : request) : prog state response :=
  try_except
    (if negb (verify_api_secret (api_secret_of req)) then ret unauthorized
     else
       let* data := lift (get_json req) in
       let* email := lift (py_get data "email" VNone) in
       let* password := lift (py_get data "password" VNone) in
       let* country_code := lift (py_get data "country_code" (VStr "us")) in
       if negb (truthy email) || negb (truthy password) then
         ret (failure "Email and password are required" 400)
       else
         let* loc := call (CallLocale country_code) (Locale audible country_code) in
         let* auth := call (CallFromLogin email password)
                           (from_login audible email password loc) in
         let device_serial := default "" (device_info auth !! "device_serial_number") in
         let* expires_at := utcnow_plus_1h in
         let* a := encrypt (access_token auth) in
         let* r := encrypt (refresh_token auth) in
         let* d := encrypt device_serial in
         ret (jsonify [("success", VBool true); ("access_token", VStr a);
                       ("refresh_token", VStr r); ("device_serial", VStr d);
                       ("expires_at", VStr (isoformat w expires_at +:+ "Z"))], 200))
    login_handlers.

(** Lines 191-305. *)
Definition get_library (req : request) : prog state response :=
  try_except
    (if negb (verify_api_secret (api_secret_of req)) then ret unauthorized
     else
       let* data := lift (get_json req) in
       let* access_token := lift (py_get data "access_token" VNone) in
       let* refresh_token := lift (py_get data "refresh_token" VNone) in
       let* country_code := lift (py_get data "country_code" (VStr "us")) in
       if negb (truthy access_token) || negb (truthy refresh_token) then
         ret (failure "Tokens are required" 400)
       else
         let* client := create_audible_client access_token refresh_token country_code in
         let params : gmap string pyval :=
           list_to_map
             [("num_results", VInt 1000);
              ("response_groups",
               VStr "product_desc,product_attrs,media,last_position_heard");
              ("sort_by", VStr "PurchaseDate")] in
         let* library_response := call (CallClientGet params)
                                       (client_get audible client params) in
         let items := default [] (items library_response) in
         let* books := lift (books_of items) in
         ret (jsonify [("success", VBool true); ("books", VList books);
                       ("total_count", VInt (Z.of_nat (length books)))], 200))
    (token_handlers "Library fetch error: ").

(** Lines 308-397. *)
Definition get_progress (asin : string) (req : request) : prog state response :=
  try_except
    (if negb (verify_api_secret (api_secret_of req)) then ret unauthorized
     else
       let* data := lift (get_json req) in
       let* access_token := lift (py_get data "access_token" VNone) in
       let* refresh_token := lift (py_get data "refresh_token" VNone) in
       let* country_code := lift (py_get data "country_code" (VStr "us")) in
       if negb (truthy access_token) || negb (truthy refresh_token) then
         ret (failure "Tokens are required" 400)
       else
         let* client := create_audible_client access_token refresh_token country_code in
         let params : gmap string pyval :=
           list_to_map
             [("asin", VStr asin);
              ("response_groups", VStr "media,last_position_heard")] in
         let* library_response := call (CallClientGet params)
                                       (client_get audible client params) in
         match default [] (items library_response) with
         | [] => ret (failure "Book not found in library" 404)
         | it :: _ =>
             let product := item_product it in
             let last_position := last_position_heard it in
             let runtime_min := progress_runtime_min product in
             let position_sec := position_sec_of last_position in
             let* percent := lift (percent_complete position_sec runtime_min) in
             ret (jsonify [("success", VBool true); ("asin", VStr asin);
                           ("position_seconds", VInt position_sec);
                           ("percent_complete", VInt percent);
                           ("is_finished", VBool (is_finished last_position))], 200)
         end)
    (token_handlers "Progress fetch error: ").

(** Lines 400-460. *)
Definition refresh_token_endpoint (req : request) : prog state response :=
  try_except
    (if negb (verify_api_secret (api_secret_of req)) then ret unauthorized
     else
       let* data := lift (get_json req) in
       let* refresh_token_enc := lift (py_get data "refresh_token" VNone) in
       let* country_code := lift (py_get data "country_code" (VStr "us")) in
       if negb (truthy refresh_token_enc) then
         ret (failure "Refresh token is required" 400)
       else
         let* r := decrypt refresh_token_enc in
         let* loc := call (CallLocale country_code) (Locale audible country_code) in
         let* auth := call (CallFromLoginExternal "" r)
                           (from_login_external audible "" r loc) in
         let* auth := call CallRefreshAccessToken (refresh_access_token audible auth) in
         let* expires_at := utcnow_plus_1h in
         let* a := encrypt (access_token auth) in
         ret (jsonify [("success", VBool true); ("access_token", VStr a);
                       ("expires_at", VStr (isoformat w expires_at +:+ "Z"))], 200))
    (except_Exception (generic_error "Token refresh error: ")).

(** The five routes. *)
Inductive endpoint : Type :=
| Health
| ApiAuth
| ApiLibrary
| ApiProgress (asin : string)
| ApiRefreshToken.

Definition serve (ep : endpoint) (req : request) : prog state response :=
  match ep with
  | Health => health_check
  | ApiAuth => authenticate req
  | ApiLibrary => get_library req
  | ApiProgress asin => get_progress asin req
  | ApiRefreshToken => refresh_token_endpoint req
  end.

(** One request, from a fresh state: what the view function returns or
    raises, and what was observed. *)
Definition handle (ep : endpoint) (req : request) : result response * list event :=
  let '(r, s) := serve ep req initial in (r, trace s).

(** Lines 472-475: the handler registered for status 500. *)
Definition internal_error : response :=
  (jsonify [("success", VBool false); ("error", VStr "Internal server error")], 500).

(** The classes Flask hands to the handler registered for 500 when they
    leave a view function: every [Exception] but werkzeug's HTTP errors, which
    bring a response of their own.  The classes named here are Python's, the
    cipher's and [audible]'s; an [OtherException] may be one of werkzeug's,
    and [SystemExit] is no [Exception]. *)
Definition is_server_error (c : exn_class) : bool :=
  match c with
  | OtherException _ | SystemExit _ => false
  | _ => true
  end.

(** What the caller is sent.  An exception that leaves the view function
    reaches [Flask.handle_exception]: with [debug] on (line 490, DEBUG=true)
    it is raised again for the server's debugger; otherwise the handler
    registered for 500 answers. *)
Definition respond (debug : bool) (ep : endpoint) (req : request)
  : result response * list event :=
  let '(r, t) := handle ep req in
  (match r with
   | Ok resp => Ok resp
   | Raise e =>
       if negb debug && is_server_error (exn_cls e) then Ok internal_error
       else Raise e
   end, t).

End Service.

End Audible.

(** ** The diagnostic script: [src/scripts/tuya-test-local.py] *)

Module Tuya.
Import Py.
Local Open Scope py_scope.

(** [DEVICE_CONFIG] (lines 18-23). *)
Record config : Type := Config {
  dev_id : string;
  address : string;
  local_key : string;
  version : float
}.

(** The literal [3.3]: the double nearest to 33/10. *)
Definition version_3_3 : float := SFdiv prec emax (Z2SF 33) (Z2SF 10).

(** The configuration as the repository ships it. *)
Definition PLACEHOLDER : config :=
  Config "YOUR_DEVICE_ID_HERE" "192.168.1.XXX" "YOUR_LOCAL_KEY_HERE" version_3_3.

(** A [tinytuya.OutletDevice] object: the parameters it was built from and
    the socket timeout set on it.  Building one does no I/O. *)
Record outlet : Type := Outlet { outlet_config : config; socket_timeout : option Z }.

Definition OutletDevice (c : config) : outlet := Outlet c None.

Definition set_socketTimeout (d : outlet) (s : Z) : outlet :=
  Outlet (outlet_config d) (Some s).

(** What the script prints, one constructor per [print] whose text depends
    on data; [Text] is a literal. *)
Inductive line : Type :=
| Text (s : string)
| TestingConnection (address : string)
| RawDeviceData (data : pyval)
| SwitchState (on : bool)
| Current (current_ma : pyval) (amps : float)
| Power (power_w : float)
| Voltage (voltage_v : float)
| TotalEnergy (energy_kwh : float)
| InstantaneousPower (power_w : float)
| TotalEnergyConsumed (energy_kwh : float)
| EstimatedTotalCost (cost : float)
| ErrorLine (msg : string)
| CurrentState (on : bool)
| Turning (on : bool)
| SuccessfullyTurned (on : bool)
| StateMayNotHaveChanged
| ControlError (msg : string)
| Prompt (s : string).

Definition is_switch_state (l : line) : bool :=
  match l with SwitchState _ => true | _ => false end.

Section Script.
(** The network and the plug behind it: [W] is their state. *)
Variable W : Type.

Record tinytuya : Type := TinyTuya {
  status : outlet -> prog W pyval;
  turn_on : outlet -> prog W pyval;
  turn_off : outlet -> prog W pyval;
  (** what [time.sleep(seconds)] lets happen *)
  sleep : Z -> W -> W
}.

Variable lib : tinytuya.
Variable DEVICE_CONFIG : config.

(** The terminal and the network. *)
Record state : Type := State {
  stdout : list line;
  stdin : list string;
  net : W
}.

Definition print (l : line) : prog state unit :=
  modify (fun s => State (stdout s ++ [l]) (stdin s) (net s)).

(** A call on the device: it acts on the network alone. *)
Definition on_net {A} (c : prog W A) : prog state A :=
  fun s => let '(r, n) := c (net s) in (r, State (stdout s) (stdin s) n).

Definition time_sleep (seconds : Z) : prog state unit :=
  modify (fun s => State (stdout s) (stdin s) (sleep lib seconds (net s))).

(** [input(prompt)] *)
Definition input (prompt : string) : prog state string :=
  print (Prompt prompt) ;;
  fun s =>
    match stdin s with
    | l :: rest => (Ok l, State (stdout s) rest (net s))
    | [] => (Raise (Exn EOFError "EOF when reading a line"), s)
    end.

Definition sys_exit {A} (code : Z) : prog state A :=
  raise (Exn (SystemExit code) "").

Definition separator : line := Text (String.concat "" (repeat "-" 60)).
Definition rule : string := String.concat "" (repeat "=" 60).
Definition newline : string := String (ascii_of_nat 10) "".

(** [if key in dps: body dps[key]] *)
Definition when_in (key : string) (dps : pyval) (body : pyval -> prog state unit)
  : prog state unit :=
  let* present := lift (py_contains key dps) in
  if present then
    let* v := lift (py_getitem dps key) in
    body v
  else ret tt.

(** [electricity_rate = 0.20] *)
Definition electricity_rate : float := SFdiv prec emax (Z2SF 20) (Z2SF 100).

(** Lines 69-103: the data points. *)
Definition show_data_points (data : pyval) : prog state unit :=
  let* has_dps := lift (py_contains "dps" data) in
  if has_dps then
    let* dps := lift (py_getitem data "dps") in
    print (Text "Parsed Data Points:") ;;
    print separator ;;
    when_in "1" dps (fun v => print (SwitchState (truthy v))) ;;
    when_in "18" dps (fun current_ma =>
      let* amps := lift (py_truediv current_ma 1000) in
      print (Current current_ma amps)) ;;
    when_in "19" dps (fun v =>
      let* power_w := lift (py_truediv v 10) in
      print (Power power_w)) ;;
    when_in "20" dps (fun v =>
      let* voltage_v := lift (py_truediv v 10) in
      print (Voltage voltage_v)) ;;
    when_in "101" dps (fun v =>
      let* energy_kwh := lift (py_truediv v 100) in
      print (TotalEnergy energy_kwh)) ;;
    print separator ;;
    print (Text "") ;;
    let* has19 := lift (py_contains "19" dps) in
    let* both := (if has19 then lift (py_contains "101" dps) else ret false) in
    if both then
      let* v19 := lift (py_getitem dps "19") in
      let* power_w := lift (py_truediv v19 10) in
      let* v101 := lift (py_getitem dps "101") in
      let* energy_kwh := lift (py_truediv v101 100) in
      print (Text "Energy Stats:") ;;
      print (InstantaneousPower power_w) ;;
      print (TotalEnergyConsumed energy_kwh) ;;
      print (EstimatedTotalCost (float_mul energy_kwh electricity_rate)) ;;
      print (Text "")
    else ret tt
  else ret tt.

(** Lines 29-116. *)
Definition test_connection : prog state bool :=
  print (Text "╔════════════════════════════════════════════════════════════╗") ;;
  print (Text "║         TUYA LOCAL CONTROL TEST                           ║") ;;
  print (Text ("╚════════════════════════════════════════════════════════════╝" +:+ newline)) ;;
  print (TestingConnection (address DEVICE_CONFIG)) ;;
  let device := OutletDevice DEVICE_CONFIG in
  let device := set_socketTimeout device 5 in
  try_except
    (print (Text "Fetching device status...") ;;
     let* data := on_net (status lib device) in
     if negb (truthy data) then
       print (Text "❌ No response from device") ;;
       print (Text (newline +:+ "TROUBLESHOOTING:")) ;;
       print (Text "1. Check device IP address is correct") ;;
       print (Text "2. Ensure device is powered on") ;;
       print (Text "3. Verify local key is correct") ;;
       print (Text "4. Check firewall isn't blocking ports 6666, 6667") ;;
       ret false
     else
       print (Text ("✓ Device responded!" +:+ newline)) ;;
       print (Text "Raw Device Data:") ;;
       print (RawDeviceData data) ;;
       print (Text "") ;;
       show_data_points data ;;
       print (Text "✓ LOCAL CONTROL WORKING!") ;;
       print (Text (newline +:+ "You can now integrate this into your app.")) ;;
       ret true)
    (except_Exception (fun e =>
       print (ErrorLine (exn_str e)) ;;
       print (Text "TROUBLESHOOTING:") ;;
       print (Text "1. Verify device info is correct") ;;
       print (Text "2. Check network connectivity") ;;
       print (Text "3. Ensure local key hasn't changed") ;;
       print (Text "4. Try rescanning: python -m tinytuya scan") ;;
       ret false)).

(** [status['dps'].get('1', False)] *)
Definition switch_of (status : pyval) : prog state pyval :=
  let* dps := lift (py_getitem status "dps") in
  lift (py_get dps "1" (VBool false)).

(** Lines 118-165. *)
Definition test_control : prog state unit :=
  print (Text (newline +:+ rule)) ;;
  print (Text "TESTING DEVICE CONTROL") ;;
  print (Text (rule +:+ newline)) ;;
  let device := OutletDevice DEVICE_CONFIG in
  try_except
    (print (Text "Attempting to toggle device...") ;;
     let* st := on_net (status lib device) in
     let* no_dps := (if negb (truthy st) then ret true
                     else let* has := lift (py_contains "dps" st) in ret (negb has)) in
     if no_dps then print (Text "❌ Cannot get device state")
     else
       let* current_state := switch_of st in
       print (CurrentState (truthy current_state)) ;;
       let new_state := negb (truthy current_state) in
       print (Turning new_state) ;;
       (if new_state then on_net (turn_on lib device) else on_net (turn_off lib device)) ;;
       time_sleep 2 ;;
       let* st := on_net (status lib device) in
       let* has_dps := (if truthy st then lift (py_contains "dps" st) else ret false) in
       if has_dps then
         let* actual_state := switch_of st in
         if py_eq_bool actual_state new_state then print (SuccessfullyTurned new_state)
         else print StateMayNotHaveChanged
       else ret tt)
    (except_Exception (fun e => print (ControlError (exn_str e)))).

(** [response.lower()] on the ASCII letters.  The script only compares the
    result with "y", and "Y" is the one other character that lowers to it. *)
Definition lower_ascii (c : ascii) : ascii :=
  let n := nat_of_ascii c in
  if (65 <=? n)%nat && (n <=? 90)%nat then ascii_of_nat (n + 32) else c.

Fixpoint lower (s : string) : string :=
  match s with
  | EmptyString => EmptyString
  | String c r => String (lower_ascii c) (lower r)
  end.

(** Lines 171-191. *)
Definition main : prog state unit :=
  if String.eqb (dev_id DEVICE_CONFIG) "YOUR_DEVICE_ID_HERE" then
    print (Text "❌ ERROR: Please edit this script and add your device info!") ;;
    print (Text (newline +:+ "You need to set:")) ;;
    print (Text "  - dev_id (device ID from extraction)") ;;
    print (Text "  - address (device IP address)") ;;
    print (Text "  - local_key (local key from extraction)") ;;
    print (Text ("  - version (usually 3.3)" +:+ newline)) ;;
    sys_exit 1
  else
    let* ok := test_connection in
    (if ok then
       let* response := input (newline +:+ "Test device control (turn on/off)? [y/N]: ") in
       if String.eqb (lower response) "y" then test_control else ret tt
     else ret tt) ;;
    print (Text (newline +:+ rule)) ;;
    print (Text "Test complete!") ;;
    print (Text (rule +:+ newline)).

(** How the interpreter ends the process: status 0 at the end of the
    script, the code of an uncaught [SystemExit], 1 after a traceback. *)
Definition exit_code (r : result unit) : Z :=
  match r with
  | Ok _ => 0
  | Raise e => match exn_cls e with SystemExit c => c | _ => 1 end
  end.

(** Running the script: exit code, everything printed, the network after. *)
Definition run (keys : list string) (n : W) : Z * list line * W :=
  let '(r, s) := main (State [] keys n) in (exit_code r, stdout s, net s).

End Script.

Arguments TinyTuya {W} _ _ _ _.
Arguments status {W} _ _ _.
Arguments turn_on {W} _ _ _.
Arguments turn_off {W} _ _ _.
Arguments sleep {W} _ _ _.
Arguments State {W} _ _ _.
Arguments stdout {W} _.
Arguments stdin {W} _.
Arguments net {W} _.
Arguments print {W} _ _.
Arguments on_net {W A} _ _.
Arguments time_sleep {W} _ _ _.
Arguments input {W} _ _.
Arguments sys_exit {W A} _ _.
Arguments when_in {W} _ _ _ _.
Arguments show_data_points {W} _ _.
Arguments test_connection {W} _ _ _.
Arguments switch_of {W} _ _.
Arguments test_control {W} _ _ _.
Arguments main {W} _ _ _.
Arguments run {W} _ _ _ _.

End Tuya.

(** ** Stand-ins for the surroundings

    Concrete surroundings to run the programs in: a cipher with Fernet's
    token layout, a scripted [audible] library, a clock, and a plug. *)

Module Sim.
Import Py.

(** *** A cipher with Fernet's token layout

    version byte, 8 bytes of timestamp, 16 bytes of IV, then the body; the
    whole in hexadecimal where Fernet uses base64.  The body is the plaintext
    XORed with a key byte where Fernet uses AES-CBC, and there is no HMAC. *)

Definition byte_of_N (n : N) : Byte.byte := default Byte.x00 (Byte.of_N n).

Definition hex_digit (n : N) : Byte.byte :=
  byte_of_N (if (n <? 10)%N then 48 + n else 87 + n)%N.

Definition unhex_digit (b : Byte.byte) : option N :=
  let n := Byte.to_N b in
  if (48 <=? n)%N && (n <=? 57)%N then Some (n - 48)%N
  else if (97 <=? n)%N && (n <=? 102)%N then Some (n - 87)%N
  else None.

Fixpoint hex (bs : bytes) : bytes :=
  match bs with
  | [] => []
  | b :: r =>
      hex_digit (Byte.to_N b / 16) :: hex_digit (Byte.to_N b mod 16) :: hex r
  end.

Fixpoint unhex (bs : bytes) : option bytes :=
  match bs with
  | [] => Some []
  | h :: l :: r =>
      match unhex_digit h, unhex_digit l, unhex r with
      | Some hi, Some lo, Some r' => Some (byte_of_N (hi * 16 + lo) :: r')
      | _, _, _ => None
      end
  | _ => None
  end.

Definition xor_key (k b : Byte.byte) : Byte.byte :=
  byte_of_N (N.lxor (Byte.to_N k) (Byte.to_N b)).

(** [struct.pack(">Q", t)] *)
Definition be64 (t : Z) : bytes :=
  map (fun i => byte_of_N (Z.to_N ((t / 256 ^ i) mod 256))) [7; 6; 5; 4; 3; 2; 1; 0].

Definition toy_key : Byte.byte := Byte.x5a.

Definition toy_encrypt_at (t : Z) (iv data : bytes) : bytes :=
  hex (Byte.x80 :: be64 t ++ iv ++ map (xor_key toy_key) data).

Definition toy_decrypt (token : bytes) : option bytes :=
  match unhex token with
  | Some (Byte.x80 :: rest) =>
      if (24 <=? length rest)%nat then Some (map (xor_key toy_key) (skipn 24 rest))
      else None
  | _ => None
  end.

Definition toy_fernet : Fernet.suite := Fernet.Suite toy_encrypt_at toy_decrypt.

(** *** A clock and a source of IVs *)

Definition iv_of (n : nat) : bytes := repeat (byte_of_N (N.of_nat n)) 16.

Definition toy_world : Audible.world :=
  Audible.World (fun n => 1700000000000000 + Z.of_nat n) iv_of
                (fun _ => "2023-11-14T22:13:20").

(** *** A scripted [audible] library

    It answers every call with what the script says, whatever the
    arguments, and its [exceptions] module has the two classes the service
    names. *)

Definition scripted
    (login : result Audible.authenticator)
    (library : result Audible.library_response)
    (refreshed : result Audible.authenticator) : Audible.upstream :=
  Audible.Upstream
    (fun cc => match cc with
               | VStr s => Ok s
               | _ => Raise (Exn (OtherException "Exception") "Country code must be a str")
               end)
    (fun _ _ _ => login)
    (fun a r _ => Ok (Audible.Authenticator a r ∅))
    (fun _ _ => library)
    (fun _ => refreshed)
    (fun name => String.eqb name "BadRequest" || String.eqb name "UnauthorizedRequest").

(** The same library out of a package whose [exceptions] module has
    [BadRequest] but nothing called [UnauthorizedRequest]. *)
Definition renamed (u : Audible.upstream) : Audible.upstream :=
  Audible.Upstream (Audible.Locale u) (Audible.from_login u)
    (Audible.from_login_external u) (Audible.client_get u)
    (Audible.refresh_access_token u)
    (fun name => String.eqb name "BadRequest").

(** *** A plug on the network

    Its state is the switch; [status] reports it as data point "1" unless the
    plug is of a kind that leaves the data point out. *)

Definition plug_status (reports_switch : bool) (on : bool) : pyval :=
  VDict {[ "dps" := VDict (if reports_switch
                           then {[ "1" := VBool on; "18" := VInt 120;
                                   "19" := VInt 250; "20" := VInt 1201 ]}
                           else {[ "18" := VInt 120; "19" := VInt 250;
                                   "20" := VInt 1201 ]}) ]}.

Definition plug (reports_switch : bool) : Tuya.tinytuya bool :=
  Tuya.TinyTuya
    (fun _ on => (Ok (plug_status reports_switch on), on))
    (fun _ _ => (Ok VNone, true))
    (fun _ _ => (Ok VNone, false))
    (fun _ on => on).

(** A plug that leaves data point "1" out while it is off and reports it as
    the number 1.0 once it is on. *)
Definition numeric_status (on : bool) : pyval :=
  VDict {[ "dps" := VDict (if on then {[ "1" := VFloat (float_of_Z 1) ]}
                           else {[ "18" := VInt 120 ]}) ]}.

Definition numeric_plug : Tuya.tinytuya bool :=
  Tuya.TinyTuya
    (fun _ on => (Ok (numeric_status on), on))
    (fun _ _ => (Ok VNone, true))
    (fun _ _ => (Ok VNone, false))
    (fun _ on => on).

End Sim.

(** ** Binary64 arithmetic stays finite on moderate operands

    [Zdigits2 m + e] bounds the magnitude of the float [m * 2^e]; rounding
    adds at most one to it, so neither the division of two ints nor the
    multiplication by a small constant overflows below [2^1015]. *)

Module FloatFacts.
Import Py.

Lemma digits2_pos_bounds (p : positive) :
  2 ^ (Z.pos (digits2_pos p) - 1) <= Z.pos p < 2 ^ Z.pos (digits2_pos p).
Proof.
  induction p as [p IH|p IH|]; cbn [digits2_pos].
  - rewrite Pos2Z.inj_succ, Pos2Z.inj_xI.
    replace (Z.succ (Z.pos (digits2_pos p)) - 1) with (Z.succ (Z.pos (digits2_pos p) - 1)) by lia.
    rewrite !Z.pow_succ_r by lia.
    generalize dependent (2 ^ (Z.pos (digits2_pos p) - 1)). generalize (2 ^ Z.pos (digits2_pos p)). intros; lia.
  - rewrite Pos2Z.inj_succ. change (Z.pos p~0) with (2 * Z.pos p).
    replace (Z.succ (Z.pos (digits2_pos p)) - 1) with (Z.succ (Z.pos (digits2_pos p) - 1)) by lia.
    rewrite !Z.pow_succ_r by lia.
    generalize dependent (2 ^ (Z.pos (digits2_pos p) - 1)). generalize (2 ^ Z.pos (digits2_pos p)). intros; lia.
  - cbn. lia.
Qed.

Lemma Zdigits2_nonneg (x : Z) : 0 <= Zdigits2 x.
Proof. destruct x; cbn; lia. Qed.

Lemma Zdigits2_gt (x : Z) : 0 <= x -> x < 2 ^ Zdigits2 x.
Proof.
  destruct x as [|p|p]; intros H; [cbn; lia| |lia].
  apply digits2_pos_bounds.
Qed.

Lemma Zdigits2_le (x d : Z) : 0 <= x -> 0 <= d -> x < 2 ^ d -> Zdigits2 x <= d.
Proof.
  destruct x as [|p|p]; intros Hx Hd H; [cbn; lia| |lia].
  cbn [Zdigits2]. destruct (digits2_pos_bounds p) as [Hlo _].
  destruct (Z_le_gt_dec (Z.pos (digits2_pos p)) d) as [|Hgt]; [assumption|exfalso].
  assert (2 ^ d <= 2 ^ (Z.pos (digits2_pos p) - 1)) by (apply Z.pow_le_mono_r; lia).
  lia.
Qed.

Lemma shr_1_m (mrs : shr_record) :
  0 <= shr_m mrs -> shr_m (shr_1 mrs) = shr_m mrs / 2.
Proof.
  destruct mrs as [m r s]. cbn [shr_m]. intros H.
  destruct m as [|[p|p|]|p]; cbn [shr_1 shr_m]; try reflexivity; try lia.
  all: first [ rewrite Pos2Z.inj_xI; apply Z.div_unique with 1; lia
             | change (Z.pos p~0) with (2 * Z.pos p); apply Z.div_unique with 0; lia ].
Qed.

Lemma iter_shr_1_m (n : positive) : forall mrs : shr_record,
  0 <= shr_m mrs -> shr_m (SpecFloat.iter_pos shr_1 n mrs) = shr_m mrs / 2 ^ Z.pos n.
Proof.
  induction n as [n IH|n IH|]; intros mrs H; cbn [SpecFloat.iter_pos].
  - assert (H1 : 0 <= shr_m (shr_1 mrs)) by (rewrite shr_1_m by assumption; apply Z.div_pos; lia).
    assert (H2 : 0 <= shr_m (SpecFloat.iter_pos shr_1 n (shr_1 mrs))) by (rewrite IH by assumption; apply Z.div_pos; lia).
    rewrite IH, IH, shr_1_m by assumption.
    rewrite !Z.div_div by lia. f_equal.
    rewrite Pos2Z.inj_xI, Z.pow_add_r, Z.pow_mul_r by lia. change (2 ^ 2) with 4. 
    rewrite Z.pow_1_r. 
    replace (4 ^ Z.pos n) with (2 ^ Z.pos n * 2 ^ Z.pos n); [lia|].
    rewrite <- Z.pow_add_r by lia. replace (Z.pos n + Z.pos n) with (2 * Z.pos n) by lia.
    now rewrite Z.pow_mul_r by lia.
  - assert (H2 : 0 <= shr_m (SpecFloat.iter_pos shr_1 n mrs)) by (rewrite IH by assumption; apply Z.div_pos; lia).
    rewrite IH, IH by assumption.
    rewrite !Z.div_div by lia. f_equal.
    change (Z.pos n~0) with (2 * Z.pos n). rewrite <- Z.pow_add_r by lia. f_equal. lia.
  - rewrite shr_1_m by assumption. now rewrite Z.pow_1_r.
Qed.

Lemma Zdigits2_mono (x y : Z) : 0 <= x <= y -> Zdigits2 x <= Zdigits2 y.
Proof.
  intros [Hx Hy]. apply Zdigits2_le; [assumption | apply Zdigits2_nonneg |].
  pose proof (Zdigits2_gt y). lia.
Qed.

Lemma Zdigits2_succ (x : Z) : 0 <= x -> Zdigits2 (x + 1) <= Zdigits2 x + 1.
Proof.
  intros Hx. pose proof (Zdigits2_nonneg x). pose proof (Zdigits2_gt x Hx).
  apply Zdigits2_le; [lia | lia |].
  rewrite Z.pow_add_r by lia. change (2 ^ 1) with 2. lia.
Qed.

Lemma Zdigits2_shift (x k : Z) :
  0 <= x -> 0 <= k -> Zdigits2 (x / 2 ^ k) <= Z.max 0 (Zdigits2 x - k).
Proof.
  intros Hx Hk. pose proof (Zdigits2_nonneg x) as Hd. pose proof (Zdigits2_gt x Hx) as Hlt.
  assert (0 < 2 ^ k) by (apply Z.pow_pos_nonneg; lia).
  apply Zdigits2_le; [apply Z.div_pos; lia | lia |].
  apply Z.div_lt_upper_bound; [lia|].
  destruct (Z_le_gt_dec k (Zdigits2 x)).
  - rewrite Z.max_r by lia. rewrite <- Z.pow_add_r by lia.
    now replace (k + (Zdigits2 x - k)) with (Zdigits2 x) by lia.
  - rewrite Z.max_l by lia. rewrite Z.pow_0_r.
    assert (2 ^ Zdigits2 x <= 2 ^ k) by (apply Z.pow_le_mono_r; lia). lia.
Qed.

Lemma Zdigits2_mul (x y : Z) :
  0 <= x -> 0 <= y -> Zdigits2 (x * y) <= Zdigits2 x + Zdigits2 y.
Proof.
  intros Hx Hy.
  pose proof (Zdigits2_nonneg x). pose proof (Zdigits2_nonneg y).
  pose proof (Zdigits2_gt x Hx). pose proof (Zdigits2_gt y Hy).
  apply Zdigits2_le; [nia | lia |].
  rewrite Z.pow_add_r by lia. nia.
Qed.

Lemma shr_record_of_loc_m (m : Z) (l : location) : shr_m (shr_record_of_loc m l) = m.
Proof. destruct l as [|[]]; reflexivity. Qed.

Lemma round_nearest_even_bounds (m : Z) (l : location) :
  m <= round_nearest_even m l <= m + 1.
Proof. destruct l as [|[]]; cbn; try lia. destruct (Z.even m); lia. Qed.

Lemma fexp_eq (e : Z) : fexp prec emax e = Z.max (e - 53) (-1074).
Proof. reflexivity. Qed.

Lemma shr_fexp_spec (m e : Z) (l : location) :
  0 <= m ->
  0 <= shr_m (fst (shr_fexp prec emax m e l)) /\
  snd (shr_fexp prec emax m e l) = Z.max e (fexp prec emax (Zdigits2 m + e)) /\
  Zdigits2 (shr_m (fst (shr_fexp prec emax m e l))) + snd (shr_fexp prec emax m e l)
    <= Z.max (Zdigits2 m + e) (-1074).
Proof.
  intros Hm. unfold shr_fexp, shr. rewrite fexp_eq.
  pose proof (Zdigits2_nonneg m) as Hd.
  destruct (Z.max (Zdigits2 m + e - 53) (-1074) - e) as [|p|p] eqn:Hn;
    cbn [fst snd]; rewrite ?shr_record_of_loc_m.
  - lia.
  - rewrite iter_shr_1_m by (rewrite shr_record_of_loc_m; assumption).
    rewrite shr_record_of_loc_m.
    assert (0 < 2 ^ Z.pos p) by (apply Z.pow_pos_nonneg; lia).
    split; [apply Z.div_pos; lia|]. split; [lia|].
    pose proof (Zdigits2_shift m (Z.pos p) Hm ltac:(lia)). lia.
  - lia.
Qed.

Lemma binary_round_aux_finite (sx : bool) (mx ex : Z) (lx : location) :
  0 <= mx -> ex <= 971 -> Zdigits2 mx + ex <= 1023 ->
  match binary_round_aux prec emax sx mx ex lx with
  | S754_zero s => s = sx
  | S754_finite s m e =>
      s = sx /\ e <= 971 /\
      Z.pos (digits2_pos m) + e <= Z.max (Zdigits2 mx + ex) (-1074) + 1
  | _ => False
  end.
Proof.
  intros Hm He Hd. unfold binary_round_aux.
  destruct (shr_fexp_spec mx ex lx Hm) as (H1 & H2 & H3).
  destruct (shr_fexp prec emax mx ex lx) as [mrs' e']. cbn [fst snd] in *.
  pose proof (round_nearest_even_bounds (shr_m mrs') (loc_of_shr_record mrs')) as Hr.
  set (m1 := round_nearest_even (shr_m mrs') (loc_of_shr_record mrs')) in *.
  assert (Hm1 : 0 <= m1) by lia.
  assert (Hd1 : Zdigits2 m1 <= Zdigits2 (shr_m mrs') + 1).
  { etransitivity; [apply (Zdigits2_mono m1 (shr_m mrs' + 1)); lia|].
    now apply Zdigits2_succ. }
  destruct (shr_fexp_spec m1 e' loc_Exact Hm1) as (H4 & H5 & H6).
  destruct (shr_fexp prec emax m1 e' loc_Exact) as [mrs'' e'']. cbn [fst snd] in *.
  rewrite fexp_eq in H2, H5.
  destruct (shr_m mrs'') as [|m|m] eqn:Hm''; [reflexivity| |lia].
  change (emax - prec) with 971.
  destruct (Z.leb_spec e'' 971); [|lia].
  cbn [Zdigits2] in H6. split; [reflexivity|lia].
Qed.

(** A zero or finite float of sign [s] and of magnitude below [2^k]. *)
Definition bounded_by (s : bool) (k : Z) (x : spec_float) : Prop :=
  match x with
  | S754_zero s' => s' = s
  | S754_finite s' m e => s' = s /\ e <= 971 /\ Z.pos (digits2_pos m) + e <= k
  | _ => False
  end.

Lemma SFdiv_ints (sa sb : bool) (pa pb : positive) :
  Z.pos (digits2_pos pa) <= 1023 ->
  bounded_by (xorb sa sb) (Z.pos (digits2_pos pa) + 1)
    (SFdiv prec emax (S754_finite sa pa 0) (S754_finite sb pb 0)).
Proof.
  intros Hd. unfold SFdiv, SFdiv_core_binary.
  change (Zdigits2 (Z.pos pa)) with (Z.pos (digits2_pos pa)).
  change (Zdigits2 (Z.pos pb)) with (Z.pos (digits2_pos pb)).
  set (da := Z.pos (digits2_pos pa)) in *. set (db := Z.pos (digits2_pos pb)).
  change (IntDef.Z.min ?x ?y) with (Z.min x y). rewrite fexp_eq.
  set (e' := Z.min (Z.max (da + 0 - (db + 0) - 53) (-1074)) (0 - 0)).
  assert (He' : e' <= 0) by (subst e'; lia).
  set (m' := match 0 - 0 - e' with
             | 0 => Z.pos pa
             | Z.pos _ => IntDef.Z.shiftl (Z.pos pa) (0 - 0 - e')
             | Z.neg _ => 0
             end).
  assert (Hm' : m' = Z.pos pa * 2 ^ (- e')).
  { subst m'. replace (0 - 0 - e') with (- e') by lia.
    destruct (- e') as [|p|p] eqn:Hs; [lia| |lia].
    change (IntDef.Z.shiftl ?x ?y) with (Z.shiftl x y).
    now rewrite Z.shiftl_mul_pow2 by lia. }
  change (IntDef.Z.div_eucl ?x ?y) with (Z.div_eucl x y).
  pose proof (Z_div_mod m' (Z.pos pb) ltac:(lia)) as Hdiv.
  destruct (Z.div_eucl m' (Z.pos pb)) as [q r]. destruct Hdiv as [Hq Hr].
  assert (0 < 2 ^ (- e')) by (apply Z.pow_pos_nonneg; lia).
  assert (Hq0 : 0 <= q) by nia.
  assert (Hqm : q <= m') by nia.
  assert (Hdq : Zdigits2 q + e' <= da).
  { assert (Zdigits2 q <= da + - e'); [|lia].
    apply Zdigits2_le; [assumption | subst da; lia |].
    rewrite Z.pow_add_r by (subst da; lia).
    pose proof (Zdigits2_gt (Z.pos pa) ltac:(lia)) as Hlt.
    change (Zdigits2 (Z.pos pa)) with da in Hlt. nia. }
  pose proof (binary_round_aux_finite (xorb sa sb) q e' (new_location (Z.pos pb) r)
                Hq0 ltac:(lia) ltac:(lia)) as Hround.
  unfold bounded_by.
  destruct (binary_round_aux prec emax (xorb sa sb) q e' _) as [s|s| |s m e];
    try exact Hround.
  destruct Hround as (Hs & He & Hmag). repeat split; try assumption. subst da. lia.
Qed.

Lemma SFmul_bounded (sx sy : bool) (kx ky : Z) (x y : spec_float) :
  bounded_by sx kx x -> bounded_by sy ky y -> kx + ky <= 1023 ->
  match y with S754_finite _ _ e => e <= 0 | _ => True end ->
  bounded_by (xorb sx sy) (Z.max (kx + ky) (-1074) + 1) (SFmul prec emax x y).
Proof.
  intros Hx Hy Hk Hey.
  destruct x as [s|s| |s m e]; try contradiction;
  destruct y as [s'|s'| |s' m' e']; try contradiction;
    cbn [bounded_by SFmul] in Hx, Hy |- *.
  - now subst.
  - destruct Hy as [-> _]. now subst.
  - destruct Hx as [-> _]. now subst.
  - destruct Hx as (-> & He & Hm). destruct Hy as (-> & He' & Hm').
    pose proof (Zdigits2_mul (Z.pos m) (Z.pos m') ltac:(lia) ltac:(lia)) as Hmul.
    change (Z.pos m * Z.pos m') with (Z.pos (m * m')) in Hmul.
    cbn [Zdigits2] in Hmul.
    pose proof (binary_round_aux_finite (xorb sx sy) (Z.pos (m * m')) (e + e') loc_Exact
                  ltac:(lia) ltac:(lia)) as Hround.
    cbn [Zdigits2] in Hround.
    specialize (Hround ltac:(lia)).
    destruct (binary_round_aux prec emax (xorb sx sy) _ _ _) as [s|s| |s m2 e2];
      try exact Hround.
    destruct Hround as (Hs & He2 & Hmag). repeat split; try assumption. lia.
Qed.

Lemma SFdiv_Z2SF (a b : Z) :
  b <> 0 -> Zdigits2 a <= 1023 ->
  bounded_by (xorb (a <? 0) (b <? 0)) (Zdigits2 a + 1)
    (SFdiv prec emax (Z2SF a) (Z2SF b)).
Proof.
  intros Hb Ha.
  destruct a as [|pa|pa]; destruct b as [|pb|pb]; try congruence;
    try reflexivity; apply SFdiv_ints; exact Ha.
Qed.

(** [a / b] on ints returns unless [b] is zero or [a] is astronomically
    large. *)
Lemma int_truediv_total (a b : Z) :
  b <> 0 -> Zdigits2 a <= 1023 ->
  exists q, int_truediv a b = Ok q /\
            bounded_by (xorb (a <? 0) (b <? 0)) (Zdigits2 a + 1) q.
Proof.
  intros Hb Ha. unfold int_truediv.
  apply Z.eqb_neq in Hb. rewrite Hb.
  pose proof (SFdiv_Z2SF a b ltac:(now apply Z.eqb_neq) Ha) as Hq.
  destruct (SFdiv prec emax (Z2SF a) (Z2SF b)) as [s|s| |s m e]; try contradiction;
    eexists; split; try reflexivity; exact Hq.
Qed.

(** [int(x)] on a finite float returns, with the sign of [x]. *)
Lemma float_to_int_nonneg (k : Z) (x : float) :
  bounded_by false k x -> exists n, float_to_int x = Ok n /\ 0 <= n.
Proof.
  destruct x as [s|s| |s m e]; try contradiction; cbn [bounded_by float_to_int].
  - intros _. exists 0. split; [reflexivity | lia].
  - intros (-> & _ & _). eexists. split; [reflexivity|].
    destruct (Z.leb_spec 0 e).
    + apply Z.mul_nonneg_nonneg; [lia | apply Z.pow_nonneg; lia].
    + apply Z.div_pos; [lia | apply Z.pow_pos_nonneg; lia].
Qed.

End FloatFacts.

(** ** Facts about the Python fragment *)

Module PyFacts.
Import Py.

Lemma ascii_is_utf8 (bs : bytes) :
  forallb is_ascii bs = true -> utf8_valid bs = true.
Proof.
  induction bs as [|b r IH]; [reflexivity|].
  cbn [forallb]. intros [Hb Hr]%andb_prop.
  cbn [utf8_valid]. unfold is_ascii in Hb.
  destruct (second_byte_range (byte_val b)) as [lo hi].
  rewrite Hb. auto.
Qed.

Lemma decode_encode (s : string) :
  wf_str s -> bytes_decode (str_encode s) = Ok s.
Proof.
  unfold wf_str, bytes_decode, str_encode. intros ->.
  now rewrite string_of_list_byte_of_string.
Qed.

Lemma decode_inv (b : bytes) (s : string) :
  bytes_decode b = Ok s -> str_encode s = b /\ wf_str s.
Proof.
  unfold bytes_decode, wf_str, str_encode.
  destruct (utf8_valid b) eqn:Hv; [|discriminate].
  intros [= <-]. now rewrite list_byte_of_string_of_list_byte.
Qed.

Lemma decode_ascii (b : bytes) :
  forallb is_ascii b = true ->
  exists s, bytes_decode b = Ok s /\ str_encode s = b.
Proof.
  intros Ha. exists (string_of_list_byte b). unfold bytes_decode, str_encode.
  rewrite (ascii_is_utf8 _ Ha).
  now rewrite list_byte_of_string_of_list_byte.
Qed.

(** Every exception the pure operations raise derives from [Exception]. *)
Definition raises_Exception {A} (r : result A) : Prop :=
  match r with
  | Ok _ => True
  | Raise e => is_Exception (exn_cls e) = true
  end.

Lemma py_get_Exception v k d : raises_Exception (py_get v k d).
Proof. destruct v; exact I || reflexivity. Qed.

Lemma py_contains_Exception k v : raises_Exception (py_contains k v).
Proof. destruct v; exact I || reflexivity. Qed.

Lemma py_getitem_Exception v k : raises_Exception (py_getitem v k).
Proof.
  destruct v; try reflexivity. cbn. now destruct (_ !! _).
Qed.

Lemma int_truediv_Exception a b : raises_Exception (int_truediv a b).
Proof.
  unfold int_truediv. destruct (b =? 0); [reflexivity|].
  now destruct (SFdiv _ _ _ _).
Qed.

Lemma py_truediv_Exception v n : raises_Exception (py_truediv v n).
Proof.
  destruct v; try reflexivity; cbn; try apply int_truediv_Exception.
  unfold float_truediv. now destruct (float_of_Z n).
Qed.

Lemma contains_present (m : gmap string pyval) (k : string) (v : pyval) :
  m !! k = Some v -> py_contains k (VDict m) = Ok true.
Proof. intros H. cbn. now rewrite H. Qed.

Lemma contains_absent (m : gmap string pyval) (k : string) :
  m !! k = None -> py_contains k (VDict m) = Ok false.
Proof. intros H. cbn. now rewrite H. Qed.

End PyFacts.

(** ** The stand-in cipher keeps Fernet's promises *)

Module SimFacts.
Import Py Sim.

Lemma hex_byte (b : Byte.byte) :
  unhex_digit (hex_digit (Byte.to_N b / 16)) = Some (Byte.to_N b / 16)%N /\
  unhex_digit (hex_digit (Byte.to_N b mod 16)) = Some (Byte.to_N b mod 16)%N /\
  byte_of_N (Byte.to_N b / 16 * 16 + Byte.to_N b mod 16) = b /\
  is_ascii (hex_digit (Byte.to_N b / 16)) = true /\
  is_ascii (hex_digit (Byte.to_N b mod 16)) = true.
Proof. destruct b; vm_compute; auto. Qed.

Lemma unhex_hex (bs : bytes) : unhex (hex bs) = Some bs.
Proof.
  induction bs as [|b r IH]; [reflexivity|].
  cbn [hex unhex]. destruct (hex_byte b) as (-> & -> & Hb & _).
  now rewrite IH, Hb.
Qed.

Lemma hex_ascii (bs : bytes) : forallb is_ascii (hex bs) = true.
Proof.
  induction bs as [|b r IH]; [reflexivity|].
  cbn [hex forallb]. destruct (hex_byte b) as (_ & _ & _ & -> & ->). exact IH.
Qed.

Lemma hex_inj (a b : bytes) : hex a = hex b -> a = b.
Proof.
  intros H. apply (f_equal unhex) in H. rewrite !unhex_hex in H. congruence.
Qed.

Lemma xor_key_involutive (b : Byte.byte) : xor_key toy_key (xor_key toy_key b) = b.
Proof. destruct b; reflexivity. Qed.

Lemma length_be64 (t : Z) : length (be64 t) = 8%nat.
Proof. reflexivity. Qed.

Lemma toy_decrypt_encrypt t iv m :
  Fernet.entropy_ok t iv -> toy_decrypt (toy_encrypt_at t iv m) = Some m.
Proof.
  intros [_ Hiv]. unfold toy_decrypt, toy_encrypt_at. rewrite unhex_hex.
  assert (Hlen : length (be64 t ++ iv) = 24%nat)
    by (rewrite length_app, length_be64, Hiv; reflexivity).
  rewrite (app_assoc (be64 t)).
  replace (24 <=? _)%nat with true
    by (symmetry; apply Nat.leb_le; rewrite length_app; lia).
  rewrite <- Hlen, drop_app_length. f_equal.
  rewrite map_map. rewrite <- (map_id m) at 2.
  apply map_ext. apply xor_key_involutive.
Qed.

Lemma toy_token_iv t iv m t' iv' m' :
  Fernet.entropy_ok t iv -> Fernet.entropy_ok t' iv' ->
  toy_encrypt_at t iv m = toy_encrypt_at t' iv' m' -> iv = iv'.
Proof.
  intros [_ Hiv] [_ Hiv'] H%hex_inj.
  apply (f_equal (drop 9)) in H. change ((iv ++ map (xor_key toy_key) m)%list =
    (iv' ++ map (xor_key toy_key) m')%list) in H.
  apply app_inj_1 in H as [H _]; [exact H | congruence].
Qed.

Lemma toy_laws : Fernet.laws toy_fernet.
Proof.
  split.
  - exact toy_decrypt_encrypt.
  - intros t iv m _. exact (hex_ascii _).
  - exact toy_token_iv.
Qed.

End SimFacts.

(** ** The service: what holds of it *)

Module AudibleFacts.
Import Py PyFacts Audible.

(** *** The cipher helpers (lines 72-79) *)

Section Cipher.
Variable cipher_suite : Fernet.suite.
Hypothesis fernet : Fernet.laws cipher_suite.

Lemma encrypt_with_token t iv x :
  Fernet.entropy_ok t iv ->
  exists tok,
    encrypt_with cipher_suite t iv x = Ok tok /\
    str_encode tok = Fernet.encrypt_at cipher_suite t iv (str_encode x).
Proof.
  intros He. unfold encrypt_with.
  apply decode_ascii, (Fernet.token_is_ascii _ fernet), He.
Qed.

Lemma decrypt_of_encrypt t iv x tok :
  Fernet.entropy_ok t iv -> wf_str x ->
  encrypt_with cipher_suite t iv x = Ok tok ->
  decrypt_str cipher_suite tok = Ok x.
Proof.
  intros He Hx Htok.
  destruct (encrypt_with_token t iv x He) as (tok' & Htok' & Henc).
  rewrite Htok in Htok'. injection Htok' as <-.
  unfold decrypt_str.
  rewrite Henc, (Fernet.decrypt_encrypt_at _ fernet) by exact He.
  now apply decode_encode.
Qed.

Lemma decrypted_is_wf tok p : decrypt_str cipher_suite tok = Ok p -> wf_str p.
Proof.
  unfold decrypt_str. destruct (Fernet.decrypt _ _); [|discriminate].
  intros H. now apply decode_inv in H.
Qed.

(** Two tokens made with different IVs differ, whatever they encrypt. *)
Lemma fresh_iv_fresh_token t iv x tok t' iv' x' tok' :
  Fernet.entropy_ok t iv -> Fernet.entropy_ok t' iv' ->
  encrypt_with cipher_suite t iv x = Ok tok ->
  encrypt_with cipher_suite t' iv' x' = Ok tok' ->
  iv' <> iv -> tok' <> tok.
Proof.
  intros He He' Htok Htok' Hne ->.
  destruct (encrypt_with_token t iv x He) as (a & Ha & Hea).
  destruct (encrypt_with_token t' iv' x' He') as (b & Hb & Heb).
  rewrite Htok in Ha. rewrite Htok' in Hb. injection Ha as <-. injection Hb as <-.
  rewrite Hea in Heb.
  apply Hne. symmetry. eapply (Fernet.token_carries_iv _ fernet); eauto.
Qed.

(** C1, as amended.  Under a fixed key, [decrypt(encrypt(x)) == x] for every
    well-formed string [x] and every reading of the clock and of
    [os.urandom].  In the other direction, for a token [x] that decrypts,
    [encrypt(decrypt(x))] is again a token that decrypts to the same
    plaintext, and it is a different string from [x] whenever the IV drawn
    for it differs from the one [x] was made with. *)
Theorem cipher_round_trip :
  (forall t iv x,
      Fernet.entropy_ok t iv -> wf_str x ->
      exists tok,
        encrypt_with cipher_suite t iv x = Ok tok /\
        decrypt_str cipher_suite tok = Ok x) /\
  (forall x p t' iv',
      decrypt_str cipher_suite x = Ok p -> Fernet.entropy_ok t' iv' ->
      exists y,
        encrypt_with cipher_suite t' iv' p = Ok y /\
        decrypt_str cipher_suite y = Ok p) /\
  (forall t iv p x t' iv' y,
      Fernet.entropy_ok t iv -> Fernet.entropy_ok t' iv' ->
      encrypt_with cipher_suite t iv p = Ok x ->
      encrypt_with cipher_suite t' iv' p = Ok y ->
      iv' <> iv -> y <> x).
Proof.
  split; [|split].
  - intros t iv x He Hx.
    destruct (encrypt_with_token t iv x He) as (tok & Htok & _).
    exists tok. split; [exact Htok|]. now apply (decrypt_of_encrypt t iv).
  - intros x p t' iv' Hp He.
    destruct (encrypt_with_token t' iv' p He) as (y & Hy & _).
    exists y. split; [exact Hy|].
    apply (decrypt_of_encrypt t' iv'); auto. now apply (decrypted_is_wf x).
  - intros t iv p x t' iv' y He He' Hx Hy. now apply (fresh_iv_fresh_token t iv p x t' iv' p y).
Qed.

End Cipher.

(** The round trip on the stand-in cipher. *)
Lemma cipher_round_trip_witness :
  Fernet.laws Sim.toy_fernet /\
  exists tok,
    encrypt_with Sim.toy_fernet 7 (Sim.iv_of 9) "abc" = Ok tok /\
    decrypt_str Sim.toy_fernet tok = Ok "abc".
Proof.
  split; [exact SimFacts.toy_laws|].
  apply (proj1 (cipher_round_trip Sim.toy_fernet SimFacts.toy_laws)).
  - split; [lia | reflexivity].
  - reflexivity.
Defined.

(** Whatever IV a token was made with, [os.urandom] can return another. *)
Lemma another_iv (iv : bytes) :
  length iv = 16%nat -> exists iv', length iv' = 16%nat /\ iv' <> iv.
Proof.
  destruct iv as [|b rest]; [discriminate|]. intros Hlen.
  destruct (Byte.eqb b Byte.x00) eqn:E.
  - apply Byte.byte_dec_bl in E. subst b.
    exists (Byte.x01 :: rest). split; [exact Hlen | congruence].
  - apply Byte.eqb_false in E.
    exists (Byte.x00 :: rest). split; [exact Hlen | congruence].
Qed.

(** C1 as stated fails in its first half: re-encrypting what a token
    decrypts to does not give the token back.  For every cipher that keeps
    Fernet's promises and every token [x], there is a reading of the clock
    and of [os.urandom] at which encrypting the plaintext of [x] again gives
    a string other than [x].  On the stand-in cipher: the token below was
    made at time 7 with the IV 09..09; encrypting its plaintext again at
    time 8 with the IV 0a..0a gives another string. *)
Lemma encrypt_decrypt_is_not_identity :
  (forall cipher_suite t iv p x,
      Fernet.laws cipher_suite -> Fernet.entropy_ok t iv ->
      encrypt_with cipher_suite t iv p = Ok x ->
      decrypt_str cipher_suite x = Ok p ->
      exists t' iv' y,
        Fernet.entropy_ok t' iv' /\
        encrypt_with cipher_suite t' iv' p = Ok y /\ y <> x) /\
  decrypt_str Sim.toy_fernet
    "800000000000000007090909090909090909090909090909093b3839" = Ok "abc" /\
  encrypt_with Sim.toy_fernet 8 (Sim.iv_of 10) "abc"
    = Ok "8000000000000000080a0a0a0a0a0a0a0a0a0a0a0a0a0a0a0a3b3839" /\
  "8000000000000000080a0a0a0a0a0a0a0a0a0a0a0a0a0a0a0a3b3839"
    <> "800000000000000007090909090909090909090909090909093b3839".
Proof.
  split; [|split; [|split]].
  - intros F t iv p x HF He Hx _.
    destruct (another_iv iv (proj2 He)) as (iv' & Hlen & Hne).
    assert (He' : Fernet.entropy_ok t iv') by (split; [exact (proj1 He) | exact Hlen]).
    destruct (encrypt_with_token F HF t iv' p He') as (y & Hy & _).
    exists t, iv', y. split; [exact He'|]. split; [exact Hy|].
    exact (fresh_iv_fresh_token F HF t iv p x t iv' p y He He' Hx Hy Hne).
  - vm_compute. reflexivity.
  - vm_compute. reflexivity.
  - discriminate.
Qed.

(** *** The shared-secret gate (lines 65-69 and the head of every handler) *)

Section Gate.
Variable API_SECRET : string.
Variable cipher_suite : Fernet.suite.
Variable audible : upstream.
Variable w : world.

Lemma verify_rejects (req : request) :
  API_SECRET <> "" -> header_secret req <> Some API_SECRET ->
  verify_api_secret API_SECRET (api_secret_of req) = false.
Proof.
  intros Hconf Hreq. unfold verify_api_secret, api_secret_of. cbn [truthy].
  destruct (String.eqb_spec API_SECRET "") as [->|_]; [congruence|]. cbn.
  apply String.eqb_neq. destruct (header_secret req) as [s|]; cbn; congruence.
Qed.

Lemma verify_accepts_all (s : string) : verify_api_secret "" s = true.
Proof. reflexivity. Qed.

Lemma verify_accepts_secret (req : request) :
  header_secret req = Some API_SECRET ->
  verify_api_secret API_SECRET (api_secret_of req) = true.
Proof.
  intros H. unfold verify_api_secret, api_secret_of. rewrite H. cbn.
  rewrite String.eqb_refl. now destruct (negb _).
Qed.

End Gate.

(** *** Validation of the request body *)

(** The fields each endpoint insists on (lines 143, 221, 340, 428). *)
Definition required_fields (ep : endpoint) : list string :=
  match ep with
  | Health => []
  | ApiAuth => ["email"; "password"]
  | ApiLibrary | ApiProgress _ => ["access_token"; "refresh_token"]
  | ApiRefreshToken => ["refresh_token"]
  end.

(** Absent, or present with a value Python takes for false ([None], the
    empty string, [0], [False], an empty list or object). *)
Definition missing (m : gmap string pyval) (k : string) : Prop :=
  truthy (default VNone (m !! k)) = false.

Definition validation_error (ep : endpoint) : string :=
  match ep with
  | ApiAuth => "Email and password are required"
  | ApiRefreshToken => "Refresh token is required"
  | _ => "Tokens are required"
  end.

(** What the last [except] clause of each handler puts before [str(e)]. *)
Definition error_prefix (ep : endpoint) : string :=
  match ep with
  | ApiAuth => "Authentication error: "
  | ApiLibrary => "Library fetch error: "
  | ApiProgress _ => "Progress fetch error: "
  | _ => "Token refresh error: "
  end.

Ltac run_handler :=
  cbv [handle serve authenticate get_library get_progress refresh_token_endpoint
       try_except bind lift ret py_get initial].

(** The class of [audible.exceptions] that the first [except] clause of a
    route names (lines 176, 292, 384); /api/refresh-token names none. *)
Definition clause_name (ep : endpoint) : option string :=
  match ep with
  | ApiAuth => Some "BadRequest"
  | ApiLibrary | ApiProgress _ => Some "UnauthorizedRequest"
  | _ => None
  end.

(** The installed package has the class that the route names. *)
Definition resolves (audible : upstream) (ep : endpoint) : bool :=
  match clause_name ep with
  | Some name => defines audible name
  | None => true
  end.

Section Validation.
Variable API_SECRET : string.
Variable cipher_suite : Fernet.suite.
Variable audible : upstream.
Variable w : world.

(** An exception raised inside a route is reported as a server error, the
    trace being [t].  When the class named by the route's first [except]
    clause resolves, the last clause answers 500 with the error [err].  When
    it does not, the view function raises [AttributeError] and, with
    debugging off, Flask's handler for 500 answers.  Either way the caller is
    sent a 500. *)
Definition reported_500 (ep : endpoint) (req : request) (err : string)
    (t : list event) : Prop :=
  (resolves audible ep = true ->
   handle API_SECRET cipher_suite audible w ep req = (Ok (failure err 500), t)) /\
  (forall name,
      clause_name ep = Some name -> defines audible name = false ->
      handle API_SECRET cipher_suite audible w ep req = (Raise (no_attribute name), t) /\
      respond API_SECRET cipher_suite audible w false ep req = (Ok internal_error, t)) /\
  (exists body,
      respond API_SECRET cipher_suite audible w false ep req = (Ok (body, 500), t)).

Lemma reported_500_intro (ep : endpoint) (req : request) (err : string)
    (t : list event) :
  handle API_SECRET cipher_suite audible w ep req
    = match clause_name ep with
      | Some name =>
          if defines audible name then (Ok (failure err 500), t)
          else (Raise (no_attribute name), t)
      | None => (Ok (failure err 500), t)
      end ->
  reported_500 ep req err t.
Proof.
  intros H. unfold reported_500, resolves, respond. rewrite H. clear H.
  destruct (clause_name ep) as [name|].
  - destruct (defines audible name) eqn:Hd.
    + split; [reflexivity|]. split; [|eexists; reflexivity].
      intros name' [= <-]. congruence.
    + split; [discriminate|]. split; [|eexists; reflexivity].
      intros name' [= <-] _. split; reflexivity.
  - split; [reflexivity|]. split; [discriminate | eexists; reflexivity].
Qed.

Lemma missing_field_400 (ep : endpoint) (req : request) (m : gmap string pyval) :
  verify_api_secret API_SECRET (api_secret_of req) = true ->
  get_json req = Ok (VDict m) ->
  (exists k, In k (required_fields ep) /\ missing m k) ->
  handle API_SECRET cipher_suite audible w ep req
    = (Ok (failure (validation_error ep) 400), []).
Proof.
  intros Hv Hj (k & Hk & Hm). unfold missing in Hm.
  destruct ep; cbn [required_fields In] in Hk; intuition subst;
    run_handler; rewrite Hv, Hj; cbn [negb]; rewrite Hm; cbn [negb orb];
    rewrite ?orb_true_r; reflexivity.
Qed.

Lemma non_object_body_500 (ep : endpoint) (req : request) (v : pyval) :
  verify_api_secret API_SECRET (api_secret_of req) = true ->
  ep <> Health ->
  get_json req = Ok v -> (forall m, v <> VDict m) ->
  reported_500 ep req
    (error_prefix ep +:+ "'" +:+ type_name v +:+ "' object has no attribute 'get'") [].
Proof.
  intros Hv Hep Hj Hobj. apply reported_500_intro.
  destruct ep; [congruence| | | |]; run_handler; rewrite Hv, Hj; cbn [negb];
    cbv [login_handlers token_handlers after_clause clause_name];
    destruct v;
    first [ reflexivity
          | now destruct (defines audible _)
          | match goal with m : gmap string pyval |- _ => now destruct (Hobj m) end ].
Qed.

(** [request.get_json()] raises werkzeug's exceptions (a malformed body, a
    content type that is not JSON), none of them a class of [audible]. *)
Lemma unparsed_body_500 (ep : endpoint) (req : request) (e : exn) (name : string) :
  verify_api_secret API_SECRET (api_secret_of req) = true ->
  ep <> Health ->
  get_json req = Raise e -> exn_cls e = OtherException name ->
  reported_500 ep req (error_prefix ep +:+ exn_str e) [].
Proof.
  intros Hv Hep Hj He. apply reported_500_intro.
  destruct ep; [congruence| | | |]; run_handler; rewrite Hv, Hj; cbn [negb];
    cbv [login_handlers token_handlers after_clause clause_name except_Exception];
    rewrite He; first [reflexivity | now destruct (defines audible _)].
Qed.

(** C4, as amended.  For a request that passes the secret check and whose
    body is a JSON object in which a required field is absent or empty, the
    endpoint answers 400 with its fixed message and leaves an empty trace:
    nothing was decrypted and the library was not called.  When the body is
    valid JSON but not an object ([null], a list, a string, a number), or
    [request.get_json()] raises, the fields are missing too and the trace is
    empty as well, but the answer is a 500: the exception raised inside the
    [try] goes to the [except] clauses.  On /api/refresh-token, and on the
    other routes when the class of [audible.exceptions] that the first clause
    names exists, the last clause answers with the route's message; when the
    class does not exist, looking it up raises [AttributeError], the view
    function raises and Flask's handler for 500 answers. *)
Theorem missing_field_fails_fast (ep : endpoint) (req : request) :
  verify_api_secret API_SECRET (api_secret_of req) = true ->
  ep <> Health ->
  (forall m,
      get_json req = Ok (VDict m) ->
      (exists k, In k (required_fields ep) /\ missing m k) ->
      handle API_SECRET cipher_suite audible w ep req
        = (Ok (failure (validation_error ep) 400), [])) /\
  (forall v,
      get_json req = Ok v -> (forall m, v <> VDict m) ->
      reported_500 ep req
        (error_prefix ep +:+ "'" +:+ type_name v +:+ "' object has no attribute 'get'")
        []) /\
  (forall e name,
      get_json req = Raise e -> exn_cls e = OtherException name ->
      reported_500 ep req (error_prefix ep +:+ exn_str e) []).
Proof.
  intros Hv Hep. split; [|split].
  - intros m Hj Hk. now apply missing_field_400 with (m := m).
  - intros v Hj Hobj. now apply non_object_body_500.
  - intros e name Hj He. now apply unparsed_body_500 with (name := name).
Qed.

End Validation.

(** A library request without its refresh token. *)
Lemma missing_field_fails_fast_witness :
  handle "" Sim.toy_fernet
         (Sim.scripted (Raise (Exn BadRequest "")) (Raise (Exn BadRequest ""))
                       (Raise (Exn BadRequest "")))
         Sim.toy_world ApiLibrary
         (Request None (Ok (VDict {[ "access_token" := VStr "a" ]})))
  = (Ok (failure "Tokens are required" 400), []).
Proof.
  refine (proj1 (missing_field_fails_fast "" _ _ _ ApiLibrary _ _ _) _ _ _).
  - reflexivity.
  - discriminate.
  - reflexivity.
  - exists "refresh_token". split; [cbn; tauto | reflexivity].
Defined.

(** C4 as stated fails on a body that is not an object: POST /api/auth with
    the JSON body [null] lacks both fields and is answered 500, not 400. *)
Lemma null_body_is_500 :
  handle "" Sim.toy_fernet
         (Sim.scripted (Raise (Exn BadRequest "")) (Raise (Exn BadRequest ""))
                       (Raise (Exn BadRequest "")))
         Sim.toy_world ApiAuth (Request None (Ok VNone))
  = (Ok (jsonify [("success", VBool false);
                  ("error", VStr "Authentication error: 'NoneType' object has no attribute 'get'")],
         500), []).
Proof. vm_compute. reflexivity. Qed.

(** *** Bad credentials (lines 176-181) *)

Section BadCredentials.
Variable API_SECRET : string.
Variable cipher_suite : Fernet.suite.
Variable audible : upstream.
Variable w : world.

(** C7.  POST /api/auth with a non-empty email and password, for which
    [Authenticator.from_login] raises [audible.exceptions.BadRequest], is
    answered 400 with the body {success: false, error: "Invalid email or
    password"}.  The hypotheses on the secret and on [Locale] say that the
    authenticator was reached. *)
Theorem bad_credentials_400 (req : request) (m : gmap string pyval)
    (loc : locale) (e : exn) :
  let email := default VNone (m !! "email") in
  let password := default VNone (m !! "password") in
  let country_code := default (VStr "us") (m !! "country_code") in
  verify_api_secret API_SECRET (api_secret_of req) = true ->
  get_json req = Ok (VDict m) ->
  truthy email = true -> truthy password = true ->
  Locale audible country_code = Ok loc ->
  from_login audible email password loc = Raise e ->
  exn_cls e = BadRequest ->
  handle API_SECRET cipher_suite audible w ApiAuth req
    = (Ok (jsonify [("success", VBool false);
                    ("error", VStr "Invalid email or password")], 400),
       [CallLocale country_code; CallFromLogin email password]).
Proof.
  intros email password country_code Hv Hj He Hp Hloc Hlogin Hcls.
  run_handler. rewrite Hv, Hj. cbn [negb].
  fold email password country_code. rewrite He, Hp. cbn [negb orb].
  cbv [call bind emit modify lift]. cbn [trace reads app].
  rewrite Hloc, Hlogin. unfold login_handlers. rewrite Hcls. reflexivity.
Qed.

End BadCredentials.

(** The scenario of the specification: a@b.com with the password "wrong",
    against a library that turns the credentials down. *)
Lemma bad_credentials_400_witness :
  handle "" Sim.toy_fernet
         (Sim.scripted (Raise (Exn BadRequest "Login failed"))
                       (Raise (Exn BadRequest "")) (Raise (Exn BadRequest "")))
         Sim.toy_world ApiAuth
         (Request None (Ok (VDict {[ "email" := VStr "a@b.com";
                                     "password" := VStr "wrong" ]})))
  = (Ok (jsonify [("success", VBool false);
                  ("error", VStr "Invalid email or password")], 400),
     [CallLocale (VStr "us"); CallFromLogin (VStr "a@b.com") (VStr "wrong")]).
Proof.
  refine (bad_credentials_400 "" _ _ _ _
            {[ "email" := VStr "a@b.com"; "password" := VStr "wrong" ]}
            "us" (Exn BadRequest "Login failed") _ _ _ _ _ _ _);
    reflexivity.
Defined.

(** *** Expired tokens (lines 292-298, 384-390 and 455-460) *)

(** The answer that tells the caller to authenticate again. *)
Definition needs_auth_response : response :=
  (jsonify [("success", VBool false); ("error", VStr "Token expired");
            ("needs_auth", VBool true)], 401).

Section Expired.
Variable API_SECRET : string.
Variable cipher_suite : Fernet.suite.
Variable audible : upstream.
Variable w : world.

(** Whatever raises [UnauthorizedRequest] inside [get_library] or
    [get_progress], the answer is the 401 with [needs_auth]. *)
Lemma token_handlers_unauthorized (prefix : string) (c : prog state response)
    (s s' : state) (e : exn) :
  c s = (Raise e, s') -> exn_cls e = UnauthorizedRequest ->
  try_except c (token_handlers audible prefix) s = (Ok needs_auth_response, s').
Proof.
  intros Hc He. unfold try_except, token_handlers. rewrite Hc, He. reflexivity.
Qed.

(** [refresh_token] has the generic clause only: the same exception is
    reported as a 500. *)
Lemma refresh_handler_unauthorized (c : prog state response)
    (s s' : state) (e : exn) :
  c s = (Raise e, s') -> exn_cls e = UnauthorizedRequest ->
  try_except c (except_Exception (generic_error "Token refresh error: ")) s
    = (Ok (failure ("Token refresh error: " +:+ exn_str e) 500), s').
Proof.
  intros Hc He. unfold try_except, except_Exception. rewrite Hc, He. reflexivity.
Qed.

Ltac run_calls :=
  cbv [create_audible_client decrypt call bind emit modify lift ret];
  cbn [trace reads app].

(** X2.  /api/library with tokens that decrypt and that the library turns
    down with [UnauthorizedRequest]: the answer is 401 with [needs_auth]. *)
Lemma library_expired (req : request) (m : gmap string pyval)
    (a_enc r_enc a r : string) (loc : locale) (client : authenticator) (e : exn) :
  verify_api_secret API_SECRET (api_secret_of req) = true ->
  get_json req = Ok (VDict m) ->
  m !! "access_token" = Some (VStr a_enc) -> a_enc <> "" ->
  m !! "refresh_token" = Some (VStr r_enc) -> r_enc <> "" ->
  decrypt_str cipher_suite a_enc = Ok a ->
  decrypt_str cipher_suite r_enc = Ok r ->
  Locale audible (default (VStr "us") (m !! "country_code")) = Ok loc ->
  from_login_external audible a r loc = Ok client ->
  (forall params, client_get audible client params = Raise e) ->
  exn_cls e = UnauthorizedRequest ->
  fst (handle API_SECRET cipher_suite audible w ApiLibrary req)
    = Ok needs_auth_response.
Proof.
  intros Hv Hj Ha Hane Hr Hrne Hda Hdr Hloc Hext Hget Hcls.
  unfold handle, serve, get_library.
  destruct (try_except _ _ initial) as [res s1] eqn:Hrun. cbn [fst].
  revert Hrun. unfold try_except.
  cbv [bind lift ret py_get]. rewrite Hv, Hj, Ha, Hr. cbn [negb default truthy id].
  apply String.eqb_neq in Hane, Hrne. rewrite Hane, Hrne. cbn [negb orb].
  run_calls. rewrite Hda, Hdr, Hloc, Hext, Hget. unfold token_handlers.
  rewrite Hcls. cbv [ret]. now intros [= <- _].
Qed.

(** X3.  /api/progress/<asin> likewise: 401 with [needs_auth]. *)
Lemma progress_expired (asin : string) (req : request) (m : gmap string pyval)
    (a_enc r_enc a r : string) (loc : locale) (client : authenticator) (e : exn) :
  verify_api_secret API_SECRET (api_secret_of req) = true ->
  get_json req = Ok (VDict m) ->
  m !! "access_token" = Some (VStr a_enc) -> a_enc <> "" ->
  m !! "refresh_token" = Some (VStr r_enc) -> r_enc <> "" ->
  decrypt_str cipher_suite a_enc = Ok a ->
  decrypt_str cipher_suite r_enc = Ok r ->
  Locale audible (default (VStr "us") (m !! "country_code")) = Ok loc ->
  from_login_external audible a r loc = Ok client ->
  (forall params, client_get audible client params = Raise e) ->
  exn_cls e = UnauthorizedRequest ->
  fst (handle API_SECRET cipher_suite audible w (ApiProgress asin) req)
    = Ok needs_auth_response.
Proof.
  intros Hv Hj Ha Hane Hr Hrne Hda Hdr Hloc Hext Hget Hcls.
  unfold handle, serve, get_progress.
  destruct (try_except _ _ initial) as [res s1] eqn:Hrun. cbn [fst].
  revert Hrun. unfold try_except.
  cbv [bind lift ret py_get]. rewrite Hv, Hj, Ha, Hr. cbn [negb default truthy id].
  apply String.eqb_neq in Hane, Hrne. rewrite Hane, Hrne. cbn [negb orb].
  run_calls. rewrite Hda, Hdr, Hloc, Hext, Hget. unfold token_handlers.
  rewrite Hcls. cbv [ret]. now intros [= <- _].
Qed.

(** /api/refresh-token: the refresh call is turned down, and the caller is
    told of a server error. *)
Lemma refresh_expired (req : request) (m : gmap string pyval)
    (r_enc r : string) (loc : locale) (auth : authenticator) (e : exn) :
  verify_api_secret API_SECRET (api_secret_of req) = true ->
  get_json req = Ok (VDict m) ->
  m !! "refresh_token" = Some (VStr r_enc) -> r_enc <> "" ->
  decrypt_str cipher_suite r_enc = Ok r ->
  Locale audible (default (VStr "us") (m !! "country_code")) = Ok loc ->
  from_login_external audible "" r loc = Ok auth ->
  refresh_access_token audible auth = Raise e ->
  exn_cls e = UnauthorizedRequest ->
  fst (handle API_SECRET cipher_suite audible w ApiRefreshToken req)
    = Ok (failure ("Token refresh error: " +:+ exn_str e) 500).
Proof.
  intros Hv Hj Hr Hrne Hdr Hloc Hext Href Hcls.
  unfold handle, serve, refresh_token_endpoint.
  destruct (try_except _ _ initial) as [res s1] eqn:Hrun. cbn [fst].
  revert Hrun. unfold try_except.
  cbv [bind lift ret py_get]. rewrite Hv, Hj, Hr. cbn [negb default truthy id].
  apply String.eqb_neq in Hrne. rewrite Hrne. cbn [negb].
  run_calls. rewrite Hdr, Hloc, Hext, Href. unfold except_Exception.
  rewrite Hcls. cbv [is_Exception generic_error ret]. now intros [= <- _].
Qed.

End Expired.

Lemma library_expired_witness :
  fst (handle "" Sim.toy_fernet
         (Sim.scripted (Raise (Exn BadRequest ""))
                       (Raise (Exn UnauthorizedRequest "Token expired"))
                       (Raise (Exn BadRequest "")))
         Sim.toy_world ApiLibrary
         (Request None
            (Ok (VDict {[ "access_token" :=
                            VStr "8000000000000000070909090909090909090909090909090928";
                          "refresh_token" :=
                            VStr "8000000000000000070909090909090909090909090909090928" ]}))))
  = Ok needs_auth_response.
Proof.
  refine (library_expired "" Sim.toy_fernet _ Sim.toy_world _
            {[ "access_token" :=
                 VStr "8000000000000000070909090909090909090909090909090928";
               "refresh_token" :=
                 VStr "8000000000000000070909090909090909090909090909090928" ]}
            "8000000000000000070909090909090909090909090909090928"
            "8000000000000000070909090909090909090909090909090928"
            "r" "r" "us" (Authenticator "r" "r" ∅)
            (Exn UnauthorizedRequest "Token expired")
            _ _ _ _ _ _ _ _ _ _ _ _);
    first [discriminate | vm_compute; reflexivity | intros; reflexivity].
Defined.

Lemma progress_expired_witness :
  fst (handle "" Sim.toy_fernet
         (Sim.scripted (Raise (Exn BadRequest ""))
                       (Raise (Exn UnauthorizedRequest "Token expired"))
                       (Raise (Exn BadRequest "")))
         Sim.toy_world (ApiProgress "B002V0QK4C")
         (Request None
            (Ok (VDict {[ "access_token" :=
                            VStr "8000000000000000070909090909090909090909090909090928";
                          "refresh_token" :=
                            VStr "8000000000000000070909090909090909090909090909090928" ]}))))
  = Ok needs_auth_response.
Proof.
  refine (progress_expired "" Sim.toy_fernet _ Sim.toy_world "B002V0QK4C" _
            {[ "access_token" :=
                 VStr "8000000000000000070909090909090909090909090909090928";
               "refresh_token" :=
                 VStr "8000000000000000070909090909090909090909090909090928" ]}
            "8000000000000000070909090909090909090909090909090928"
            "8000000000000000070909090909090909090909090909090928"
            "r" "r" "us" (Authenticator "r" "r" ∅)
            (Exn UnauthorizedRequest "Token expired")
            _ _ _ _ _ _ _ _ _ _ _ _);
    first [discriminate | vm_compute; reflexivity | intros; reflexivity].
Defined.

(** C5 fails on /api/refresh-token.  The request carries a refresh token
    that decrypts; the library answers the refresh with
    [UnauthorizedRequest].  The service replies 500 with the generic body:
    no 401 and no [needs_auth] flag. *)
Theorem refresh_token_expired_is_500 :
  let r_enc := "8000000000000000070909090909090909090909090909090928" in
  let req := Request None (Ok (VDict {[ "refresh_token" := VStr r_enc ]})) in
  let audible := Sim.scripted (Raise (Exn BadRequest ""))
                              (Raise (Exn UnauthorizedRequest "Token expired"))
                              (Raise (Exn UnauthorizedRequest "Token expired")) in
  handle "" Sim.toy_fernet audible Sim.toy_world ApiRefreshToken req
    = (Ok (jsonify [("success", VBool false);
                    ("error", VStr "Token refresh error: Token expired")], 500),
       [Decrypt r_enc; CallLocale (VStr "us"); CallFromLoginExternal "" "r";
        CallRefreshAccessToken]) /\
  handle "" Sim.toy_fernet audible Sim.toy_world ApiLibrary
         (Request None (Ok (VDict {[ "access_token" := VStr r_enc;
                                     "refresh_token" := VStr r_enc ]})))
    = (Ok needs_auth_response,
       [Decrypt r_enc; Decrypt r_enc; CallLocale (VStr "us");
        CallFromLoginExternal "r" "r";
        CallClientGet (list_to_map
          [("num_results", VInt 1000);
           ("response_groups",
            VStr "product_desc,product_attrs,media,last_position_heard");
           ("sort_by", VStr "PurchaseDate")])]).
Proof. cbv zeta. split; vm_compute; reflexivity. Qed.

(** *** Runtime and progress of an item (lines 249-260 and 369-374) *)

(** The percentage in the words of the specification: the floor of
    position / (runtime_minutes x 60) x 100, clamped to 100, and 0 without
    dividing when the runtime is 0. *)
Definition spec_percent (position_sec runtime_min : Z) : Z :=
  if runtime_min =? 0 then 0
  else Z.min 100 (position_sec * 100 / (runtime_min * 60)).

(** C3 fails on the code.  For a book of 600 minutes heard up to second
    10440 the quotient is 29/100 exactly, so the specification's percentage is
    29; the code divides in binary64, multiplies the rounded quotient by 100
    and truncates 28.999999999999996 to 28.  Both handlers report 28. *)
Theorem percent_complete_truncates_below :
  spec_percent 10440 600 = 29 /\
  percent_complete 10440 600 = Ok 28 /\
  float_mul (SFdiv prec emax (Z2SF 10440) (Z2SF 36000)) (float_of_Z 100)
    = S754_finite false 8162774324609023 (-48) /\
  8162774324609023 < 29 * 2 ^ 48 /\
  (let tok := "8000000000000000070909090909090909090909090909090928" in
   let req := Request None (Ok (VDict {[ "access_token" := VStr tok;
                                         "refresh_token" := VStr tok ]})) in
      fst (handle "" Sim.toy_fernet
             (Sim.scripted (Raise (Exn BadRequest ""))
                (Ok (LibraryResponse
                       (Some [Item (Some "B002V0QK4C")
                                (Product (Some 600) None (Some "Dune") [] [] ∅ None None)
                                (LastPosition (Some 10440) (Some "InProgress"))])))
                (Raise (Exn BadRequest "")))
             Sim.toy_world (ApiProgress "B002V0QK4C") req)
      = Ok (jsonify [("success", VBool true); ("asin", VStr "B002V0QK4C");
                     ("position_seconds", VInt 10440);
                     ("percent_complete", VInt 28);
                     ("is_finished", VBool false)], 200)).
Proof.
  split; [reflexivity|]. split; [vm_compute; reflexivity|].
  split; [vm_compute; reflexivity|]. split; [lia|].
  vm_compute. reflexivity.
Qed.

(** What does hold of the percentage whatever the floats do: no division
    without a positive runtime, and never more than 100. *)
Lemma percent_complete_no_runtime (position_sec runtime_min : Z) :
  runtime_min <= 0 -> percent_complete position_sec runtime_min = Ok 0.
Proof.
  intros H. unfold percent_complete.
  now destruct (Z.gtb_spec runtime_min 0); [lia|].
Qed.

Lemma percent_complete_le_100 (position_sec runtime_min n : Z) :
  percent_complete position_sec runtime_min = Ok n -> n <= 100.
Proof.
  unfold percent_complete. destruct (runtime_min >? 0); [|intros [= <-]; lia].
  destruct (int_truediv _ _) as [q|]; [|discriminate]. cbn [rbind].
  destruct (float_to_int _) as [k|]; [|discriminate]. cbn [rbind].
  intros [= <-]. lia.
Qed.

(** The literal 100 as a double: 7036874417766400 x 2^-46. *)
Lemma float_100_bounded : FloatFacts.bounded_by false 7 (float_of_Z 100).
Proof.
  replace (float_of_Z 100) with (S754_finite false 7036874417766400 (-46))
    by (vm_compute; reflexivity).
  cbn [FloatFacts.bounded_by].
  change (digits2_pos 7036874417766400) with 53%positive. lia.
Qed.

(** X1.  The percentage is defined and is an integer in [0, 100] for every
    non-negative position below 2^1015 seconds, whatever the runtime: the
    division and the multiplication stay finite, and the truncation of a
    non-negative double is non-negative. *)
Lemma percent_complete_in_range (position_sec runtime_min : Z) :
  0 <= position_sec < 2 ^ 1015 ->
  exists n, percent_complete position_sec runtime_min = Ok n /\ 0 <= n <= 100.
Proof.
  intros [Hp0 Hp]. unfold percent_complete.
  destruct (Z.gtb_spec runtime_min 0) as [Hm|Hm]; [|exists 0; split; [reflexivity|lia]].
  assert (Hd : Zdigits2 position_sec <= 1015) by (apply FloatFacts.Zdigits2_le; lia).
  destruct (FloatFacts.int_truediv_total position_sec (runtime_min * 60))
    as (q & Hq & Hb); [lia | lia |].
  rewrite Hq. cbn [rbind].
  replace (position_sec <? 0) with false in Hb by (symmetry; apply Z.ltb_ge; lia).
  replace (runtime_min * 60 <? 0) with false in Hb by (symmetry; apply Z.ltb_ge; lia).
  pose proof (FloatFacts.SFmul_bounded false false _ _ q (float_of_Z 100)
                Hb float_100_bounded ltac:(lia)) as Hmul.
  specialize (Hmul ltac:(vm_compute; discriminate)).
  destruct (FloatFacts.float_to_int_nonneg _ _ Hmul) as (n & Hn & Hn0).
  fold (float_mul q (float_of_Z 100)) in Hn.
  rewrite Hn. cbn [rbind]. exists (Z.min 100 n). split; [reflexivity | lia].
Qed.

Lemma percent_complete_in_range_witness :
  exists n, percent_complete 3000 600 = Ok n /\ 0 <= n <= 100.
Proof.
  apply (percent_complete_in_range 3000 600). split; [lia | reflexivity].
Defined.


End AudibleFacts.

(** ** The diagnostic script: what holds of it *)

Module TuyaFacts.
Import Py PyFacts Tuya.
Local Open Scope py_scope.
Local Open Scope list_scope.

(** *** A frame rule for the script's programs

    [quiet P c]: whatever the state, [c] appends to stdout only lines that
    satisfy [P], reads nothing from stdin, and raises only exceptions that
    [except Exception] catches.  [calm P c]: moreover [c] returns. *)

Section Frame.
Context {W : Type}.
Variable P : line -> Prop.

Definition quiet {A} (c : prog (state W) A) : Prop :=
  forall s, exists r out n,
    c s = (r, State (stdout s ++ out) (stdin s) n) /\
    Forall P out /\ raises_Exception r.

Definition calm {A} (c : prog (state W) A) : Prop :=
  forall s, exists a out n,
    c s = (Ok a, State (stdout s ++ out) (stdin s) n) /\ Forall P out.

Lemma calm_quiet {A} (c : prog (state W) A) : calm c -> quiet c.
Proof.
  intros H s. destruct (H s) as (a & out & n & Hc & Hout).
  exists (Ok a), out, n. repeat split; assumption.
Qed.

Lemma calm_ret {A} (a : A) : calm (ret a).
Proof.
  intros [o i n]. exists a, [], n. cbn. rewrite app_nil_r. auto.
Qed.

Lemma calm_print (l : line) : P l -> calm (print l).
Proof.
  intros Hl [o i n]. exists tt, [l], n. cbn. auto.
Qed.

Lemma calm_time_sleep (lib : tinytuya W) (z : Z) : calm (time_sleep lib z).
Proof.
  intros [o i n]. exists tt, [], (sleep lib z n). cbn. rewrite app_nil_r. auto.
Qed.

Lemma calm_bind {A B} (c : prog (state W) A) (k : A -> prog (state W) B) :
  calm c -> (forall a, calm (k a)) -> calm (bind c k).
Proof.
  intros Hc Hk s. destruct (Hc s) as (a & out & n & Ec & Hout).
  destruct (Hk a (State (stdout s ++ out) (stdin s) n)) as (b & out' & n' & Ek & Hout').
  exists b, (out ++ out'), n'. unfold bind. rewrite Ec, Ek. cbn.
  rewrite app_assoc. split; [reflexivity|]. now apply Forall_app.
Qed.

Lemma quiet_bind {A B} (c : prog (state W) A) (k : A -> prog (state W) B) :
  quiet c -> (forall a, quiet (k a)) -> quiet (bind c k).
Proof.
  intros Hc Hk s. destruct (Hc s) as (r & out & n & Ec & Hout & Hr).
  unfold bind. rewrite Ec. destruct r as [a|e].
  - destruct (Hk a (State (stdout s ++ out) (stdin s) n))
      as (r' & out' & n' & Ek & Hout' & Hr').
    exists r', (out ++ out'), n'. rewrite Ek. cbn. rewrite app_assoc.
    repeat split; [now apply Forall_app | assumption].
  - exists (Raise e), out, n. auto.
Qed.

Lemma quiet_lift {A} (r : result A) : raises_Exception r -> quiet (lift r).
Proof.
  intros Hr [o i n]. exists r, [], n. cbn. rewrite app_nil_r. auto.
Qed.

Lemma quiet_on_net {A} (c : prog W A) :
  (forall n, raises_Exception (fst (c n))) -> quiet (on_net c).
Proof.
  intros Hc [o i n]. specialize (Hc n). unfold on_net. cbn.
  destruct (c n) as [r n']. exists r, [], n'. rewrite app_nil_r. auto.
Qed.

Lemma quiet_when_in (key : string) (dps : pyval) (body : pyval -> prog (state W) unit) :
  (forall v, quiet (body v)) -> quiet (when_in key dps body).
Proof.
  intros Hb. unfold when_in.
  apply quiet_bind; [apply quiet_lift, py_contains_Exception|].
  intros [|]; [|apply calm_quiet, calm_ret].
  apply quiet_bind; [apply quiet_lift, py_getitem_Exception | exact Hb].
Qed.

(** [try: c except Exception as e: h e] returns when [h] does. *)
Lemma calm_try {A} (c : prog (state W) A) (h : exn -> prog (state W) A) :
  quiet c -> (forall e, calm (h e)) -> calm (try_except c (except_Exception h)).
Proof.
  intros Hc Hh s. destruct (Hc s) as (r & out & n & Ec & Hout & Hr).
  unfold try_except. rewrite Ec. destruct r as [a|e].
  - exists a, out, n. auto.
  - cbn in Hr. unfold except_Exception. rewrite Hr.
    destruct (Hh e (State (stdout s ++ out) (stdin s) n)) as (a & out' & n' & Eh & Hout').
    exists a, (out ++ out'), n'. rewrite Eh. cbn. rewrite app_assoc.
    split; [reflexivity | now apply Forall_app].
Qed.

End Frame.

(** A library that raises nothing but [Exception]s. *)
Definition polite {W} (lib : tinytuya W) : Prop :=
  forall d n,
    raises_Exception (fst (status lib d n)) /\
    raises_Exception (fst (turn_on lib d n)) /\
    raises_Exception (fst (turn_off lib d n)).

Lemma polite_status {W} (P : line -> Prop) (lib : tinytuya W) (d : outlet) :
  polite lib -> quiet P (on_net (status lib d)).
Proof. intros H. apply quiet_on_net. intros n. apply (H d n). Qed.

Lemma polite_turn_on {W} (P : line -> Prop) (lib : tinytuya W) (d : outlet) :
  polite lib -> quiet P (on_net (turn_on lib d)).
Proof. intros H. apply quiet_on_net. intros n. apply (H d n). Qed.

Lemma polite_turn_off {W} (P : line -> Prop) (lib : tinytuya W) (d : outlet) :
  polite lib -> quiet P (on_net (turn_off lib d)).
Proof. intros H. apply quiet_on_net. intros n. apply (H d n). Qed.

Ltac frame :=
  repeat
    (cbv beta;
     first
       [ match goal with |- quiet _ (if ?b then _ else _) => destruct b end
       | match goal with |- calm _ (if ?b then _ else _) => destruct b end
       | apply calm_print
       | apply calm_ret
       | apply calm_time_sleep
       | apply calm_bind; [|intros ?]
       | apply calm_try; [|intros ?]
       | apply quiet_when_in; intros ?
       | apply quiet_lift
       | apply polite_status; assumption
       | apply polite_turn_on; assumption
       | apply polite_turn_off; assumption
       | apply quiet_bind; [|intros ?]
       | apply calm_quiet
       | apply py_contains_Exception
       | apply py_getitem_Exception
       | apply py_get_Exception
       | apply py_truediv_Exception
       | exact I
       | exact eq_refl ]).

(** *** The connection test (lines 29-116) *)

Definition not_switch (l : line) : Prop := is_switch_state l = false.

Section Connection.
Context {W : Type}.
Variable lib : tinytuya W.
Variable DEVICE_CONFIG : config.

Lemma dict_with_key_truthy (m : gmap string pyval) (k : string) (v : pyval) :
  m !! k = Some v -> truthy (VDict m) = true.
Proof.
  intros H. cbn. destruct (Nat.eqb_spec (size m) 0) as [E|]; [|reflexivity].
  apply map_size_empty_iff in E. subst m. now rewrite lookup_empty in H.
Qed.

Lemma quiet_bind_ok (P : line -> Prop) {A B} (a : A) (k : A -> prog (state W) B) :
  quiet P (k a) -> quiet P (bind (lift (Ok a)) k).
Proof. intros H s. exact (H s). Qed.

Lemma quiet_when_in_absent (P : line -> Prop) (key : string)
    (dps : gmap string pyval) (body : pyval -> prog (state W) unit) :
  dps !! key = None -> quiet P (when_in key (VDict dps) body).
Proof.
  intros H s. unfold when_in. cbn [py_contains]. rewrite H.
  exact (calm_quiet P _ (calm_ret P tt) s).
Qed.

(** Without data point "1", the parsing prints no switch-state line. *)
Lemma show_data_points_quiet (m dps : gmap string pyval) :
  m !! "dps" = Some (VDict dps) -> dps !! "1" = None ->
  quiet (W := W) not_switch (show_data_points (VDict m)).
Proof.
  intros Hm Hd. unfold show_data_points. cbn [py_contains py_getitem].
  rewrite Hm. do 2 apply quiet_bind_ok.
  apply quiet_bind; [frame|intros _].
  apply quiet_bind; [frame|intros _].
  apply quiet_bind; [now apply quiet_when_in_absent|intros _].
  frame.
Qed.

(** Data points as plugs report them: numbers.  An int must be below
    2^1023 in magnitude, or its quotient is no double. *)
Definition numeric (v : pyval) : Prop :=
  match v with
  | VBool _ | VFloat _ => True
  | VInt z => Zdigits2 z <= 1023
  | _ => False
  end.

Definition plain (l : line) : Prop :=
  match l with
  | SwitchState _ | ErrorLine _ => False
  | _ => True
  end.

Lemma py_truediv_numeric (v : pyval) (n : Z) :
  numeric v -> n <> 0 ->
  match float_of_Z n with S754_zero _ => False | _ => True end ->
  exists f, py_truediv v n = Ok f.
Proof.
  intros Hv Hn Hf. destruct v as [|b|z|f| | |]; try contradiction; cbn [py_truediv].
  - destruct (FloatFacts.int_truediv_total (if b then 1 else 0) n Hn) as (q & Hq & _);
      [destruct b; cbn; lia | eauto].
  - destruct (FloatFacts.int_truediv_total z n Hn Hv) as (q & Hq & _). eauto.
  - unfold float_truediv. destruct (float_of_Z n); try contradiction; eauto.
Qed.

Lemma calm_bind_ok (P : line -> Prop) {A B} (a : A) (k : A -> prog (state W) B) :
  calm P (k a) -> calm P (bind (lift (Ok a)) k).
Proof. intros H s. exact (H s). Qed.

Lemma calm_when_in_dict (P : line -> Prop) (key : string)
    (dps : gmap string pyval) (body : pyval -> prog (state W) unit) :
  (forall v, dps !! key = Some v -> calm P (body v)) ->
  calm P (when_in key (VDict dps) body).
Proof.
  intros Hb. unfold when_in. destruct (dps !! key) as [v|] eqn:Hk.
  - rewrite (contains_present dps key v Hk). apply calm_bind_ok.
    cbn [py_getitem]. rewrite Hk. apply calm_bind_ok. now apply Hb.
  - rewrite (contains_absent dps key Hk). apply calm_bind_ok. apply calm_ret.
Qed.

Lemma calm_truediv (P : line -> Prop) (v : pyval) (n : Z)
    (k : float -> prog (state W) unit) :
  numeric v -> n <> 0 ->
  match float_of_Z n with S754_zero _ => False | _ => True end ->
  (forall f, calm P (k f)) ->
  calm P (bind (lift (py_truediv v n)) k).
Proof.
  intros Hv Hn Hf Hk. destruct (py_truediv_numeric v n Hv Hn Hf) as (f & ->).
  apply calm_bind_ok, Hk.
Qed.

(** With numeric data points nothing is raised while parsing them. *)
Lemma show_data_points_calm (m dps : gmap string pyval) :
  m !! "dps" = Some (VDict dps) -> dps !! "1" = None ->
  (forall k v, dps !! k = Some v -> numeric v) ->
  calm (W := W) plain (show_data_points (VDict m)).
Proof.
  intros Hm Hd Hnum. unfold show_data_points.
  rewrite (contains_present m "dps" _ Hm). apply calm_bind_ok.
  cbn [py_getitem]. rewrite Hm. apply calm_bind_ok.
  assert (Hdiv : forall key v n (k : float -> prog (state W) unit),
             dps !! key = Some v -> n <> 0 ->
             match float_of_Z n with S754_zero _ => False | _ => True end ->
             (forall f, calm plain (k f)) ->
             calm plain (bind (lift (py_truediv v n)) k)).
  { intros key v n k Hk. apply calm_truediv. now apply (Hnum key). }
  apply calm_bind; [frame|intros _].
  apply calm_bind; [frame|intros _].
  apply calm_bind; [apply calm_when_in_dict; intros v Hv; congruence|intros _].
  apply calm_bind;
    [apply calm_when_in_dict; intros v Hv;
     apply (Hdiv "18" v); [assumption | lia | exact I | intros f; frame]|intros _].
  apply calm_bind;
    [apply calm_when_in_dict; intros v Hv;
     apply (Hdiv "19" v); [assumption | lia | exact I | intros f; frame]|intros _].
  apply calm_bind;
    [apply calm_when_in_dict; intros v Hv;
     apply (Hdiv "20" v); [assumption | lia | exact I | intros f; frame]|intros _].
  apply calm_bind;
    [apply calm_when_in_dict; intros v Hv;
     apply (Hdiv "101" v); [assumption | lia | exact I | intros f; frame]|intros _].
  apply calm_bind; [frame|intros _].
  apply calm_bind; [frame|intros _].
  destruct (dps !! "19") as [v19|] eqn:H19.
  2:{ rewrite (contains_absent dps "19" H19). do 2 apply calm_bind_ok. apply calm_ret. }
  rewrite (contains_present dps "19" v19 H19). apply calm_bind_ok.
  destruct (dps !! "101") as [v101|] eqn:H101.
  2:{ rewrite (contains_absent dps "101" H101). apply calm_bind_ok. apply calm_ret. }
  rewrite (contains_present dps "101" v101 H101). apply calm_bind_ok.
  cbn [py_getitem]. rewrite H19, H101. apply calm_bind_ok.
  apply (Hdiv "19" v19); [assumption | lia | exact I | intros power_w].
  apply calm_bind_ok.
  apply (Hdiv "101" v101); [assumption | lia | exact I | intros energy_kwh].
  frame.
Qed.

Lemma test_connection_no_switch (s : state W) (m dps : gmap string pyval) (n' : W) :
  status lib (set_socketTimeout (OutletDevice DEVICE_CONFIG) 5) (net s)
    = (Ok (VDict m), n') ->
  m !! "dps" = Some (VDict dps) ->
  dps !! "1" = None ->
  exists b out n'',
    test_connection lib DEVICE_CONFIG s
      = (Ok b, State (stdout s ++ out) (stdin s) n'') /\
    Forall (fun l => is_switch_state l = false) out.
Proof.
  intros Hst Hm Hd.
  unfold test_connection.
  cbv [bind print modify try_except on_net ret]. cbn [stdout stdin net].
  rewrite Hst. rewrite (dict_with_key_truthy m _ _ Hm). cbn [negb stdout stdin net].
  match goal with |- context [show_data_points (VDict m) ?S] =>
    destruct (show_data_points_quiet m dps Hm Hd S) as (r & out & n2 & E & Hout & Hr);
    rewrite E end.
  cbn [stdout stdin net] in *.
  destruct r as [[]|e].
  - eexists _, _, _. split; [rewrite <- !app_assoc; reflexivity|].
    repeat (apply Forall_app; split); try assumption; repeat constructor.
  - cbn in Hr. unfold except_Exception. rewrite Hr. cbn [stdout stdin net].
    eexists _, _, _. split; [rewrite <- !app_assoc; reflexivity|].
    repeat (apply Forall_app; split); try assumption; repeat constructor.
Qed.

Lemma test_connection_numeric (s : state W) (m dps : gmap string pyval) (n' : W) :
  status lib (set_socketTimeout (OutletDevice DEVICE_CONFIG) 5) (net s)
    = (Ok (VDict m), n') ->
  m !! "dps" = Some (VDict dps) ->
  dps !! "1" = None ->
  (forall k v, dps !! k = Some v -> numeric v) ->
  exists out n'',
    test_connection lib DEVICE_CONFIG s
      = (Ok true, State (stdout s ++ out) (stdin s) n'') /\
    Forall plain out.
Proof.
  intros Hst Hm Hd Hnum.
  unfold test_connection.
  cbv [bind print modify try_except on_net ret]. cbn [stdout stdin net].
  rewrite Hst. rewrite (dict_with_key_truthy m _ _ Hm). cbn [negb stdout stdin net].
  match goal with |- context [show_data_points (VDict m) ?S] =>
    destruct (show_data_points_calm m dps Hm Hd Hnum S) as ([] & out & n2 & E & Hout);
    rewrite E end.
  cbn [stdout stdin net] in *.
  eexists _, _. split; [rewrite <- !app_assoc; reflexivity|].
  repeat (apply Forall_app; split); try assumption; repeat constructor.
Qed.

(** C9.  When the device answers the status request with a payload whose
    data points lack the key "1", [test_connection] returns (it raises
    nothing, whatever the other data points hold) and none of the lines it
    prints is a switch-state line.  When the data points present are numbers,
    nothing is raised inside either: the test returns [True], and no error
    line is printed. *)
Theorem no_switch_state_line (s : state W) (m dps : gmap string pyval) (n' : W) :
  status lib (set_socketTimeout (OutletDevice DEVICE_CONFIG) 5) (net s)
    = (Ok (VDict m), n') ->
  m !! "dps" = Some (VDict dps) ->
  dps !! "1" = None ->
  (exists b out n'',
      test_connection lib DEVICE_CONFIG s
        = (Ok b, State (stdout s ++ out) (stdin s) n'') /\
      Forall (fun l => is_switch_state l = false) out) /\
  ((forall k v, dps !! k = Some v -> numeric v) ->
   exists out n'',
     test_connection lib DEVICE_CONFIG s
       = (Ok true, State (stdout s ++ out) (stdin s) n'') /\
     Forall plain out).
Proof.
  intros Hst Hm Hd. split.
  - exact (test_connection_no_switch s m dps n' Hst Hm Hd).
  - intros Hnum. exact (test_connection_numeric s m dps n' Hst Hm Hd Hnum).
Qed.

End Connection.

(** *** The script as a whole (lines 171-191) *)

(** What the script prints when it refuses to run. *)
Definition setup_message : list line :=
  [Text "❌ ERROR: Please edit this script and add your device info!";
   Text (newline +:+ "You need to set:");
   Text "  - dev_id (device ID from extraction)";
   Text "  - address (device IP address)";
   Text "  - local_key (local key from extraction)";
   Text ("  - version (usually 3.3)" +:+ newline)].

(** The first lines of the connection test. *)
Definition connection_banner (c : config) : list line :=
  [Text "╔════════════════════════════════════════════════════════════╗";
   Text "║         TUYA LOCAL CONTROL TEST                           ║";
   Text ("╚════════════════════════════════════════════════════════════╝" +:+ newline);
   TestingConnection (address c)].

(** The completion text. *)
Definition completion : list line :=
  [Text (newline +:+ rule); Text "Test complete!"; Text (rule +:+ newline)].

Definition any_line (l : line) : Prop := True.

Section Main.
Context {W : Type}.
Variable lib : tinytuya W.
Variable DEVICE_CONFIG : config.
Hypothesis lib_polite : polite lib.

Lemma test_connection_returns (s : state W) :
  exists b out n,
    test_connection lib DEVICE_CONFIG s
      = (Ok b, State (stdout s ++ connection_banner DEVICE_CONFIG ++ out) (stdin s) n).
Proof.
  unfold test_connection.
  match goal with |- context [try_except ?c ?h] => set (attempt := try_except c h) end.
  assert (Hc : calm any_line attempt) by (subst attempt; frame).
  cbv [bind print modify]. cbn [stdout stdin net].
  match goal with |- context [attempt ?S] =>
    destruct (Hc S) as (b & out & n & E & _); rewrite E end.
  cbn [stdout stdin net]. exists b, out, n.
  now rewrite <- !app_assoc.
Qed.

Lemma test_control_calm : calm any_line (test_control lib DEVICE_CONFIG).
Proof. unfold test_control, switch_of. frame. Qed.

End Main.

(** C8 as stated fails: with a device id filled in, the address, the local
    key and the version still at their placeholders, the script does not exit
    with code 1; it runs the connection test and ends with code 0. *)
Lemma other_placeholders_are_not_checked :
  let cfg := Config "bf1234567890abcdef" "192.168.1.XXX" "YOUR_LOCAL_KEY_HERE"
                    version_3_3 in
  address cfg = address PLACEHOLDER /\
  local_key cfg = local_key PLACEHOLDER /\
  version cfg = version PLACEHOLDER /\
  fst (fst (run (Sim.plug true) cfg ["n"] false)) = 0 /\
  In (TestingConnection "192.168.1.XXX") (snd (fst (run (Sim.plug true) cfg ["n"] false))).
Proof.
  cbv zeta. split; [reflexivity|]. split; [reflexivity|]. split; [reflexivity|]. split.
  - vm_compute. reflexivity.
  - vm_compute. do 3 right. left. reflexivity.
Qed.

(** A plug that does not report data point "1". *)
Lemma no_switch_state_line_witness :
  exists b out n,
    test_connection (Sim.plug false) PLACEHOLDER (State [] [] false)
      = (Ok b, State ([] ++ out) [] n) /\
    Forall (fun l => is_switch_state l = false) out.
Proof.
  refine (proj1 (no_switch_state_line (Sim.plug false) PLACEHOLDER (State [] [] false)
            {[ "dps" := VDict {[ "18" := VInt 120; "19" := VInt 250;
                                 "20" := VInt 1201 ]} ]}
            {[ "18" := VInt 120; "19" := VInt 250; "20" := VInt 1201 ]}
            false _ _ _)); vm_compute; reflexivity.
Defined.

(** *** The control test (lines 118-165) *)

(** The state of the switch a status payload is read for:
    [status['dps'].get('1', False)], when the payload is an object whose
    "dps" is an object. *)
Definition reread_switch (st : pyval) : option pyval :=
  match st with
  | VDict m =>
      match m !! "dps" with
      | Some (VDict d) => Some (default (VBool false) (d !! "1"))
      | _ => None
      end
  | _ => None
  end.

(** [v == b] in Python's terms, for a bool [b]: the bool itself; the int 1
    for [True] and 0 for [False]; a float of that value, which is [2^k * 2^-k]
    for 1.0, in any of its representations, and a zero of either sign for 0.0.
    Nothing else equals a bool. *)
Inductive equals : pyval -> bool -> Prop :=
| equals_bool (b : bool) : equals (VBool b) b
| equals_int (b : bool) : equals (VInt (if b then 1 else 0)) b
| equals_one (m : positive) (k : Z) :
    0 <= k -> Z.pos m = 2 ^ k -> equals (VFloat (S754_finite false m (- k))) true
| equals_zero (s : bool) : equals (VFloat (S754_zero s)) false.

Lemma py_eq_bool_equals (v : pyval) (b : bool) :
  py_eq_bool v b = true <-> equals v b.
Proof.
  split.
  - destruct v as [|b'|z|f| | |]; cbn [py_eq_bool]; try discriminate.
    + intros H. apply Bool.eqb_prop in H. subst. constructor.
    + intros H. apply Z.eqb_eq in H. subst. constructor.
    + destruct f as [s| | |s m e]; cbn [float_eq_Z]; try discriminate.
      * destruct b; [discriminate | constructor].
      * destruct (Z.leb_spec 0 e) as [He|He]; intros H; apply Z.eqb_eq in H.
        -- assert (Hp : 0 < 2 ^ e) by (apply Z.pow_pos_nonneg; lia).
           destruct b; destruct s; try nia.
           assert (e = 0).
           { destruct (Z.eq_dec e 0) as [|Hne]; [assumption|].
             assert (2 <= 2 ^ e) by (apply (Z.pow_le_mono_r 2 1 e); lia). nia. }
           subst e. apply (equals_one m 0); [lia | cbn in *; lia].
        -- assert (Hp : 0 < 2 ^ (- e)) by (apply Z.pow_pos_nonneg; lia).
           destruct b; destruct s; try lia.
           replace e with (- (- e)) by lia. apply equals_one; lia.
  - intros H. destruct H as [b|b|m k Hk Hm|s]; cbn [py_eq_bool float_eq_Z].
    + now destruct b.
    + apply Z.eqb_refl.
    + destruct (Z.leb_spec 0 (- k)) as [He|He]; apply Z.eqb_eq.
      * replace k with 0 in * by lia. cbn in *. lia.
      * rewrite Z.opp_involutive. lia.
    + reflexivity.
Qed.

Definition control_banner : list line :=
  [Text (newline +:+ rule); Text "TESTING DEVICE CONTROL"; Text (rule +:+ newline);
   Text "Attempting to toggle device..."].

(** [reread_switch] is what the second half of [test_control] computes. *)
Lemma reread_switch_spec (st v : pyval) :
  reread_switch st = Some v <->
  truthy st = true /\ py_contains "dps" st = Ok true /\
  exists d, py_getitem st "dps" = Ok d /\ py_get d "1" (VBool false) = Ok v.
Proof.
  split.
  - destruct st as [| | | | | |m]; try discriminate. cbn [reread_switch].
    destruct (m !! "dps") as [d|] eqn:Hd; [|discriminate].
    destruct d as [| | | | | |dd]; try discriminate. intros [= <-].
    split; [now apply (dict_with_key_truthy m "dps" (VDict dd))|].
    split; [now apply (contains_present m "dps" (VDict dd))|].
    exists (VDict dd). cbn. now rewrite Hd.
  - intros (_ & _ & d & Hg & Hv).
    destruct st as [| | | | | |m]; try discriminate. cbn in Hg |- *.
    destruct (m !! "dps") as [d'|]; [|discriminate]. injection Hg as ->.
    destruct d; try discriminate. now injection Hv as <-.
Qed.

Section Control.
Context {W : Type}.
Variable lib : tinytuya W.
Variable DEVICE_CONFIG : config.

(** C10.  When the first status payload has data points without the key
    "1", [test_control] takes the switch to be off: it prints the state OFF,
    announces ON and sends [turn_on] (the network goes through [turn_on], never
    through [turn_off]).  It then reports success exactly when the command
    and the second status request both return and the re-read state of key
    "1", off when the key is absent, equals [True] as Python has it: it is
    [True], the int 1 or the float 1.0. *)
Theorem toggle_without_switch_point (s : state W) (m dps : gmap string pyval)
    (n1 n2 n3 : W) (ron r2 : result pyval) :
  let device := OutletDevice DEVICE_CONFIG in
  status lib device (net s) = (Ok (VDict m), n1) ->
  m !! "dps" = Some (VDict dps) ->
  dps !! "1" = None ->
  turn_on lib device n1 = (ron, n2) ->
  status lib device (sleep lib 2 n2) = (r2, n3) ->
  exists r report,
    test_control lib DEVICE_CONFIG s
      = (r,
         State (stdout s ++ control_banner ++
                [CurrentState false; Turning true] ++ report)
               (stdin s)
               (match ron with Ok _ => n3 | Raise _ => n2 end)) /\
    (In (SuccessfullyTurned true) report <->
     exists x st2 v,
       ron = Ok x /\ r2 = Ok st2 /\
       reread_switch st2 = Some v /\ equals v true) /\
    ~ In (SuccessfullyTurned false) report /\
    (raises_Exception ron -> raises_Exception r2 -> r = Ok tt).
Proof.
  intros device Hst Hm Hd Hon Hst2.
  unfold test_control. fold device.
  cbv [bind print modify try_except on_net ret time_sleep switch_of lift].
  cbn [stdout stdin net].
  rewrite Hst. rewrite (dict_with_key_truthy m _ _ Hm). cbn [negb].
  rewrite (contains_present m _ _ Hm). cbn [negb py_getitem].
  rewrite Hm. cbn [py_get]. rewrite Hd. cbn [default truthy negb id stdout stdin net].
  rewrite Hon.
  assert (Hno : forall (rep : list line),
             (forall l, In l rep ->
                        l = StateMayNotHaveChanged \/ exists msg, l = ControlError msg) ->
             ~ In (SuccessfullyTurned true) rep /\ ~ In (SuccessfullyTurned false) rep).
  { intros rep Hrep. split; intros Hin; destruct (Hrep _ Hin) as [|[? ?]]; discriminate. }
  assert (Herr : forall e, forall l, In l [ControlError (exn_str e)] ->
             l = StateMayNotHaveChanged \/ exists msg, l = ControlError msg).
  { intros e l [<-|[]]. right. eauto. }
  assert (Hnil : forall l, In l (@nil line) ->
             l = StateMayNotHaveChanged \/ exists msg, l = ControlError msg).
  { intros l []. }
  destruct ron as [x|e].
  2:{ unfold except_Exception.
      destruct (is_Exception (exn_cls e)) eqn:Ee; cbn [stdout stdin net].
      - exists (Ok tt), [ControlError (exn_str e)].
        split; [unfold control_banner; rewrite <- !app_assoc; reflexivity|].
        destruct (Hno _ (Herr e)) as [Ht Hf].
        split; [split; [tauto | intros (? & ? & ? & [=] & _)] |]. split; auto.
      - exists (Raise e), [].
        split; [unfold control_banner; rewrite <- !app_assoc; reflexivity|].
        split; [split; [intros [] | intros (? & ? & ? & [=] & _)] |].
        split; [intros [] | cbn; congruence]. }
  cbn [stdout stdin net]. rewrite Hst2.
  destruct r2 as [st2|e].
  2:{ unfold except_Exception.
      destruct (is_Exception (exn_cls e)) eqn:Ee; cbn [stdout stdin net].
      - exists (Ok tt), [ControlError (exn_str e)].
        split; [unfold control_banner; rewrite <- !app_assoc; reflexivity|].
        destruct (Hno _ (Herr e)) as [Ht Hf].
        split; [split; [tauto | intros (? & ? & ? & _ & [=] & _)] |]. split; auto.
      - exists (Raise e), [].
        split; [unfold control_banner; rewrite <- !app_assoc; reflexivity|].
        split; [split; [intros [] | intros (? & ? & ? & _ & [=] & _)] |].
        split; [intros [] | cbn; congruence]. }
  assert (Hspec := reread_switch_spec st2).
  pose proof (py_contains_Exception "dps" st2) as Xc.
  pose proof (py_getitem_Exception st2 "dps") as Xg.
  destruct (truthy st2) eqn:Ht.
  2:{ cbn [stdout stdin net]. exists (Ok tt), [].
      split; [unfold control_banner; rewrite <- !app_assoc; reflexivity|].
      split; [split; [intros [] | intros (? & ? & v & _ & [= <-] & Hr & _)] |].
      - apply Hspec in Hr as (Hr & _). congruence.
      - split; [intros [] | auto]. }
  destruct (py_contains "dps" st2) as [[|]|e] eqn:Hc.
  3:{ cbn in Xc. unfold except_Exception. rewrite Xc. cbn [stdout stdin net].
      exists (Ok tt), [ControlError (exn_str e)].
      split; [unfold control_banner; rewrite <- !app_assoc; reflexivity|].
      destruct (Hno _ (Herr e)) as [Hn Hf].
      split; [split; [tauto | intros (? & ? & v & _ & [= <-] & Hr & _)] |].
      - apply Hspec in Hr as (_ & Hr & _). congruence.
      - split; auto. }
  2:{ cbn [stdout stdin net]. exists (Ok tt), [].
      split; [unfold control_banner; rewrite <- !app_assoc; reflexivity|].
      split; [split; [intros [] | intros (? & ? & v & _ & [= <-] & Hr & _)] |].
      - apply Hspec in Hr as (_ & Hr & _). congruence.
      - split; [intros [] | auto]. }
  destruct (py_getitem st2 "dps") as [d|e] eqn:Hg.
  2:{ cbn in Xg. unfold except_Exception. rewrite Xg. cbn [stdout stdin net].
      exists (Ok tt), [ControlError (exn_str e)].
      split; [unfold control_banner; rewrite <- !app_assoc; reflexivity|].
      destruct (Hno _ (Herr e)) as [Hn Hf].
      split; [split; [tauto | intros (? & ? & v & _ & [= <-] & Hr & _)] |].
      - apply Hspec in Hr as (_ & _ & d' & Hr & _). congruence.
      - split; auto. }
  pose proof (py_get_Exception d "1" (VBool false)) as Xp.
  destruct (py_get d "1" (VBool false)) as [v|e] eqn:Hp.
  2:{ cbn in Xp. unfold except_Exception. rewrite Xp. cbn [stdout stdin net].
      exists (Ok tt), [ControlError (exn_str e)].
      split; [unfold control_banner; rewrite <- !app_assoc; reflexivity|].
      destruct (Hno _ (Herr e)) as [Hn Hf].
      split; [split; [tauto | intros (? & ? & v & _ & [= <-] & Hr & _)] |].
      - apply Hspec in Hr as (_ & _ & d' & Hr & Hr'). congruence.
      - split; auto. }
  destruct (py_eq_bool v true) eqn:Hb; cbn [stdout stdin net].
  - exists (Ok tt), [SuccessfullyTurned true].
    split; [unfold control_banner; rewrite <- !app_assoc; reflexivity|].
    split; [split |].
    + intros _. exists x, st2, v.
      split; [reflexivity|]. split; [reflexivity|].
      split; [|now apply py_eq_bool_equals].
      apply Hspec. split; [reflexivity|]. split; [reflexivity|].
      exists d. split; [reflexivity | exact Hp].
    + intros _. now left.
    + split; [intros [[=]|[]] | auto].
  - exists (Ok tt), [StateMayNotHaveChanged].
    split; [unfold control_banner; rewrite <- !app_assoc; reflexivity|].
    destruct (Hno [StateMayNotHaveChanged]) as [Hn Hf].
    { intros l [<-|[]]. now left. }
    split; [split; [tauto | intros (? & ? & v' & _ & [= <-] & Hr & Hv)] |].
    + apply py_eq_bool_equals in Hv.
      apply Hspec in Hr as (_ & _ & d' & Hr & Hr'). congruence.
    + split; auto.
Qed.

End Control.

(** A plug that reports no data point "1" while off and the number 1.0
    once on: the toggle sends [turn_on] and the re-read state equals [True]. *)
Lemma toggle_without_switch_point_witness :
  exists r report,
    test_control Sim.numeric_plug PLACEHOLDER (State [] [] false)
      = (r, State ([] ++ control_banner ++
                   [CurrentState false; Turning true] ++ report) [] true) /\
    (In (SuccessfullyTurned true) report <->
     exists x st2 v,
       Ok VNone = Ok x /\ Ok (Sim.numeric_status true) = Ok st2 /\
       reread_switch st2 = Some v /\ equals v true) /\
    ~ In (SuccessfullyTurned false) report /\
    (raises_Exception (Ok VNone) ->
     raises_Exception (Ok (Sim.numeric_status true)) -> r = Ok tt).
Proof.
  refine (toggle_without_switch_point Sim.numeric_plug PLACEHOLDER (State [] [] false)
            {[ "dps" := VDict {[ "18" := VInt 120 ]} ]}
            {[ "18" := VInt 120 ]}
            false true true (Ok VNone) (Ok (Sim.numeric_status true))
            _ _ _ _ _); vm_compute; reflexivity.
Defined.

(** The run itself: the success line is printed for the reading 1.0. *)
Lemma toggle_reads_a_number :
  test_control Sim.numeric_plug PLACEHOLDER (State [] [] false)
    = (Ok tt,
       State (control_banner ++
              [CurrentState false; Turning true; SuccessfullyTurned true]) [] true).
Proof. vm_compute. reflexivity. Qed.

End TuyaFacts.

(** ** Binary64 arithmetic, from below

    Rounding to nearest never takes a value below a number that 53 bits
    hold: the quotient of an int by a smaller positive int is at least 1.0,
    and 100 times a float that is at least 1.0 is at least 100.0. *)

Module FloatOrder.
Import Py FloatFacts.

(** [t <= m * 2^e], in integers. *)
Definition val_ge (t m e : Z) : Prop :=
  if 0 <=? e then t <= m * 2 ^ e else t * 2 ^ (- e) <= m.

(** A positive float (or +infinity) that is at least the integer [t]. *)
Definition at_least (t : Z) (x : spec_float) : Prop :=
  match x with
  | S754_finite false m e => val_ge t (Z.pos m) e
  | S754_infinity false => True
  | _ => False
  end.

Lemma Zdigits2_ge (x d : Z) : 0 <= d -> 2 ^ d <= x -> d + 1 <= Zdigits2 x.
Proof.
  intros Hd Hx.
  assert (0 < 2 ^ d) by (apply Z.pow_pos_nonneg; lia).
  pose proof (Zdigits2_gt x ltac:(lia)) as Hlt.
  pose proof (Zdigits2_nonneg x) as Hn.
  destruct (Z_lt_le_dec (Zdigits2 x) (d + 1)) as [Hc|]; [exfalso|assumption].
  assert (2 ^ Zdigits2 x <= 2 ^ d) by (apply Z.pow_le_mono_r; lia). lia.
Qed.

Lemma Zdigits2_lower (x : Z) : 0 < x -> 2 ^ (Zdigits2 x - 1) <= x.
Proof.
  destruct x as [|p|p]; try lia. intros _. apply digits2_pos_bounds.
Qed.

Lemma val_ge_digits (t m e : Z) :
  1 <= t -> 0 < m -> val_ge t m e -> 1 <= Zdigits2 m + e.
Proof.
  intros Ht Hm. unfold val_ge. destruct (Z.leb_spec 0 e) as [He|He]; intros H.
  - pose proof (Zdigits2_ge m 0 ltac:(lia) ltac:(cbn; lia)). lia.
  - assert (2 ^ (- e) <= m).
    { assert (0 < 2 ^ (- e)) by (apply Z.pow_pos_nonneg; lia). nia. }
    pose proof (Zdigits2_ge m (- e) ltac:(lia) ltac:(assumption)). lia.
Qed.

(** The exact shape of [shr_fexp]. *)
Lemma shr_fexp_exact (m e : Z) (l : location) :
  0 <= m ->
  let n := Z.max (Zdigits2 m + e - 53) (-1074) - e in
  shr_m (fst (shr_fexp prec emax m e l)) = (if 0 <? n then m / 2 ^ n else m) /\
  snd (shr_fexp prec emax m e l) = (if 0 <? n then e + n else e).
Proof.
  intros Hm n. unfold shr_fexp, shr. rewrite fexp_eq. fold n.
  destruct n as [|p|p] eqn:Hn; cbn [fst snd Z.ltb Z.compare];
    rewrite ?shr_record_of_loc_m; try (split; reflexivity).
  rewrite iter_shr_1_m by (rewrite shr_record_of_loc_m; assumption).
  rewrite shr_record_of_loc_m. split; reflexivity.
Qed.

(** One shift of [shr_fexp] keeps a lower bound that fits in 53 bits. *)
Lemma shr_fexp_val_ge (t m e : Z) (l : location) :
  1 <= t < 2 ^ 53 -> 0 < m -> val_ge t m e ->
  0 < shr_m (fst (shr_fexp prec emax m e l)) /\
  val_ge t (shr_m (fst (shr_fexp prec emax m e l))) (snd (shr_fexp prec emax m e l)).
Proof.
  intros Ht Hm Hv.
  pose proof (val_ge_digits t m e ltac:(lia) Hm Hv) as Hd.
  destruct (shr_fexp_exact m e l ltac:(lia)) as [E1 E2]. rewrite E1, E2. clear E1 E2.
  replace (Z.max (Zdigits2 m + e - 53) (-1074) - e) with (Zdigits2 m - 53) by lia.
  destruct (Z.ltb_spec 0 (Zdigits2 m - 53)) as [Hn|Hn]; [|split; assumption].
  set (n := Zdigits2 m - 53) in *.
  assert (Hp : 0 < 2 ^ n) by (apply Z.pow_pos_nonneg; lia).
  pose proof (Zdigits2_lower m Hm) as Hlow.
  assert (Hq : 2 ^ 52 <= m / 2 ^ n).
  { apply Z.div_le_lower_bound; [lia|].
    rewrite <- Z.pow_add_r by lia. now replace (n + 52) with (Zdigits2 m - 1) by lia. }
  split; [lia|].
  unfold val_ge in Hv |- *.
  destruct (Z.leb_spec 0 (e + n)) as [He|He].
  - destruct (Z.eq_dec (e + n) 0) as [E0|E0].
    + rewrite E0, Z.pow_0_r, Z.mul_1_r.
      destruct (Z.leb_spec 0 e) as [He0|He0]; [lia|].
      apply Z.div_le_lower_bound; [lia|].
      replace (- e) with n in Hv by lia. lia.
    + assert (2 ^ 1 <= 2 ^ (e + n)) by (apply Z.pow_le_mono_r; lia).
      change (2 ^ 1) with 2 in *. change (2 ^ 53) with (2 * 2 ^ 52) in Ht.
      assert (0 < 2 ^ 52) by lia. nia.
  - destruct (Z.leb_spec 0 e) as [He0|He0]; [lia|].
    apply Z.div_le_lower_bound; [lia|].
    replace (- e) with (n + - (e + n)) in Hv by lia.
    rewrite Z.pow_add_r in Hv by lia. lia.
Qed.

Lemma val_ge_mono (t m m' e : Z) : m <= m' -> val_ge t m e -> val_ge t m' e.
Proof.
  unfold val_ge. intros Hm. destruct (0 <=? e); [|lia].
  assert (0 <= 2 ^ e) by (apply Z.pow_nonneg; lia). nia.
Qed.

(** Rounding to nearest does not go below a representable number. *)
Lemma binary_round_aux_at_least (t mx ex : Z) (lx : location) :
  1 <= t < 2 ^ 53 -> 0 < mx -> val_ge t mx ex ->
  at_least t (binary_round_aux prec emax false mx ex lx).
Proof.
  intros Ht Hm Hv. unfold binary_round_aux.
  destruct (shr_fexp_val_ge t mx ex lx Ht Hm Hv) as [H1 H2].
  destruct (shr_fexp prec emax mx ex lx) as [mrs' e']. cbn [fst snd] in *.
  pose proof (round_nearest_even_bounds (shr_m mrs') (loc_of_shr_record mrs')) as Hr.
  set (m1 := round_nearest_even (shr_m mrs') (loc_of_shr_record mrs')) in *.
  assert (Hv1 : val_ge t m1 e') by (apply (val_ge_mono t (shr_m mrs')); [lia | assumption]).
  destruct (shr_fexp_val_ge t m1 e' loc_Exact Ht ltac:(lia) Hv1) as [H3 H4].
  destruct (shr_fexp prec emax m1 e' loc_Exact) as [mrs'' e'']. cbn [fst snd] in *.
  destruct (shr_m mrs'') as [|m|m]; [lia| |lia].
  destruct (e'' <=? emax - prec); [exact H4 | exact I].
Qed.

(** Dividing an int by a smaller positive int gives at least 1.0. *)
Lemma SFdiv_at_least_1 (a b : Z) :
  0 < b <= a -> at_least 1 (SFdiv prec emax (Z2SF a) (Z2SF b)).
Proof.
  intros [Hb Ha].
  destruct a as [|pa|pa]; [lia| |lia]. destruct b as [|pb|pb]; [lia| |lia].
  cbn [Z2SF]. unfold SFdiv, SFdiv_core_binary. cbn [xorb].
  change (Zdigits2 (Z.pos pa)) with (Z.pos (digits2_pos pa)).
  change (Zdigits2 (Z.pos pb)) with (Z.pos (digits2_pos pb)).
  set (da := Z.pos (digits2_pos pa)). set (db := Z.pos (digits2_pos pb)).
  change (IntDef.Z.min ?x ?y) with (Z.min x y). rewrite fexp_eq.
  set (e' := Z.min (Z.max (da + 0 - (db + 0) - 53) (-1074)) (0 - 0)).
  assert (He' : e' <= 0) by (subst e'; lia).
  set (m' := match 0 - 0 - e' with
             | 0 => Z.pos pa
             | Z.pos _ => IntDef.Z.shiftl (Z.pos pa) (0 - 0 - e')
             | Z.neg _ => 0
             end).
  assert (Hm' : m' = Z.pos pa * 2 ^ (- e')).
  { subst m'. replace (0 - 0 - e') with (- e') by lia.
    destruct (- e') as [|p|p] eqn:Hs; [lia| |lia].
    change (IntDef.Z.shiftl ?x ?y) with (Z.shiftl x y).
    now rewrite Z.shiftl_mul_pow2 by lia. }
  change (IntDef.Z.div_eucl ?x ?y) with (Z.div_eucl x y).
  pose proof (Z_div_mod m' (Z.pos pb) ltac:(lia)) as Hdiv.
  destruct (Z.div_eucl m' (Z.pos pb)) as [q r]. destruct Hdiv as [Hq Hr].
  assert (Hp : 0 < 2 ^ (- e')) by (apply Z.pow_pos_nonneg; lia).
  assert (Hge : 2 ^ (- e') <= q) by nia.
  apply binary_round_aux_at_least; [change (2 ^ 53) with 9007199254740992; lia | lia |].
  unfold val_ge. destruct (Z.leb_spec 0 e'); [|lia].
  replace e' with 0 in * by lia. cbn in Hge |- *. lia.
Qed.

(** Multiplying a float that is at least 1.0 by 100.0 gives at least 100.0. *)
Lemma SFmul_100_at_least (q : spec_float) :
  at_least 1 q -> at_least 100 (SFmul prec emax q (float_of_Z 100)).
Proof.
  replace (float_of_Z 100) with (S754_finite false 7036874417766400 (-46))
    by (vm_compute; reflexivity).
  destruct q as [s|[]| |[] m e]; try contradiction; cbn [at_least SFmul xorb];
    [exact (fun _ => I)|].
  intros Hv. apply binary_round_aux_at_least; [change (2 ^ 53) with 9007199254740992; lia | lia |].
  rewrite Pos2Z.inj_mul.
  change (Z.pos 7036874417766400) with (100 * 2 ^ 46).
  unfold val_ge in Hv |- *.
  destruct (Z.leb_spec 0 e) as [He|He].
  - assert (1 <= 2 ^ e) by (apply (Z.pow_le_mono_r 2 0); lia).
    destruct (Z.leb_spec 0 (e + -46)) as [He2|He2].
    + assert (1 <= 2 ^ (e + -46)) by (apply (Z.pow_le_mono_r 2 0); lia).
      assert (0 < 2 ^ 46) by lia. nia.
    + assert (2 ^ (- (e + -46)) <= 2 ^ 46) by (apply Z.pow_le_mono_r; lia).
      nia.
  - destruct (Z.leb_spec 0 (e + -46)) as [He2|He2]; [lia|].
    replace (- (e + -46)) with (- e + 46) by lia.
    rewrite Z.pow_add_r by lia.
    assert (0 < 2 ^ 46) by lia. nia.
Qed.

Lemma float_to_int_at_least (t : Z) (x : spec_float) (n : Z) :
  0 <= t -> at_least t x -> float_to_int x = Ok n -> t <= n.
Proof.
  intros Ht. destruct x as [s|[]| |[] m e]; try contradiction; cbn [at_least float_to_int];
    try discriminate.
  unfold val_ge. destruct (Z.leb_spec 0 e) as [He|He]; intros Hv [= <-]; [exact Hv|].
  apply Z.div_le_lower_bound; [apply Z.pow_pos_nonneg; lia | lia].
Qed.

End FloatOrder.

(** ** The percentage at the two ends of the scale (lines 256-260, 369-374) *)

Module PercentFacts.
Import Py PyFacts Audible FloatFacts FloatOrder.

(** The two floats behind a percentage, for a positive runtime and a
    position that is not astronomical. *)
Lemma percent_complete_floats (position_sec runtime_min : Z) :
  0 < runtime_min -> 0 <= position_sec < 2 ^ 1015 ->
  exists q n,
    q = SFdiv prec emax (Z2SF position_sec) (Z2SF (runtime_min * 60)) /\
    float_to_int (float_mul q (float_of_Z 100)) = Ok n /\ 0 <= n /\
    percent_complete position_sec runtime_min = Ok (Z.min 100 n).
Proof.
  intros Hm [Hp0 Hp]. unfold percent_complete.
  destruct (Z.gtb_spec runtime_min 0) as [_|]; [|lia].
  assert (Hd : Zdigits2 position_sec <= 1015) by (apply Zdigits2_le; lia).
  destruct (int_truediv_total position_sec (runtime_min * 60)) as (q & Hq & Hb);
    [lia | lia |].
  rewrite Hq. cbn [rbind].
  replace (position_sec <? 0) with false in Hb by (symmetry; apply Z.ltb_ge; lia).
  replace (runtime_min * 60 <? 0) with false in Hb by (symmetry; apply Z.ltb_ge; lia).
  pose proof (SFmul_bounded false false _ _ q (float_of_Z 100) Hb AudibleFacts.float_100_bounded
                ltac:(lia)) as Hmul.
  specialize (Hmul ltac:(vm_compute; discriminate)).
  destruct (float_to_int_nonneg _ _ Hmul) as (n & Hn & Hn0).
  fold (float_mul q (float_of_Z 100)) in Hn.
  exists q, n. rewrite Hn. cbn [rbind]. repeat split; try assumption.
  unfold int_truediv in Hq. destruct (_ =? 0); [discriminate|].
  destruct (SFdiv _ _ _ _); now inversion Hq.
Qed.

(** The percentage is defined and within [0, 100] for a position that is
    not negative. *)
Lemma percent_complete_defined (position_sec runtime_min : Z) :
  0 <= position_sec < 2 ^ 1015 ->
  exists n, percent_complete position_sec runtime_min = Ok n /\ 0 <= n <= 100.
Proof.
  intros Hp. destruct (Z_lt_le_dec 0 runtime_min) as [Hm|Hm].
  - destruct (percent_complete_floats _ _ Hm Hp) as (q & n & _ & _ & Hn & ->).
    eexists. split; [reflexivity | lia].
  - exists 0. split; [|lia]. unfold percent_complete.
    now destruct (Z.gtb_spec runtime_min 0); [lia|].
Qed.

(** A position at or past the end of the runtime gives 100. *)
Lemma percent_complete_full (position_sec runtime_min : Z) :
  0 < runtime_min -> runtime_min * 60 <= position_sec < 2 ^ 1015 ->
  percent_complete position_sec runtime_min = Ok 100.
Proof.
  intros Hm Hp.
  destruct (percent_complete_floats position_sec runtime_min Hm ltac:(lia))
    as (q & n & Hq & Hn & _ & ->).
  assert (Hq1 : at_least 1 q) by (subst q; apply SFdiv_at_least_1; lia).
  pose proof (float_to_int_at_least 100 _ n ltac:(lia) (SFmul_100_at_least q Hq1) Hn).
  f_equal. lia.
Qed.

(** X13.  The two ends of the scale, for every positive runtime: a position
    of 0 seconds gives 0 percent, and a position at or past the end of the
    runtime (and below 2^1015 seconds) gives exactly 100 percent.  The
    quotient is then at least 1.0, its product with 100.0 is at least 100.0
    (rounding does not go below a representable number), the truncation is at
    least 100, and [min] clamps it. *)
Theorem percent_complete_ends (position_sec runtime_min : Z) :
  0 < runtime_min -> runtime_min * 60 <= position_sec < 2 ^ 1015 ->
  percent_complete 0 runtime_min = Ok 0 /\
  percent_complete position_sec runtime_min = Ok 100.
Proof.
  intros Hm Hp. split; [|now apply percent_complete_full].
  unfold percent_complete. destruct (runtime_min >? 0); [|reflexivity].
  unfold int_truediv. destruct (Z.eqb_spec (runtime_min * 60) 0) as [|_]; [lia|].
  assert (Hb : runtime_min * 60 <> 0) by lia.
  destruct (runtime_min * 60) as [|p|p]; [congruence | reflexivity | reflexivity].
Qed.

(** A book of 600 minutes, not begun and heard to its last second. *)
Lemma percent_complete_ends_witness :
  percent_complete 0 600 = Ok 0 /\ percent_complete 36000 600 = Ok 100.
Proof.
  apply (percent_complete_ends 36000 600); [lia | split; [lia | reflexivity]].
Defined.

End PercentFacts.

(** ** Programs as equations *)

Module ProgFacts.
Import Py.

Lemma bind_lift_Ok {S A B} (a : A) (k : A -> prog S B) : bind (lift (Ok a)) k = k a.
Proof. reflexivity. Qed.

End ProgFacts.

(** ** The service: every route, whatever the request *)

Module ServiceFacts.
Import Py PyFacts Audible AudibleFacts.
Local Open Scope py_scope.
Local Open Scope list_scope.

Definition anything {A} (a : A) : Prop := True.

(** *** What a route touches

    [emits P c]: whatever the state, [c] adds to the trace only events that
    satisfy [P]. *)

Section Emits.
Variable P : event -> Prop.

Definition emits {A} (c : prog state A) : Prop :=
  forall s, exists r out n, c s = (r, State (trace s ++ out) n) /\ Forall P out.

Lemma emits_ret {A} (a : A) : emits (ret a).
Proof. intros [t n]. exists (Ok a), [], n. cbn. rewrite app_nil_r. auto. Qed.

Lemma emits_lift {A} (r : result A) : emits (lift r).
Proof. intros [t n]. exists r, [], n. cbn. rewrite app_nil_r. auto. Qed.

Lemma emits_raise {A} (e : exn) : emits (raise (A := A) e).
Proof. intros [t n]. exists (Raise e), [], n. cbn. rewrite app_nil_r. auto. Qed.

Lemma emits_next_read : emits next_read.
Proof. intros [t n]. exists (Ok n), [], (S n). cbn. rewrite app_nil_r. auto. Qed.

Lemma emits_emit (e : event) : P e -> emits (emit e).
Proof. intros He [t n]. exists (Ok tt), [e], n. cbn. auto. Qed.

Lemma emits_bind {A B} (c : prog state A) (k : A -> prog state B) :
  emits c -> (forall a, emits (k a)) -> emits (bind c k).
Proof.
  intros Hc Hk s. destruct (Hc s) as (r & out & n & Ec & Hout).
  unfold bind. rewrite Ec. destruct r as [a|e].
  - destruct (Hk a (State (trace s ++ out) n)) as (r' & out' & n' & Ek & Hout').
    exists r', (out ++ out'), n'. rewrite Ek. cbn. rewrite app_assoc.
    split; [reflexivity | now apply Forall_app].
  - exists (Raise e), out, n. auto.
Qed.

Lemma emits_call {A} (e : event) (answer : result A) : P e -> emits (call e answer).
Proof.
  intros He. unfold call. apply emits_bind; [now apply emits_emit|].
  intros _. apply emits_lift.
Qed.

Lemma emits_try {A} (c : prog state A) (h : exn -> option (prog state A)) :
  emits c -> (forall e k, h e = Some k -> emits k) -> emits (try_except c h).
Proof.
  intros Hc Hh s. destruct (Hc s) as (r & out & n & Ec & Hout).
  unfold try_except. rewrite Ec. destruct r as [a|e].
  - exists (Ok a), out, n. auto.
  - destruct (h e) as [k|] eqn:Ek.
    + destruct (Hh e k Ek (State (trace s ++ out) n)) as (r' & out' & n' & Eh & Hout').
      exists r', (out ++ out'), n'. rewrite Eh. cbn. rewrite app_assoc.
      split; [reflexivity | now apply Forall_app].
    + exists (Raise e), out, n. auto.
Qed.

End Emits.

Ltac emitting :=
  repeat
    (cbv beta;
     first
       [ match goal with |- emits _ (if ?b then _ else _) => destruct b end
       | match goal with |- emits _ (match ?x with _ => _ end) => destruct x end
       | apply emits_ret
       | apply emits_lift
       | apply emits_raise
       | apply emits_next_read
       | apply emits_emit; reflexivity
       | apply emits_call; reflexivity
       | apply emits_bind; [|intros ?] ]).

(** The uses of the cipher and the calls into the library open to each
    route; /health has none. *)
Definition allowed (ep : endpoint) (e : event) : bool :=
  match ep, e with
  | ApiAuth, (CallLocale _ | CallFromLogin _ _ | Encrypt _) => true
  | (ApiLibrary | ApiProgress _),
    (Decrypt _ | CallLocale _ | CallFromLoginExternal _ _ | CallClientGet _) => true
  | ApiRefreshToken,
    (Decrypt _ | CallLocale _ | CallFromLoginExternal _ _ | CallRefreshAccessToken
     | Encrypt _) => true
  | _, _ => false
  end.

Section Capabilities.
Variable API_SECRET : string.
Variable cipher_suite : Fernet.suite.
Variable audible : upstream.
Variable w : world.

Lemma emits_handlers (P : event -> Prop) (prefix : string) (e : exn)
    (k : prog state response) :
  token_handlers audible prefix e = Some k -> emits P k.
Proof.
  unfold token_handlers, after_clause, except_Exception, generic_error.
  destruct (exn_cls e); cbn; try destruct (defines audible _); cbn;
    intros [= <-]; first [apply emits_ret | apply emits_raise].
Qed.

Lemma emits_login_handlers (P : event -> Prop) (e : exn) (k : prog state response) :
  login_handlers audible e = Some k -> emits P k.
Proof.
  unfold login_handlers, after_clause, except_Exception, generic_error.
  destruct (exn_cls e); cbn; try destruct (defines audible _); cbn;
    intros [= <-]; first [apply emits_ret | apply emits_raise].
Qed.

Lemma serve_emits (ep : endpoint) (req : request) :
  emits (fun e => allowed ep e = true)
        (serve API_SECRET cipher_suite audible w ep req).
Proof.
  destruct ep; cbn [serve].
  - unfold health_check. emitting.
  - unfold authenticate. apply emits_try; [|apply emits_login_handlers].
    unfold utcnow_plus_1h, encrypt. emitting.
  - unfold get_library. apply emits_try; [|apply emits_handlers].
    unfold create_audible_client, decrypt. emitting.
  - unfold get_progress. apply emits_try; [|apply emits_handlers].
    unfold create_audible_client, decrypt. emitting.
  - unfold refresh_token_endpoint. apply emits_try.
    + unfold utcnow_plus_1h, encrypt, decrypt. emitting.
    + intros e k. unfold except_Exception, generic_error.
      destruct (is_Exception _); cbn; intros [= <-]; apply emits_ret.
Qed.

(** X5.  What each route touches, whatever the request and however the
    library answers.  /health uses neither the cipher nor the library.
    /api/auth never decrypts: it calls [Locale] and
    [Authenticator.from_login] and encrypts.  /api/library and /api/progress
    never encrypt, never log in with a password and never refresh: they
    decrypt and call [Locale], [Authenticator.from_login_external] and
    [client.get].  /api/refresh-token never fetches the library and never logs
    in with a password. *)
Theorem endpoint_capabilities (ep : endpoint) (req : request) :
  Forall (fun e => allowed ep e = true)
         (snd (handle API_SECRET cipher_suite audible w ep req)).
Proof.
  unfold handle.
  destruct (serve_emits ep req initial) as (r & out & n & E & Hout).
  rewrite E. exact Hout.
Qed.

End Capabilities.

(** *** Every request is answered

    [answers Q c]: whatever the state, [c] returns a value that satisfies
    [Q], or raises an exception that [except Exception] catches. *)

Definition answers {A} (Q : A -> Prop) (c : prog state A) : Prop :=
  forall s,
    match fst (c s) with
    | Ok a => Q a
    | Raise e => is_Exception (exn_cls e) = true
    end.

Lemma answers_ret {A} (Q : A -> Prop) (a : A) : Q a -> answers Q (ret a).
Proof. intros H s. exact H. Qed.

Lemma answers_lift {A} (r : result A) : raises_Exception r -> answers anything (lift r).
Proof. intros H s. cbn. destruct r; [exact I | exact H]. Qed.

Lemma answers_raise {A} (Q : A -> Prop) (e : exn) :
  is_Exception (exn_cls e) = true -> answers Q (raise e).
Proof. intros H s. exact H. Qed.

Lemma answers_next_read : answers anything next_read.
Proof. intros s. exact I. Qed.

Lemma answers_emit (e : event) : answers anything (emit e).
Proof. intros s. exact I. Qed.

Lemma answers_bind {A B} (Q : B -> Prop) (c : prog state A) (k : A -> prog state B) :
  answers anything c -> (forall a, answers Q (k a)) -> answers Q (bind c k).
Proof.
  intros Hc Hk s. specialize (Hc s). unfold bind.
  destruct (c s) as [[a|e] s']; cbn in Hc |- *; [apply Hk | exact Hc].
Qed.

Lemma answers_call {A} (e : event) (answer : result A) :
  raises_Exception answer -> answers anything (call e answer).
Proof.
  intros H. unfold call. apply answers_bind; [apply answers_emit|].
  intros _. now apply answers_lift.
Qed.

(** A [try] whose clauses catch every [Exception] returns. *)
Lemma answers_try {A} (Q : A -> Prop) (c : prog state A)
    (h : exn -> option (prog state A)) :
  answers Q c ->
  (forall e, is_Exception (exn_cls e) = true ->
             exists a, h e = Some (ret a) /\ Q a) ->
  forall s, exists a, fst (try_except c h s) = Ok a /\ Q a.
Proof.
  intros Hc Hh s. specialize (Hc s). unfold try_except.
  destruct (c s) as [[a|e] s']; cbn in Hc |- *.
  - eauto.
  - destruct (Hh e Hc) as (a & -> & Ha). cbn. eauto.
Qed.

Lemma bytes_decode_Exception b : raises_Exception (bytes_decode b).
Proof. unfold bytes_decode. now destruct (utf8_valid b). Qed.

Lemma percent_complete_Exception p r : raises_Exception (percent_complete p r).
Proof.
  unfold percent_complete. destruct (r >? 0); [|exact I].
  pose proof (int_truediv_Exception p (r * 60)) as H.
  destruct (int_truediv _ _) as [q|e]; [|exact H]. cbn [rbind].
  destruct (float_mul q _); cbn; auto.
Qed.

Lemma book_of_item_Exception it : raises_Exception (book_of_item it).
Proof.
  unfold book_of_item.
  pose proof (percent_complete_Exception
                (position_sec_of (last_position_heard it))
                (library_runtime_min (item_product it))) as H.
  destruct (percent_complete _ _); [exact I | exact H].
Qed.

Lemma books_of_Exception its : raises_Exception (books_of its).
Proof.
  induction its as [|it rest IH]; [exact I|]. cbn [books_of].
  pose proof (book_of_item_Exception it) as H.
  destruct (book_of_item it); [|exact H]. cbn [rbind].
  destruct (books_of rest); [exact I | exact IH].
Qed.

(** A library that raises nothing but [Exception]s. *)
Definition well_behaved (audible : upstream) : Prop :=
  (forall cc, raises_Exception (Locale audible cc)) /\
  (forall e p l, raises_Exception (from_login audible e p l)) /\
  (forall a r l, raises_Exception (from_login_external audible a r l)) /\
  (forall c p, raises_Exception (client_get audible c p)) /\
  (forall a, raises_Exception (refresh_access_token audible a)).

(** The status codes of each route. *)
Definition status_codes (ep : endpoint) : list Z :=
  match ep with
  | Health => [200]
  | ApiProgress _ => [200; 400; 401; 404; 500]
  | _ => [200; 400; 401; 500]
  end.

(** A response of a route: one of its status codes and, but for /health, a
    JSON object whose "success" field tells whether the code is 200. *)
Definition well_formed (ep : endpoint) (r : response) : Prop :=
  In (snd r) (status_codes ep) /\
  (ep <> Health ->
   exists m, fst r = VDict m /\ m !! "success" = Some (VBool (snd r =? 200))).

Section Answered.
Variable API_SECRET : string.
Variable cipher_suite : Fernet.suite.
Variable audible : upstream.
Variable w : world.
Hypothesis audible_ok : well_behaved audible.

Lemma decrypt_str_Exception s : raises_Exception (decrypt_str cipher_suite s).
Proof.
  unfold decrypt_str. destruct (Fernet.decrypt _ _); [apply bytes_decode_Exception|reflexivity].
Qed.

Lemma answers_decrypt v : answers anything (decrypt cipher_suite v).
Proof.
  destruct v; cbn [decrypt]; try (now apply answers_raise).
  apply answers_bind; [apply answers_emit|]. intros _.
  apply answers_lift, decrypt_str_Exception.
Qed.

Lemma answers_encrypt s : answers anything (encrypt cipher_suite w s).
Proof.
  unfold encrypt. apply answers_bind; [apply answers_next_read|]. intros n.
  apply answers_bind; [apply answers_emit|]. intros _.
  apply answers_lift, bytes_decode_Exception.
Qed.

Lemma answers_client a r cc :
  answers anything (create_audible_client cipher_suite audible a r cc).
Proof.
  destruct audible_ok as (HL & _ & HE & _).
  unfold create_audible_client.
  apply answers_bind; [apply answers_decrypt|]. intros x.
  apply answers_bind; [apply answers_decrypt|]. intros y.
  apply answers_bind; [apply answers_call, HL|]. intros l.
  apply answers_call, HE.
Qed.

Ltac ok_response :=
  split; [cbn; tauto | intros _; eexists; split; [reflexivity | reflexivity]].

(** How a view function ends: with a response of its route, or with the
    [AttributeError] of looking up the class its first [except] clause names,
    in a package that has no such class. *)
Definition outcome (ep : endpoint) (r : result response) : Prop :=
  (exists a, r = Ok a /\ well_formed ep a) \/
  (exists name,
      clause_name ep = Some name /\ defines audible name = false /\
      r = Raise (no_attribute name)).

Lemma try_outcome (ep : endpoint) (name : string) (c : prog state response)
    (h : exn -> option (prog state response)) :
  clause_name ep = Some name ->
  answers (well_formed ep) c ->
  (forall e, is_Exception (exn_cls e) = true ->
             (exists a, h e = Some (ret a) /\ well_formed ep a) \/
             (defines audible name = false /\ h e = Some (raise (no_attribute name)))) ->
  forall s, outcome ep (fst (try_except c h s)).
Proof.
  intros Hn Hc Hh s. specialize (Hc s). unfold try_except.
  destruct (c s) as [[a|e] s']; cbn in Hc |- *.
  - left. eauto.
  - destruct (Hh e Hc) as [(a & -> & Ha) | (Hd & ->)]; cbn.
    + left. eauto.
    + right. exists name. auto.
Qed.

Lemma token_handlers_outcome (ep : endpoint) (e : exn) :
  ep <> Health -> clause_name ep = Some "UnauthorizedRequest" ->
  is_Exception (exn_cls e) = true ->
  (exists a, token_handlers audible (error_prefix ep) e = Some (ret a) /\
             well_formed ep a) \/
  (defines audible "UnauthorizedRequest" = false /\
   token_handlers audible (error_prefix ep) e
     = Some (raise (no_attribute "UnauthorizedRequest"))).
Proof.
  intros Hep Hn He.
  unfold token_handlers, after_clause, except_Exception, generic_error. rewrite He.
  destruct ep; try discriminate;
    destruct (exn_cls e); try (left; eexists; split; [reflexivity | ok_response]);
    (destruct (defines audible _);
     [left; eexists; split; [reflexivity | ok_response] | right; split; reflexivity]).
Qed.

Lemma serve_answers (ep : endpoint) (req : request) :
  raises_Exception (get_json req) ->
  forall s, outcome ep (fst (serve API_SECRET cipher_suite audible w ep req s)).
Proof.
  intros Hj. destruct audible_ok as (HL & HF & HE & HG & HR).
  destruct ep; cbn [serve].
  - intros s. left. eexists. split; [reflexivity|]. split; [cbn; tauto | congruence].
  - unfold authenticate. apply (try_outcome ApiAuth "BadRequest"); [reflexivity| |].
    + destruct (negb _); [apply answers_ret; ok_response|].
      apply answers_bind; [now apply answers_lift|]. intros data.
      apply answers_bind; [apply answers_lift, py_get_Exception|]. intros email.
      apply answers_bind; [apply answers_lift, py_get_Exception|]. intros password.
      apply answers_bind; [apply answers_lift, py_get_Exception|]. intros cc.
      destruct (_ || _); [apply answers_ret; ok_response|].
      apply answers_bind; [apply answers_call, HL|]. intros l.
      apply answers_bind; [apply answers_call, HF|]. intros auth.
      apply answers_bind; [intros ?; exact I|]. intros t.
      apply answers_bind; [apply answers_encrypt|]. intros a.
      apply answers_bind; [apply answers_encrypt|]. intros r.
      apply answers_bind; [apply answers_encrypt|]. intros d.
      apply answers_ret. ok_response.
    + intros e He.
      unfold login_handlers, after_clause, except_Exception, generic_error. rewrite He.
      destruct (exn_cls e); try (left; eexists; split; [reflexivity | ok_response]);
        (destruct (defines audible _);
         [left; eexists; split; [reflexivity | ok_response] | right; split; reflexivity]).
  - unfold get_library.
    apply (try_outcome ApiLibrary "UnauthorizedRequest"); [reflexivity| |].
    + destruct (negb _); [apply answers_ret; ok_response|].
      apply answers_bind; [now apply answers_lift|]. intros data.
      apply answers_bind; [apply answers_lift, py_get_Exception|]. intros a.
      apply answers_bind; [apply answers_lift, py_get_Exception|]. intros r.
      apply answers_bind; [apply answers_lift, py_get_Exception|]. intros cc.
      destruct (_ || _); [apply answers_ret; ok_response|].
      apply answers_bind; [apply answers_client|]. intros client.
      apply answers_bind; [apply answers_call, HG|]. intros lr.
      apply answers_bind; [apply answers_lift, books_of_Exception|]. intros books.
      apply answers_ret. ok_response.
    + intros e He.
      now apply (token_handlers_outcome ApiLibrary e).
  - unfold get_progress.
    apply (try_outcome (ApiProgress asin) "UnauthorizedRequest"); [reflexivity| |].
    + destruct (negb _); [apply answers_ret; ok_response|].
      apply answers_bind; [now apply answers_lift|]. intros data.
      apply answers_bind; [apply answers_lift, py_get_Exception|]. intros a.
      apply answers_bind; [apply answers_lift, py_get_Exception|]. intros r.
      apply answers_bind; [apply answers_lift, py_get_Exception|]. intros cc.
      destruct (_ || _); [apply answers_ret; ok_response|].
      apply answers_bind; [apply answers_client|]. intros client.
      apply answers_bind; [apply answers_call, HG|]. intros lr.
      destruct (default [] (items lr)) as [|it rest]; [apply answers_ret; ok_response|].
      apply answers_bind; [apply answers_lift, percent_complete_Exception|]. intros p.
      apply answers_ret. ok_response.
    + intros e He.
      now apply (token_handlers_outcome (ApiProgress asin) e).
  - unfold refresh_token_endpoint. intros s. left. revert s. apply answers_try.
    + destruct (negb _); [apply answers_ret; ok_response|].
      apply answers_bind; [now apply answers_lift|]. intros data.
      apply answers_bind; [apply answers_lift, py_get_Exception|]. intros r.
      apply answers_bind; [apply answers_lift, py_get_Exception|]. intros cc.
      destruct (negb _); [apply answers_ret; ok_response|].
      apply answers_bind; [apply answers_decrypt|]. intros x.
      apply answers_bind; [apply answers_call, HL|]. intros l.
      apply answers_bind; [apply answers_call, HE|]. intros auth.
      apply answers_bind; [apply answers_call, HR|]. intros auth'.
      apply answers_bind; [intros ?; exact I|]. intros t.
      apply answers_bind; [apply answers_encrypt|]. intros a.
      apply answers_ret. ok_response.
    + intros e He. unfold except_Exception, generic_error. rewrite He.
      eexists; (split; [reflexivity | ok_response]).
Qed.

(** X4.  Every request is answered.  If [request.get_json()] and the
    [audible] library raise nothing but [Exception]s, the caller of a route is
    sent a response whatever the request holds (debugging off).  The status
    code is one of the route's codes (200, 400, 401, 500, and 404 for
    /api/progress alone), and, but for /health, the body is a JSON object
    whose "success" field is true exactly when the code is 200.  When the
    class of [audible.exceptions] that the route's first [except] clause names
    exists, the response is the view function's own: no exception leaves it.
    An exception leaves a view function only as the [AttributeError] of
    looking up a class the package does not have, and the response is then
    that of Flask's handler for 500. *)
Theorem every_request_is_answered (ep : endpoint) (req : request) :
  raises_Exception (get_json req) ->
  exists r,
    fst (respond API_SECRET cipher_suite audible w false ep req) = Ok r /\
    well_formed ep r /\
    (resolves audible ep = true ->
     fst (handle API_SECRET cipher_suite audible w ep req) = Ok r) /\
    (forall e,
        fst (handle API_SECRET cipher_suite audible w ep req) = Raise e ->
        r = internal_error /\
        exists name,
          clause_name ep = Some name /\ defines audible name = false /\
          e = no_attribute name).
Proof.
  intros Hj. unfold respond, handle.
  pose proof (serve_answers ep req Hj initial) as Ho.
  destruct (serve _ _ _ _ _ _ _) as [r' s']. cbn [fst] in Ho |- *.
  destruct Ho as [(a & -> & Ha) | (name & Hn & Hd & ->)].
  - exists a. split; [reflexivity|]. split; [exact Ha|]. split; [reflexivity|].
    intros e [=].
  - exists internal_error. split; [reflexivity|]. split; [|split].
    + split.
      * destruct ep; try discriminate; cbn; tauto.
      * intros _. eexists. split; reflexivity.
    + unfold resolves. rewrite Hn, Hd. discriminate.
    + intros e [= <-]. split; [reflexivity|]. exists name. auto.
Qed.

End Answered.
End ServiceFacts.

(** ** The service: requests that go through, and tokens that do not *)

Module ServiceFlows.
Import Py PyFacts ProgFacts Audible AudibleFacts ServiceFacts PercentFacts.
Local Open Scope py_scope.
Local Open Scope list_scope.

(** The first [k] readings of the clock and of [os.urandom] are such as
    Fernet can use. *)
Definition readings_ok (w : world) (k : nat) : Prop :=
  forall n, (n < k)%nat -> Fernet.entropy_ok (clock_us w n / 1000000) (os_urandom w n).

(** A Fernet token is never empty: it begins with the version byte. *)
Definition never_empty (F : Fernet.suite) : Prop :=
  forall t iv m, Fernet.entropy_ok t iv -> Fernet.encrypt_at F t iv m <> [].

(** The moment a response gives for the expiry of the access token. *)
Definition expiry (w : world) : pyval :=
  VStr (isoformat w (clock_us w 0 + 3600 * 1000000) +:+ "Z").

(** *** Logging in (lines 149-174) *)

Section Login.
Variable API_SECRET : string.
Variable cipher_suite : Fernet.suite.
Variable audible : upstream.
Variable w : world.
Hypothesis fernet : Fernet.laws cipher_suite.

(** [encrypt(text)] at the n-th reading of the world. *)
Lemma encrypt_runs (text : string) (t : list event) (n : nat) :
  Fernet.entropy_ok (clock_us w n / 1000000) (os_urandom w n) ->
  exists tok,
    encrypt cipher_suite w text (State t n)
      = (Ok tok, State (t ++ [Encrypt text]) (S n)) /\
    (wf_str text -> decrypt_str cipher_suite tok = Ok text) /\
    str_encode tok
      = Fernet.encrypt_at cipher_suite (clock_us w n / 1000000) (os_urandom w n)
                          (str_encode text).
Proof.
  intros He.
  destruct (encrypt_with_token cipher_suite fernet _ _ text He) as (tok & Htok & Henc).
  exists tok. split; [|split].
  - unfold encrypt. cbv [bind next_read emit modify lift]. cbn [trace reads].
    now rewrite Htok.
  - intros Hwf. now apply (decrypt_of_encrypt cipher_suite fernet _ _ text tok He).
  - exact Henc.
Qed.

(** What [authenticate] does when the login goes through. *)
Lemma authenticate_runs (req : request) (m : gmap string pyval)
    (loc : locale) (auth : authenticator) :
  let email := default VNone (m !! "email") in
  let password := default VNone (m !! "password") in
  let country_code := default (VStr "us") (m !! "country_code") in
  let serial := default "" (device_info auth !! "device_serial_number") in
  verify_api_secret API_SECRET (api_secret_of req) = true ->
  get_json req = Ok (VDict m) ->
  truthy email = true -> truthy password = true ->
  Locale audible country_code = Ok loc ->
  from_login audible email password loc = Ok auth ->
  readings_ok w 4 ->
  exists a r d,
    handle API_SECRET cipher_suite audible w ApiAuth req
      = (Ok (jsonify [("success", VBool true); ("access_token", VStr a);
                      ("refresh_token", VStr r); ("device_serial", VStr d);
                      ("expires_at", expiry w)], 200),
         [CallLocale country_code; CallFromLogin email password;
          Encrypt (access_token auth); Encrypt (refresh_token auth); Encrypt serial]) /\
    (wf_str (access_token auth) -> decrypt_str cipher_suite a = Ok (access_token auth)) /\
    (wf_str (refresh_token auth) -> decrypt_str cipher_suite r = Ok (refresh_token auth)) /\
    (wf_str serial -> decrypt_str cipher_suite d = Ok serial) /\
    (never_empty cipher_suite -> a <> "" /\ r <> "").
Proof.
  intros email password country_code serial Hv Hj He Hp Hloc Hlogin Hw.
  set (t0 := [CallLocale country_code; CallFromLogin email password]).
  destruct (encrypt_runs (access_token auth) t0 1 (Hw 1%nat ltac:(lia)))
    as (a & Ea & Da & Ba).
  destruct (encrypt_runs (refresh_token auth) (t0 ++ [Encrypt (access_token auth)]) 2
              (Hw 2%nat ltac:(lia))) as (r & Er & Dr & Br).
  destruct (encrypt_runs serial
              ((t0 ++ [Encrypt (access_token auth)]) ++ [Encrypt (refresh_token auth)]) 3
              (Hw 3%nat ltac:(lia))) as (d & Ed & Dd & _).
  exists a, r, d. split; [|repeat split; try assumption].
  - unfold handle, serve, authenticate, try_except.
    cbv [bind lift ret py_get]. rewrite Hv, Hj. cbn [negb].
    fold email password country_code. rewrite He, Hp. cbn [negb orb].
    cbv [call bind emit modify lift utcnow_plus_1h next_read ret initial].
    cbn [trace reads app].
    rewrite Hloc, Hlogin. fold serial. fold t0.
    rewrite Ea, Er, Ed. reflexivity.
  - intros ->.
    apply (H _ _ (str_encode (access_token auth)) (Hw 1%nat ltac:(lia))).
    now rewrite <- Ba.
  - intros ->.
    apply (H _ _ (str_encode (refresh_token auth)) (Hw 2%nat ltac:(lia))).
    now rewrite <- Br.
Qed.

(** X6.  A login that goes through.  When the request passes the secret
    check with a non-empty email and password and
    [Authenticator.from_login] returns an authenticator, the answer is 200
    with three tokens: decrypting them gives back the authenticator's access
    token, its refresh token and its device serial number (the empty string
    when [device_info] has none).  [expires_at] is the first reading of the
    clock plus one hour, with "Z" appended.  The library was called for
    [Locale] and [from_login], then the cipher three times, in this order. *)
Theorem login_issues_encrypted_tokens (req : request) (m : gmap string pyval)
    (loc : locale) (auth : authenticator) :
  let email := default VNone (m !! "email") in
  let password := default VNone (m !! "password") in
  let country_code := default (VStr "us") (m !! "country_code") in
  let serial := default "" (device_info auth !! "device_serial_number") in
  verify_api_secret API_SECRET (api_secret_of req) = true ->
  get_json req = Ok (VDict m) ->
  truthy email = true -> truthy password = true ->
  Locale audible country_code = Ok loc ->
  from_login audible email password loc = Ok auth ->
  readings_ok w 4 ->
  wf_str (access_token auth) -> wf_str (refresh_token auth) -> wf_str serial ->
  exists a r d,
    handle API_SECRET cipher_suite audible w ApiAuth req
      = (Ok (jsonify [("success", VBool true); ("access_token", VStr a);
                      ("refresh_token", VStr r); ("device_serial", VStr d);
                      ("expires_at", expiry w)], 200),
         [CallLocale country_code; CallFromLogin email password;
          Encrypt (access_token auth); Encrypt (refresh_token auth); Encrypt serial]) /\
    decrypt_str cipher_suite a = Ok (access_token auth) /\
    decrypt_str cipher_suite r = Ok (refresh_token auth) /\
    decrypt_str cipher_suite d = Ok serial.
Proof.
  intros email password country_code serial Hv Hj He Hp Hloc Hlogin Hw Wa Wr Wd.
  destruct (authenticate_runs req m loc auth Hv Hj He Hp Hloc Hlogin Hw)
    as (a & r & d & Hrun & Da & Dr & Dd & _).
  exists a, r, d. auto.
Qed.

(** What [create_audible_client] does with two tokens that decrypt. *)
Lemma client_runs (a_enc r_enc a r : string) (cc : pyval) (loc : locale)
    (t : list event) (n : nat) :
  decrypt_str cipher_suite a_enc = Ok a ->
  decrypt_str cipher_suite r_enc = Ok r ->
  Locale audible cc = Ok loc ->
  create_audible_client cipher_suite audible (VStr a_enc) (VStr r_enc) cc (State t n)
    = (from_login_external audible a r loc,
       State (t ++ [Decrypt a_enc; Decrypt r_enc; CallLocale cc;
                    CallFromLoginExternal a r]) n).
Proof.
  intros Ha Hr Hloc. unfold create_audible_client, decrypt.
  cbv [bind call emit modify lift]. cbn [trace reads].
  rewrite Ha, Hr, Hloc. rewrite <- !app_assoc. cbn [app].
  now destruct (from_login_external audible a r loc).
Qed.

(** A [try] that begins with [C] leaves a trace that begins with that of
    [C]. *)
Lemma starts_with {A B} (C : prog state A) (K : A -> prog state B)
    (h : exn -> option (prog state B)) (s : state) (res : result A)
    (T : list event) (n : nat) :
  C s = (res, State (trace s ++ T) n) ->
  (forall a, emits anything (K a)) ->
  (forall e k, h e = Some k -> emits anything k) ->
  exists rest, trace (snd (try_except (bind C K) h s)) = trace s ++ T ++ rest.
Proof.
  intros HC HK Hh. unfold try_except, bind. rewrite HC.
  assert (Hcatch : forall e full n',
             exists rest,
               trace (snd (match h e with
                           | Some k => k (State full n')
                           | None => (Raise e, State full n')
                           end)) = full ++ rest).
  { intros e full n'. destruct (h e) as [k|] eqn:Eh.
    - destruct (Hh e k Eh (State full n')) as (r' & out' & n'' & E' & _).
      rewrite E'. now exists out'.
    - exists []. cbn. now rewrite app_nil_r. }
  destruct res as [a|e].
  2:{ destruct (Hcatch e (trace s ++ T) n) as (rest & Hrest).
      exists rest. rewrite Hrest. now rewrite app_assoc. }
  destruct (HK a (State (trace s ++ T) n)) as (r & out & n' & E & _). rewrite E.
  cbn [trace].
  destruct r as [b|e].
  - exists out. cbn. now rewrite app_assoc.
  - destruct (Hcatch e ((trace s ++ T) ++ out) n') as (rest & Hrest).
    exists (out ++ rest). rewrite Hrest. now rewrite <- !app_assoc.
Qed.

(** X7.  The tokens a login hands out come back as the tokens of the
    library.  After a login that goes through, any later request to
    /api/library or /api/progress that passes the secret check and carries the
    "access_token" and "refresh_token" of the login's answer, for a country
    the library knows, decrypts both and calls
    [Authenticator.from_login_external] with the very access and refresh
    tokens the login obtained.  (A Fernet token is never empty, so the two
    fields pass the check for missing tokens.) *)
Theorem issued_tokens_reach_the_library (req : request) (m : gmap string pyval)
    (loc : locale) (auth : authenticator) (ep : endpoint) :
  let email := default VNone (m !! "email") in
  let password := default VNone (m !! "password") in
  let country_code := default (VStr "us") (m !! "country_code") in
  verify_api_secret API_SECRET (api_secret_of req) = true ->
  get_json req = Ok (VDict m) ->
  truthy email = true -> truthy password = true ->
  Locale audible country_code = Ok loc ->
  from_login audible email password loc = Ok auth ->
  readings_ok w 4 -> never_empty cipher_suite ->
  wf_str (access_token auth) -> wf_str (refresh_token auth) ->
  (ep = ApiLibrary \/ exists asin, ep = ApiProgress asin) ->
  exists a r body,
    fst (handle API_SECRET cipher_suite audible w ApiAuth req) = Ok (VDict body, 200) /\
    body !! "access_token" = Some (VStr a) /\
    body !! "refresh_token" = Some (VStr r) /\
    forall (req' : request) (m' : gmap string pyval) (loc' : locale),
      verify_api_secret API_SECRET (api_secret_of req') = true ->
      get_json req' = Ok (VDict m') ->
      m' !! "access_token" = Some (VStr a) ->
      m' !! "refresh_token" = Some (VStr r) ->
      Locale audible (default (VStr "us") (m' !! "country_code")) = Ok loc' ->
      exists rest,
        snd (handle API_SECRET cipher_suite audible w ep req')
          = [Decrypt a; Decrypt r;
             CallLocale (default (VStr "us") (m' !! "country_code"));
             CallFromLoginExternal (access_token auth) (refresh_token auth)] ++ rest.
Proof.
  intros email password country_code Hv Hj He Hp Hloc Hlogin Hw Hne Wa Wr Hep.
  destruct (authenticate_runs req m loc auth Hv Hj He Hp Hloc Hlogin Hw)
    as (a & r & d & Hrun & Da & Dr & _ & Hnon).
  destruct (Hnon Hne) as [Hane Hrne].
  exists a, r. eexists. rewrite Hrun. cbn [fst].
  split; [reflexivity|]. split; [reflexivity|]. split; [reflexivity|].
  intros req' m' loc' Hv' Hj' Ha' Hr' Hloc'.
  apply String.eqb_neq in Hane, Hrne.
  pose proof (client_runs a r _ _ _ loc' [] 0 (Da Wa) (Dr Wr) Hloc') as Hclient.
  assert (Hgo : forall (K : authenticator -> prog state response) prefix,
             (forall c, emits anything (K c)) ->
             exists rest,
               trace (snd (try_except
                             (bind (create_audible_client cipher_suite audible (VStr a) (VStr r)
                                      (default (VStr "us") (m' !! "country_code"))) K)
                             (token_handlers audible prefix) initial))
               = [Decrypt a; Decrypt r;
                  CallLocale (default (VStr "us") (m' !! "country_code"));
                  CallFromLoginExternal (access_token auth) (refresh_token auth)] ++ rest).
  { intros K prefix HK.
    destruct (starts_with _ K (token_handlers audible prefix) initial _ _ 0%nat Hclient HK
                (emits_handlers audible anything prefix)) as (rest & Hrest).
    exists rest. exact Hrest. }
  assert (Hsnd : forall (c : prog state response),
             snd (let '(r0, s0) := c initial in (r0, trace s0)) = trace (snd (c initial))).
  { intros c. now destruct (c initial). }
  destruct Hep as [->|[asin ->]]; unfold handle; rewrite Hsnd; cbn [serve].
  - unfold get_library. rewrite Hv'. cbn [negb]. rewrite Hj', !bind_lift_Ok.
    cbn [py_get]. rewrite !bind_lift_Ok, Ha', Hr'. cbn [default truthy from_option id].
    rewrite Hane, Hrne. cbn [negb orb].
    apply Hgo. intros c. emitting.
  - unfold get_progress. rewrite Hv'. cbn [negb]. rewrite Hj', !bind_lift_Ok.
    cbn [py_get]. rewrite !bind_lift_Ok, Ha', Hr'. cbn [default truthy from_option id].
    rewrite Hane, Hrne. cbn [negb orb].
    apply Hgo. intros c. emitting.
Qed.

End Login.

(** *** Listing the library (lines 229-290) *)

(** The parameters of the [client.get("library", ...)] of [get_library]
    and of [get_progress]. *)
Definition library_params : gmap string pyval :=
  list_to_map
    [("num_results", VInt 1000);
     ("response_groups", VStr "product_desc,product_attrs,media,last_position_heard");
     ("sort_by", VStr "PurchaseDate")].

Definition progress_params (asin : string) : gmap string pyval :=
  list_to_map
    [("asin", VStr asin); ("response_groups", VStr "media,last_position_heard")].

(** A position that is not negative and not astronomical. *)
Definition sane_position (it : item) : Prop :=
  0 <= position_sec_of (last_position_heard it) < 2 ^ 1015.

(** [b] is the entry of [books] made for the item [it]. *)
Definition entry_of (it : item) (b : pyval) : Prop :=
  book_of_item it = Ok b /\
  exists d p,
    b = VDict d /\
    d !! "asin" = Some (opt_str (item_asin it)) /\
    d !! "position_seconds" = Some (VInt (position_sec_of (last_position_heard it))) /\
    d !! "percent_complete" = Some (VInt p) /\ 0 <= p <= 100.

Lemma book_of_item_entry (it : item) :
  sane_position it -> exists b, entry_of it b.
Proof.
  intros Hp. unfold entry_of, book_of_item.
  destruct (percent_complete_defined _ (library_runtime_min (item_product it)) Hp)
    as (p & -> & Hrange).
  cbn [rbind]. eexists. split; [reflexivity|]. eexists _, p.
  split; [reflexivity|]. split; [reflexivity|]. split; [reflexivity|].
  split; [reflexivity | exact Hrange].
Qed.

Lemma books_of_entries (its : list item) :
  Forall sane_position its ->
  exists bs, books_of its = Ok bs /\ Forall2 entry_of its bs.
Proof.
  induction 1 as [|it rest Hit _ IH]; [exists []; split; [reflexivity | constructor]|].
  destruct (book_of_item_entry it Hit) as (b & Hb).
  destruct IH as (bs & Hbs & Hall).
  exists (b :: bs). cbn [books_of]. rewrite (proj1 Hb), Hbs. cbn [rbind].
  split; [reflexivity | now constructor].
Qed.

Section Library.
Variable API_SECRET : string.
Variable cipher_suite : Fernet.suite.
Variable audible : upstream.
Variable w : world.

(** A request for the library or for the progress of a book whose tokens
    decrypt, for a country the library knows, and which logs in. *)
Record signed_in (req : request) (m : gmap string pyval)
    (a_enc r_enc : string) (client : authenticator) : Prop := SignedIn {
  si_secret : verify_api_secret API_SECRET (api_secret_of req) = true;
  si_body : get_json req = Ok (VDict m);
  si_access : m !! "access_token" = Some (VStr a_enc);
  si_access_given : a_enc <> "";
  si_refresh : m !! "refresh_token" = Some (VStr r_enc);
  si_refresh_given : r_enc <> "";
  si_client : exists a r loc,
    decrypt_str cipher_suite a_enc = Ok a /\
    decrypt_str cipher_suite r_enc = Ok r /\
    Locale audible (default (VStr "us") (m !! "country_code")) = Ok loc /\
    from_login_external audible a r loc = Ok client
}.

(** X9.  The library, item by item.  When the tokens decrypt, the client
    is built and [client.get("library", num_results=1000, ...)] returns, and
    no position is negative or astronomical, the answer is 200: [books] has
    one entry per item, in the order of the items, [total_count] is the number
    of items (0 when "items" is left out), and each entry carries its item's
    asin and position and a percentage within [0, 100]. *)
Theorem library_lists_every_item (req : request) (m : gmap string pyval)
    (a_enc r_enc : string) (client : authenticator) (lr : library_response) :
  signed_in req m a_enc r_enc client ->
  client_get audible client library_params = Ok lr ->
  Forall sane_position (default [] (items lr)) ->
  exists books,
    fst (handle API_SECRET cipher_suite audible w ApiLibrary req)
      = Ok (jsonify [("success", VBool true); ("books", VList books);
                     ("total_count", VInt (Z.of_nat (length (default [] (items lr)))))],
            200) /\
    Forall2 entry_of (default [] (items lr)) books.
Proof.
  intros [Hv Hj Ha Hane Hr Hrne (a & r & loc & Hda & Hdr & Hloc & Hext)] Hget Hpos.
  destruct (books_of_entries _ Hpos) as (books & Hbooks & Hall).
  exists books. split; [|exact Hall].
  apply String.eqb_neq in Hane, Hrne.
  unfold handle, serve, get_library.
  rewrite Hv. cbn [negb]. rewrite Hj, !bind_lift_Ok.
  cbn [py_get]. rewrite !bind_lift_Ok, Ha, Hr. cbn [default truthy from_option id].
  rewrite Hane, Hrne. cbn [negb orb].
  unfold try_except, bind at 1, initial.
  rewrite (client_runs cipher_suite audible a_enc r_enc a r _ loc [] 0 Hda Hdr Hloc), Hext.
  fold library_params.
  cbv [call bind emit modify lift ret]. cbn [trace reads].
  rewrite Hget, Hbooks. cbn [fst].
  now rewrite (Forall2_length _ _ _ Hall).
Qed.

(** What [get_progress] answers once the library has answered. *)
Lemma progress_runs (asin : string) (req : request) (m : gmap string pyval)
    (a_enc r_enc : string) (client : authenticator) (lr : library_response) :
  signed_in req m a_enc r_enc client ->
  client_get audible client (progress_params asin) = Ok lr ->
  (default [] (items lr) = [] ->
   fst (handle API_SECRET cipher_suite audible w (ApiProgress asin) req)
     = Ok (failure "Book not found in library" 404)) /\
  (forall it rest p,
      default [] (items lr) = it :: rest ->
      percent_complete (position_sec_of (last_position_heard it))
                       (progress_runtime_min (item_product it)) = Ok p ->
      fst (handle API_SECRET cipher_suite audible w (ApiProgress asin) req)
        = Ok (jsonify [("success", VBool true); ("asin", VStr asin);
                       ("position_seconds",
                        VInt (position_sec_of (last_position_heard it)));
                       ("percent_complete", VInt p);
                       ("is_finished", VBool (is_finished (last_position_heard it)))],
              200)).
Proof.
  intros [Hv Hj Ha Hane Hr Hrne (a & r & loc & Hda & Hdr & Hloc & Hext)] Hget.
  apply String.eqb_neq in Hane, Hrne.
  assert (Hrun : forall k : library_response -> prog state response,
             fst (try_except
                    (let* client0 := create_audible_client cipher_suite audible (VStr a_enc)
                                       (VStr r_enc) (default (VStr "us") (m !! "country_code")) in
                     let* library_response :=
                       call (CallClientGet (progress_params asin))
                            (client_get audible client0 (progress_params asin)) in
                     k library_response)
                    (token_handlers audible "Progress fetch error: ") initial)
             = fst (try_except (k lr) (token_handlers audible "Progress fetch error: ")
                      (State [Decrypt a_enc; Decrypt r_enc;
                              CallLocale (default (VStr "us") (m !! "country_code"));
                              CallFromLoginExternal a r;
                              CallClientGet (progress_params asin)] 0))).
  { intros k. unfold try_except, bind at 1, initial.
    rewrite (client_runs cipher_suite audible a_enc r_enc a r _ loc [] 0 Hda Hdr Hloc), Hext.
    cbv [call bind emit modify lift]. cbn [trace reads app]. now rewrite Hget. }
  assert (Hfst : forall (c : prog state response),
             fst (let '(r0, s0) := c initial in (r0, trace s0)) = fst (c initial)).
  { intros c. now destruct (c initial). }
  unfold handle. rewrite Hfst. cbn [serve]. unfold get_progress.
  rewrite Hv. cbn [negb]. rewrite Hj, !bind_lift_Ok.
  cbn [py_get]. rewrite !bind_lift_Ok, Ha, Hr. cbn [default truthy from_option id].
  rewrite Hane, Hrne. cbn [negb orb]. fold (progress_params asin).
  rewrite Hrun. split.
  - intros ->. reflexivity.
  - intros it rest p -> Hpc. unfold try_except, bind, lift. now rewrite Hpc.
Qed.

(** X10.  The progress of one book.  When the tokens decrypt, the client
    is built and [client.get("library", asin=..., ...)] returns: without items
    (or without "items") the answer is 404 "Book not found in library";
    otherwise it is 200, computed from the first item alone, with that item's
    position, a percentage within [0, 100] and its finished flag. *)
Theorem progress_of_first_item (asin : string) (req : request) (m : gmap string pyval)
    (a_enc r_enc : string) (client : authenticator) (lr : library_response) :
  signed_in req m a_enc r_enc client ->
  client_get audible client (progress_params asin) = Ok lr ->
  match default [] (items lr) with
  | [] =>
      fst (handle API_SECRET cipher_suite audible w (ApiProgress asin) req)
        = Ok (failure "Book not found in library" 404)
  | it :: _ =>
      sane_position it ->
      exists p,
        percent_complete (position_sec_of (last_position_heard it))
                         (progress_runtime_min (item_product it)) = Ok p /\
        0 <= p <= 100 /\
        fst (handle API_SECRET cipher_suite audible w (ApiProgress asin) req)
          = Ok (jsonify [("success", VBool true); ("asin", VStr asin);
                         ("position_seconds",
                          VInt (position_sec_of (last_position_heard it)));
                         ("percent_complete", VInt p);
                         ("is_finished", VBool (is_finished (last_position_heard it)))],
                200)
  end.
Proof.
  intros Hsi Hget.
  destruct (progress_runs asin req m a_enc r_enc client lr Hsi Hget) as [Hnone Hsome].
  destruct (default [] (items lr)) as [|it rest]; [now apply Hnone|].
  intros Hp.
  destruct (percent_complete_defined _ (progress_runtime_min (item_product it)) Hp)
    as (p & Hpc & Hrange).
  exists p. split; [exact Hpc|]. split; [exact Hrange|].
  now apply (Hsome it rest p).
Qed.

(** X11.  [get_progress] does not fall back to the runtime in seconds.  For
    an item whose "runtime_length_min" is missing or 0, /api/progress reports
    0 percent whatever the position and whatever "runtime_length_sec" holds.
    [get_library] does fall back: when that item has a runtime of [sec >= 60]
    seconds and was heard to the end, its entry in the library has runtime
    [sec // 60] and 100 percent. *)
Theorem progress_ignores_runtime_seconds (asin : string) (req : request)
    (m : gmap string pyval) (a_enc r_enc : string) (client : authenticator)
    (lr : library_response) (it : item) (rest : list item) :
  signed_in req m a_enc r_enc client ->
  client_get audible client (progress_params asin) = Ok lr ->
  items lr = Some (it :: rest) ->
  runtime_length_min (item_product it) = None \/
  runtime_length_min (item_product it) = Some 0 ->
  fst (handle API_SECRET cipher_suite audible w (ApiProgress asin) req)
    = Ok (jsonify [("success", VBool true); ("asin", VStr asin);
                   ("position_seconds", VInt (position_sec_of (last_position_heard it)));
                   ("percent_complete", VInt 0);
                   ("is_finished", VBool (is_finished (last_position_heard it)))],
          200) /\
  (forall sec,
      runtime_length_sec (item_product it) = Some sec -> 60 <= sec ->
      sec <= position_sec_of (last_position_heard it) < 2 ^ 1015 ->
      exists d,
        book_of_item it = Ok (VDict d) /\
        d !! "runtime_length_min" = Some (VInt (sec / 60)) /\
        d !! "percent_complete" = Some (VInt 100)).
Proof.
  intros Hsi Hget Hitems Hmin. split.
  - destruct (progress_runs asin req m a_enc r_enc client lr Hsi Hget) as [_ Hsome].
    apply (Hsome it rest 0); [now rewrite Hitems|].
    unfold progress_runtime_min. destruct Hmin as [-> | ->]; reflexivity.
  - intros sec Hsec H60 Hpos.
    assert (Hrt : library_runtime_min (item_product it) = sec / 60).
    { unfold library_runtime_min. rewrite Hsec. destruct Hmin as [-> | ->]; reflexivity. }
    assert (0 < sec / 60) by (apply Z.div_str_pos; lia).
    pose proof (Z.mul_div_le sec 60 ltac:(lia)).
    unfold book_of_item. rewrite Hrt.
    rewrite (percent_complete_full _ (sec / 60)) by lia.
    cbn [rbind]. eexists. split; [reflexivity|]. split; reflexivity.
Qed.

End Library.
(** *** Tokens that do not decrypt (lines 77-79 under the handlers) *)

Section BadToken.
Variable API_SECRET : string.
Variable cipher_suite : Fernet.suite.
Variable audible : upstream.
Variable w : world.

(** The token a handler decrypts first. *)
Definition first_token (ep : endpoint) : string :=
  match ep with
  | ApiRefreshToken => "refresh_token"
  | _ => "access_token"
  end.

(** X12.  A token that does not decrypt is a server error, never a 401.
    On /api/library, /api/progress and /api/refresh-token, for a request that
    passes the secret check and the check for missing tokens: when the first
    token to be decrypted is a string that Fernet rejects ([InvalidToken],
    whose [str] is empty), one decryption was attempted and the library was
    not called; when that token is no string (a number, a list, an object),
    nothing was attempted.  The exception goes to the route's [except]
    clauses.  On /api/refresh-token, and on the two other routes when the
    package has the class [UnauthorizedRequest], the answer is 500 with the
    route's prefix (followed by "... object has no attribute 'encode'" for a
    token that is no string).  When the package has no such class, the two
    routes raise [AttributeError] and Flask's handler for 500 answers. *)
Theorem undecryptable_token_is_500 (ep : endpoint) (req : request)
    (m : gmap string pyval) (v : pyval) :
  ep <> Health -> ep <> ApiAuth ->
  verify_api_secret API_SECRET (api_secret_of req) = true ->
  get_json req = Ok (VDict m) ->
  (forall k, In k (required_fields ep) -> truthy (default VNone (m !! k)) = true) ->
  m !! first_token ep = Some v ->
  match v with
  | VStr t =>
      Fernet.decrypt cipher_suite (str_encode t) = None ->
      reported_500 API_SECRET cipher_suite audible w ep req
                   (error_prefix ep) [Decrypt t]
  | _ =>
      reported_500 API_SECRET cipher_suite audible w ep req
                   (error_prefix ep +:+ "'" +:+ type_name v +:+
                    "' object has no attribute 'encode'") []
  end.
Proof.
  intros Hh Ha Hv Hj Hreq Hm.
  assert (Hgo : forall err t,
             handle API_SECRET cipher_suite audible w ep req
               = match clause_name ep with
                 | Some name =>
                     if defines audible name then (Ok (failure err 500), t)
                     else (Raise (no_attribute name), t)
                 | None => (Ok (failure err 500), t)
                 end ->
             reported_500 API_SECRET cipher_suite audible w ep req err t)
    by (intros err t; apply reported_500_intro).
  destruct ep; try congruence; cbn [first_token] in Hm;
    cbn [required_fields] in Hreq.
  - pose proof (Hreq "access_token" ltac:(cbn; tauto)) as H1.
    pose proof (Hreq "refresh_token" ltac:(cbn; tauto)) as H2.
    destruct v; (try intros Hd); apply Hgo;
      unfold handle, serve, get_library, try_except;
      cbv [bind lift ret py_get]; rewrite Hv, Hj; cbn [negb]; rewrite H1, H2;
      rewrite Hm; cbn [negb orb default from_option id];
      cbv [create_audible_client decrypt bind emit modify lift raise decrypt_str];
      rewrite ?Hd;
      cbv [token_handlers after_clause except_Exception generic_error clause_name];
      cbn [exn_cls is_Exception exn_str trace reads app];
      now destruct (defines audible _).
  - pose proof (Hreq "access_token" ltac:(cbn; tauto)) as H1.
    pose proof (Hreq "refresh_token" ltac:(cbn; tauto)) as H2.
    destruct v; (try intros Hd); apply Hgo;
      unfold handle, serve, get_progress, try_except;
      cbv [bind lift ret py_get]; rewrite Hv, Hj; cbn [negb]; rewrite H1, H2;
      rewrite Hm; cbn [negb orb default from_option id];
      cbv [create_audible_client decrypt bind emit modify lift raise decrypt_str];
      rewrite ?Hd;
      cbv [token_handlers after_clause except_Exception generic_error clause_name];
      cbn [exn_cls is_Exception exn_str trace reads app];
      now destruct (defines audible _).
  - pose proof (Hreq "refresh_token" ltac:(cbn; tauto)) as H2.
    destruct v; (try intros Hd); apply Hgo;
      unfold handle, serve, refresh_token_endpoint, try_except;
      cbv [bind lift ret py_get]; rewrite Hv, Hj; cbn [negb]; rewrite H2;
      rewrite Hm; cbn [negb orb default from_option id];
      cbv [decrypt bind emit modify lift raise decrypt_str];
      rewrite ?Hd; reflexivity.
Qed.

End BadToken.

(** *** The shared-secret check at the head of every route (lines 65-69) *)

(** [yields Q c]: whatever the state, what [c] returns satisfies [Q]. *)
Definition yields {A} (Q : A -> Prop) (c : prog state A) : Prop :=
  forall s, match fst (c s) with Ok a => Q a | Raise _ => True end.

Lemma yields_ret {A} (Q : A -> Prop) (a : A) : Q a -> yields Q (ret a).
Proof. intros H s. exact H. Qed.

Lemma yields_raise {A} (Q : A -> Prop) (e : exn) : yields Q (raise e).
Proof. intros s. exact I. Qed.

Lemma yields_bind {A B} (Q : B -> Prop) (c : prog state A) (k : A -> prog state B) :
  (forall a, yields Q (k a)) -> yields Q (bind c k).
Proof.
  intros Hk s. unfold bind. destruct (c s) as [[a|e] s']; [apply Hk | exact I].
Qed.

Lemma yields_try {A} (Q : A -> Prop) (c : prog state A)
    (h : exn -> option (prog state A)) :
  yields Q c -> (forall e k, h e = Some k -> yields Q k) -> yields Q (try_except c h).
Proof.
  intros Hc Hh s. specialize (Hc s). unfold try_except.
  destruct (c s) as [[a|e] s']; cbn [fst] in *; [exact Hc|].
  destruct (h e) as [k|] eqn:Ek; [exact (Hh e k Ek s') | exact I].
Qed.

(** A response that is not the refusal of the secret check; if it is a 401
    at all, it is the answer to an expired token. *)
Definition accepted (r : response) : Prop :=
  r <> unauthorized /\ (snd r = 401 -> r = needs_auth_response).

Lemma accepted_status (body : pyval) (code : Z) : code <> 401 -> accepted (body, code).
Proof.
  intros Hc. split; [|cbn; congruence].
  intros H. apply (f_equal snd) in H. cbn in H. congruence.
Qed.

Lemma accepted_needs_auth : accepted needs_auth_response.
Proof.
  split; [|reflexivity]. intros H.
  apply (f_equal (fun r => match fst r with
                           | VDict m => m !! "needs_auth"
                           | _ => None
                           end)) in H.
  vm_compute in H. discriminate.
Qed.

Ltac yielding :=
  repeat
    (cbv beta;
     first
       [ match goal with |- yields _ (if ?b then _ else _) => destruct b end
       | match goal with |- yields _ (match ?x with _ => _ end) => destruct x end
       | apply yields_raise
       | apply yields_ret; apply accepted_status; discriminate
       | apply yields_bind; intros ? ]).

(** What a route does first with a request that has its fields: /api/auth
    calls [Locale]; the others decrypt their first token. *)
Definition first_step (ep : endpoint) (m : gmap string pyval) : option event :=
  match ep with
  | Health => None
  | ApiAuth => Some (CallLocale (default (VStr "us") (m !! "country_code")))
  | _ =>
      match m !! first_token ep with
      | Some (VStr t) => Some (Decrypt t)
      | _ => None
      end
  end.

Section Gate.
Variable API_SECRET : string.
Variable cipher_suite : Fernet.suite.
Variable audible : upstream.
Variable w : world.

Lemma yields_token_handlers (prefix : string) (e : exn) (k : prog state response) :
  token_handlers audible prefix e = Some k -> yields accepted k.
Proof.
  unfold token_handlers, after_clause, except_Exception, generic_error.
  destruct (exn_cls e); cbn; try destruct (defines audible _); cbn;
    intros [= <-];
    first [ apply yields_raise
          | apply yields_ret, accepted_needs_auth
          | apply yields_ret, accepted_status; discriminate ].
Qed.

Lemma yields_login_handlers (e : exn) (k : prog state response) :
  login_handlers audible e = Some k -> yields accepted k.
Proof.
  unfold login_handlers, after_clause, except_Exception, generic_error.
  destruct (exn_cls e); cbn; try destruct (defines audible _); cbn;
    intros [= <-];
    first [ apply yields_raise
          | apply yields_ret, accepted_status; discriminate ].
Qed.

(** With no secret configured, no route answers with the refusal. *)
Lemma open_service_accepts (ep : endpoint) (req : request) :
  yields accepted (serve "" cipher_suite audible w ep req).
Proof.
  destruct ep; cbn [serve].
  - unfold health_check. yielding.
  - unfold authenticate. rewrite verify_accepts_all. cbn [negb].
    apply yields_try; [|apply yields_login_handlers]. yielding.
  - unfold get_library. rewrite verify_accepts_all. cbn [negb].
    apply yields_try; [|apply yields_token_handlers]. yielding.
  - unfold get_progress. rewrite verify_accepts_all. cbn [negb].
    apply yields_try; [|apply yields_token_handlers]. yielding.
  - unfold refresh_token_endpoint. rewrite verify_accepts_all. cbn [negb].
    apply yields_try; [yielding|].
    intros e k. unfold except_Exception, generic_error.
    destruct (is_Exception _); intros [= <-].
    apply yields_ret, accepted_status. discriminate.
Qed.

(** [decrypt] of a string records the attempt, whatever comes of it. *)
Lemma decrypt_first (t : string) (s : state) :
  decrypt cipher_suite (VStr t) s
    = (decrypt_str cipher_suite t, State (trace s ++ [Decrypt t]) (reads s)).
Proof. reflexivity. Qed.

Lemma client_first (t : string) (r cc : pyval) (s : state) :
  exists res T n,
    create_audible_client cipher_suite audible (VStr t) r cc s
      = (res, State (trace s ++ Decrypt t :: T) n).
Proof.
  unfold create_audible_client. unfold bind at 1. rewrite decrypt_first.
  destruct (decrypt_str cipher_suite t) as [a|e].
  - match goal with |- context [bind ?c ?k ?s0] =>
      assert (He : emits anything (bind c k)) by
        (unfold decrypt; emitting);
      destruct (He s0) as (res & out & n & E & _); rewrite E end.
    cbn [trace]. exists res, out, n. now rewrite <- app_assoc.
  - exists (Raise e), [], (reads s). reflexivity.
Qed.

(** C2.  With a secret configured, a request to any endpoint but /health
    whose X-API-Secret header is absent or is not the secret is answered 401
    and leaves an empty trace: no decryption, no call into the library.  With
    no secret configured every caller is accepted: [verify_api_secret] is true
    of every header value and the header plays no part in the handling; no
    route ever answers with the refusal, and the one 401 left is the answer to
    an expired token; a request without a required field gets the 400 of the
    validation that follows the check; and a request that has its fields is
    acted upon, /api/auth calling [Locale] and the other routes decrypting
    their first token. *)
Theorem secret_gate (ep : endpoint) (req : request) :
  (API_SECRET <> "" -> ep <> Health -> header_secret req <> Some API_SECRET ->
   handle API_SECRET cipher_suite audible w ep req = (Ok unauthorized, []) /\
   snd unauthorized = 401) /\
  (forall s, verify_api_secret "" s = true) /\
  (forall h, handle "" cipher_suite audible w ep (Request h (get_json req))
             = handle "" cipher_suite audible w ep req) /\
  (forall r, fst (handle "" cipher_suite audible w ep req) = Ok r ->
             r <> unauthorized /\ (snd r = 401 -> r = needs_auth_response)) /\
  (forall m,
      get_json req = Ok (VDict m) ->
      (exists k, In k (required_fields ep) /\ missing m k) ->
      handle "" cipher_suite audible w ep req
        = (Ok (failure (validation_error ep) 400), [])) /\
  (forall m ev,
      get_json req = Ok (VDict m) ->
      (forall k, In k (required_fields ep) -> truthy (default VNone (m !! k)) = true) ->
      first_step ep m = Some ev ->
      exists rest, snd (handle "" cipher_suite audible w ep req) = ev :: rest).
Proof.
  split; [|split; [|split; [|split; [|split]]]].
  - intros Hconf Hep Hreq. split; [|reflexivity].
    pose proof (verify_rejects API_SECRET req Hconf Hreq) as Hv.
    destruct ep; [congruence| | | |];
      unfold handle, serve, authenticate, get_library, get_progress,
        refresh_token_endpoint, try_except;
      rewrite Hv; reflexivity.
  - exact verify_accepts_all.
  - intros h. destruct ep; reflexivity.
  - intros r Hr. unfold handle in Hr.
    pose proof (open_service_accepts ep req initial) as Hy.
    destruct (serve _ _ _ _ _ _ _) as [r' s']. cbn [fst] in Hr, Hy. subst r'.
    exact Hy.
  - intros m Hj Hk. apply missing_field_400 with (m := m); [reflexivity | exact Hj | exact Hk].
  - intros m ev Hj Hreq Hev.
    assert (Hsnd : forall (c : prog state response),
               snd (let '(r0, s0) := c initial in (r0, trace s0)) = trace (snd (c initial))).
    { intros c. now destruct (c initial). }
    unfold handle. rewrite Hsnd.
    destruct ep; cbn [first_step first_token] in Hev; cbn [required_fields] in Hreq;
      [discriminate| | | |]; cbn [serve].
    + injection Hev as <-.
      pose proof (Hreq "email" ltac:(cbn; tauto)) as H1.
      pose proof (Hreq "password" ltac:(cbn; tauto)) as H2.
      unfold authenticate. rewrite verify_accepts_all. cbn [negb].
      rewrite Hj, !bind_lift_Ok. cbn [py_get]. rewrite !bind_lift_Ok, H1, H2.
      cbn [negb orb].
      match goal with |- context [try_except (bind ?C ?K) ?h initial] =>
        destruct (starts_with C K h initial
                    (Locale audible (default (VStr "us") (m !! "country_code")))
                    [CallLocale (default (VStr "us") (m !! "country_code"))] 0%nat)
          as (rest & Hrest) end.
      * reflexivity.
      * intros a. unfold utcnow_plus_1h, encrypt. emitting.
      * apply emits_login_handlers.
      * exists rest. exact Hrest.
    + destruct (m !! "access_token") as [[| | | |t| |]|] eqn:Ha; try discriminate.
      injection Hev as <-.
      pose proof (Hreq "access_token" ltac:(cbn; tauto)) as H1.
      pose proof (Hreq "refresh_token" ltac:(cbn; tauto)) as H2.
      unfold get_library. rewrite verify_accepts_all. cbn [negb].
      rewrite Hj, !bind_lift_Ok. cbn [py_get]. rewrite !bind_lift_Ok, H1, H2.
      cbn [negb orb]. rewrite Ha. cbn [default from_option id].
      destruct (client_first t (default VNone (m !! "refresh_token"))
                  (default (VStr "us") (m !! "country_code")) initial)
        as (res & T & n & Hc).
      match goal with |- context [try_except (bind ?C ?K) ?h initial] =>
        destruct (starts_with C K h initial res (Decrypt t :: T) n Hc)
          as (rest & Hrest) end.
      * intros a. emitting.
      * apply emits_handlers.
      * exists (T ++ rest). exact Hrest.
    + destruct (m !! "access_token") as [[| | | |t| |]|] eqn:Ha; try discriminate.
      injection Hev as <-.
      pose proof (Hreq "access_token" ltac:(cbn; tauto)) as H1.
      pose proof (Hreq "refresh_token" ltac:(cbn; tauto)) as H2.
      unfold get_progress. rewrite verify_accepts_all. cbn [negb].
      rewrite Hj, !bind_lift_Ok. cbn [py_get]. rewrite !bind_lift_Ok, H1, H2.
      cbn [negb orb]. rewrite Ha. cbn [default from_option id].
      destruct (client_first t (default VNone (m !! "refresh_token"))
                  (default (VStr "us") (m !! "country_code")) initial)
        as (res & T & n & Hc).
      match goal with |- context [try_except (bind ?C ?K) ?h initial] =>
        destruct (starts_with C K h initial res (Decrypt t :: T) n Hc)
          as (rest & Hrest) end.
      * intros a. emitting.
      * apply emits_handlers.
      * exists (T ++ rest). exact Hrest.
    + destruct (m !! "refresh_token") as [[| | | |t| |]|] eqn:Ha; try discriminate.
      injection Hev as <-.
      pose proof (Hreq "refresh_token" ltac:(cbn; tauto)) as H2.
      unfold refresh_token_endpoint. rewrite verify_accepts_all. cbn [negb].
      rewrite Hj, !bind_lift_Ok. cbn [py_get]. rewrite !bind_lift_Ok, H2.
      cbn [negb]. rewrite Ha. cbn [default from_option id].
      match goal with |- context [try_except (bind ?C ?K) ?h initial] =>
        destruct (starts_with C K h initial (decrypt_str cipher_suite t)
                    [Decrypt t] 0%nat (decrypt_first t initial))
          as (rest & Hrest) end.
      * intros a. unfold utcnow_plus_1h, encrypt. emitting.
      * intros e k. unfold except_Exception, generic_error.
        destruct (is_Exception _); intros [= <-]. apply emits_ret.
      * exists rest. exact Hrest.
Qed.

End Gate.

(** *** Refreshing the access token (lines 434-453) *)

Section Refresh.
Variable API_SECRET : string.
Variable cipher_suite : Fernet.suite.
Variable audible : upstream.
Variable w : world.
Hypothesis fernet : Fernet.laws cipher_suite.

(** X8.  A refresh that goes through.  When the refresh token decrypts and
    [Authenticator.from_login_external] (called with an empty access token)
    and [refresh_access_token] return, the answer is 200 with a token that
    decrypts to the authenticator's new access token and an [expires_at] one
    hour after the first reading of the clock.  No refresh token is returned.
    The calls are, in this order: one decryption, [Locale],
    [from_login_external], [refresh_access_token], one encryption. *)
Theorem refresh_issues_access_token (req : request) (m : gmap string pyval)
    (r_enc r : string) (loc : locale) (auth auth' : authenticator) :
  let country_code := default (VStr "us") (m !! "country_code") in
  verify_api_secret API_SECRET (api_secret_of req) = true ->
  get_json req = Ok (VDict m) ->
  m !! "refresh_token" = Some (VStr r_enc) -> r_enc <> "" ->
  decrypt_str cipher_suite r_enc = Ok r ->
  Locale audible country_code = Ok loc ->
  from_login_external audible "" r loc = Ok auth ->
  refresh_access_token audible auth = Ok auth' ->
  readings_ok w 2 -> wf_str (access_token auth') ->
  exists a,
    handle API_SECRET cipher_suite audible w ApiRefreshToken req
      = (Ok (jsonify [("success", VBool true); ("access_token", VStr a);
                      ("expires_at", expiry w)], 200),
         [Decrypt r_enc; CallLocale country_code; CallFromLoginExternal "" r;
          CallRefreshAccessToken; Encrypt (access_token auth')]) /\
    decrypt_str cipher_suite a = Ok (access_token auth').
Proof.
  intros country_code Hv Hj Hr Hrne Hdr Hloc Hext Href Hw Wa.
  set (t0 := [Decrypt r_enc; CallLocale country_code; CallFromLoginExternal "" r;
              CallRefreshAccessToken]).
  destruct (encrypt_runs cipher_suite w fernet (access_token auth') t0 1
              (Hw 1%nat ltac:(lia))) as (a & Ea & Da & _).
  exists a. split; [|now apply Da].
  apply String.eqb_neq in Hrne.
  unfold handle, serve, refresh_token_endpoint, try_except.
  cbv [bind lift ret py_get]. rewrite Hv, Hj. cbn [negb]. rewrite Hr.
  cbn [default truthy from_option id]. rewrite Hrne. cbn [negb].
  fold country_code.
  cbv [decrypt call bind emit modify lift utcnow_plus_1h next_read ret initial].
  cbn [trace reads app].
  rewrite Hdr, Hloc, Hext, Href. fold t0. rewrite Ea. reflexivity.
Qed.

End Refresh.

(** *** The theorems at work on the stand-in surroundings *)

Lemma toy_readings_ok : readings_ok Sim.toy_world 4.
Proof.
  intros n Hn. split; [|apply repeat_length].
  cbn [clock_us Sim.toy_world]. change (2 ^ 64) with 18446744073709551616.
  split; [apply Z.div_pos; lia | apply Z.div_lt_upper_bound; lia].
Qed.

Lemma toy_never_empty : never_empty Sim.toy_fernet.
Proof. intros t iv m _. cbn. discriminate. Qed.

(** The token the stand-in cipher makes of "r" at time 7 with the IV 09..09. *)
Definition token_r : string := "8000000000000000070909090909090909090909090909090928".

(** A library that knows one user and one book. *)
Definition one_user : authenticator :=
  Authenticator "Atna|access" "Atnr|refresh" {[ "device_serial_number" := "SERIAL01" ]}.

Definition dune : item :=
  Item (Some "B002V0QK4C")
       (Product None (Some 36000) (Some "Dune") [Contributor (Some "Frank Herbert")]
                [] ∅ None None)
       (LastPosition (Some 36000) (Some "Finished")).

Definition one_book : upstream :=
  Sim.scripted (Ok one_user) (Ok (LibraryResponse (Some [dune]))) (Ok one_user).

Definition login_request : request :=
  Request None (Ok (VDict {[ "email" := VStr "a@b.com"; "password" := VStr "secret" ]})).

Definition token_request : request :=
  Request None (Ok (VDict {[ "access_token" := VStr token_r;
                             "refresh_token" := VStr token_r ]})).

Lemma token_request_signed_in :
  signed_in "" Sim.toy_fernet one_book token_request
            {[ "access_token" := VStr token_r; "refresh_token" := VStr token_r ]}
            token_r token_r (Authenticator "r" "r" ∅).
Proof.
  split; try reflexivity; try discriminate.
  exists "r", "r", "us". repeat split; vm_compute; reflexivity.
Qed.

Lemma one_book_well_behaved : well_behaved one_book.
Proof.
  repeat split; intros; try exact I. now destruct cc.
Qed.

Lemma renamed_well_behaved : well_behaved (Sim.renamed one_book).
Proof.
  repeat split; intros; try exact I. now destruct cc.
Qed.

(** The gate at work: the secret is "s3cret", the caller sends "guess". *)
Lemma secret_gate_witness :
  handle "s3cret" Sim.toy_fernet
         (Sim.scripted (Raise (Exn BadRequest "")) (Raise (Exn BadRequest ""))
                       (Raise (Exn BadRequest "")))
         Sim.toy_world ApiLibrary
         (Request (Some "guess") (Ok (VDict {[ "access_token" := VStr "a" ]})))
  = (Ok unauthorized, []).
Proof.
  refine (proj1 (proj1 (secret_gate "s3cret" _ _ _ ApiLibrary _) _ _ _));
    discriminate.
Defined.

(** A library request whose body is a list, against a package without
    [UnauthorizedRequest]: the view function raises, Flask answers. *)
Lemma every_request_is_answered_witness :
  exists r,
    fst (respond "s3cret" Sim.toy_fernet (Sim.renamed one_book) Sim.toy_world false
           ApiLibrary (Request (Some "s3cret") (Ok (VList []))))
      = Ok r /\
    well_formed ApiLibrary r /\
    (resolves (Sim.renamed one_book) ApiLibrary = true ->
     fst (handle "s3cret" Sim.toy_fernet (Sim.renamed one_book) Sim.toy_world
            ApiLibrary (Request (Some "s3cret") (Ok (VList []))))
       = Ok r) /\
    (forall e,
        fst (handle "s3cret" Sim.toy_fernet (Sim.renamed one_book) Sim.toy_world
               ApiLibrary (Request (Some "s3cret") (Ok (VList []))))
          = Raise e ->
        r = internal_error /\
        exists name,
          clause_name ApiLibrary = Some name /\
          defines (Sim.renamed one_book) name = false /\ e = no_attribute name).
Proof.
  apply (every_request_is_answered "s3cret" Sim.toy_fernet (Sim.renamed one_book)
           Sim.toy_world renamed_well_behaved ApiLibrary).
  exact I.
Defined.

Lemma login_issues_encrypted_tokens_witness :
  exists a r d,
    handle "" Sim.toy_fernet one_book Sim.toy_world ApiAuth login_request
      = (Ok (jsonify [("success", VBool true); ("access_token", VStr a);
                      ("refresh_token", VStr r); ("device_serial", VStr d);
                      ("expires_at", expiry Sim.toy_world)], 200),
         [CallLocale (VStr "us"); CallFromLogin (VStr "a@b.com") (VStr "secret");
          Encrypt "Atna|access"; Encrypt "Atnr|refresh"; Encrypt "SERIAL01"]) /\
    decrypt_str Sim.toy_fernet a = Ok "Atna|access" /\
    decrypt_str Sim.toy_fernet r = Ok "Atnr|refresh" /\
    decrypt_str Sim.toy_fernet d = Ok "SERIAL01".
Proof.
  refine (login_issues_encrypted_tokens "" Sim.toy_fernet one_book Sim.toy_world
            SimFacts.toy_laws login_request
            {[ "email" := VStr "a@b.com"; "password" := VStr "secret" ]}
            "us" one_user _ _ _ _ _ _ toy_readings_ok _ _ _); reflexivity.
Defined.

Lemma issued_tokens_reach_the_library_witness :
  exists a r body,
    fst (handle "" Sim.toy_fernet one_book Sim.toy_world ApiAuth login_request)
      = Ok (VDict body, 200) /\
    body !! "access_token" = Some (VStr a) /\
    body !! "refresh_token" = Some (VStr r) /\
    forall (req' : request) (m' : gmap string pyval) (loc' : locale),
      verify_api_secret "" (api_secret_of req') = true ->
      get_json req' = Ok (VDict m') ->
      m' !! "access_token" = Some (VStr a) ->
      m' !! "refresh_token" = Some (VStr r) ->
      Locale one_book (default (VStr "us") (m' !! "country_code")) = Ok loc' ->
      exists rest,
        snd (handle "" Sim.toy_fernet one_book Sim.toy_world ApiLibrary req')
          = [Decrypt a; Decrypt r;
             CallLocale (default (VStr "us") (m' !! "country_code"));
             CallFromLoginExternal "Atna|access" "Atnr|refresh"] ++ rest.
Proof.
  refine (issued_tokens_reach_the_library "" Sim.toy_fernet one_book Sim.toy_world
            SimFacts.toy_laws login_request
            {[ "email" := VStr "a@b.com"; "password" := VStr "secret" ]}
            "us" one_user ApiLibrary _ _ _ _ _ _ toy_readings_ok toy_never_empty _ _ _);
    first [reflexivity | now left].
Defined.

Lemma library_lists_every_item_witness :
  exists books,
    fst (handle "" Sim.toy_fernet one_book Sim.toy_world ApiLibrary token_request)
      = Ok (jsonify [("success", VBool true); ("books", VList books);
                     ("total_count", VInt 1)], 200) /\
    Forall2 entry_of [dune] books.
Proof.
  refine (library_lists_every_item "" Sim.toy_fernet one_book Sim.toy_world
            token_request _ token_r token_r (Authenticator "r" "r" ∅)
            (LibraryResponse (Some [dune])) token_request_signed_in _ _).
  - reflexivity.
  - repeat constructor. vm_compute. intros [=].
Defined.

Lemma progress_of_first_item_witness :
  exists p,
    percent_complete 36000 0 = Ok p /\ 0 <= p <= 100 /\
    fst (handle "" Sim.toy_fernet one_book Sim.toy_world (ApiProgress "B002V0QK4C")
           token_request)
      = Ok (jsonify [("success", VBool true); ("asin", VStr "B002V0QK4C");
                     ("position_seconds", VInt 36000);
                     ("percent_complete", VInt p);
                     ("is_finished", VBool true)], 200).
Proof.
  refine (progress_of_first_item "" Sim.toy_fernet one_book Sim.toy_world "B002V0QK4C"
            token_request _ token_r token_r (Authenticator "r" "r" ∅)
            (LibraryResponse (Some [dune])) token_request_signed_in _ _).
  - reflexivity.
  - split; [vm_compute; intros [=] | reflexivity].
Defined.

Lemma progress_ignores_runtime_seconds_witness :
  fst (handle "" Sim.toy_fernet one_book Sim.toy_world (ApiProgress "B002V0QK4C")
         token_request)
    = Ok (jsonify [("success", VBool true); ("asin", VStr "B002V0QK4C");
                   ("position_seconds", VInt 36000);
                   ("percent_complete", VInt 0);
                   ("is_finished", VBool true)], 200) /\
  (forall sec,
      Some 36000 = Some sec -> 60 <= sec -> sec <= 36000 < 2 ^ 1015 ->
      exists d,
        book_of_item dune = Ok (VDict d) /\
        d !! "runtime_length_min" = Some (VInt (sec / 60)) /\
        d !! "percent_complete" = Some (VInt 100)).
Proof.
  refine (progress_ignores_runtime_seconds "" Sim.toy_fernet one_book Sim.toy_world
            "B002V0QK4C" token_request _ token_r token_r (Authenticator "r" "r" ∅)
            (LibraryResponse (Some [dune])) dune [] token_request_signed_in _ _ _).
  - reflexivity.
  - reflexivity.
  - now left.
Defined.

(** A library request with an access token that is no token, against a
    package without [UnauthorizedRequest]. *)
Lemma undecryptable_token_is_500_witness :
  reported_500 "" Sim.toy_fernet (Sim.renamed one_book) Sim.toy_world ApiLibrary
    (Request None (Ok (VDict {[ "access_token" := VStr "not a token";
                                "refresh_token" := VStr token_r ]})))
    "Library fetch error: " [Decrypt "not a token"].
Proof.
  refine (undecryptable_token_is_500 "" Sim.toy_fernet (Sim.renamed one_book)
            Sim.toy_world ApiLibrary
            (Request None (Ok (VDict {[ "access_token" := VStr "not a token";
                                        "refresh_token" := VStr token_r ]})))
            {[ "access_token" := VStr "not a token"; "refresh_token" := VStr token_r ]}
            (VStr "not a token") _ _ _ _ _ _ _); try discriminate; try reflexivity.
  intros k [<-|[<-|[]]]; reflexivity.
Defined.

Lemma refresh_issues_access_token_witness :
  exists a,
    handle "" Sim.toy_fernet one_book Sim.toy_world ApiRefreshToken
           (Request None (Ok (VDict {[ "refresh_token" := VStr token_r ]})))
      = (Ok (jsonify [("success", VBool true); ("access_token", VStr a);
                      ("expires_at", expiry Sim.toy_world)], 200),
         [Decrypt token_r; CallLocale (VStr "us"); CallFromLoginExternal "" "r";
          CallRefreshAccessToken; Encrypt "Atna|access"]) /\
    decrypt_str Sim.toy_fernet a = Ok "Atna|access".
Proof.
  refine (refresh_issues_access_token "" Sim.toy_fernet one_book Sim.toy_world
            SimFacts.toy_laws
            (Request None (Ok (VDict {[ "refresh_token" := VStr token_r ]})))
            {[ "refresh_token" := VStr token_r ]}
            token_r "r" "us" (Authenticator "" "r" ∅) one_user
            _ _ _ _ _ _ _ _ _ _); try discriminate; try reflexivity.
  intros n Hn. apply toy_readings_ok. lia.
Defined.

End ServiceFlows.

(** ** The diagnostic script: the network, the prompt and the data points *)

Module ScriptFacts.
Import Py PyFacts ProgFacts Tuya TuyaFacts.
Local Open Scope py_scope.
Local Open Scope list_scope.

(** *** Programs that stay off the network *)

Section Offline.
Context {W : Type}.

(** [offline c]: [c] leaves the network and stdin as they are. *)
Definition offline {A} (c : prog (state W) A) : Prop :=
  forall s, net (snd (c s)) = net s /\ stdin (snd (c s)) = stdin s.

Lemma offline_ret {A} (a : A) : offline (ret a).
Proof. intros s. split; reflexivity. Qed.

Lemma offline_lift {A} (r : result A) : offline (lift r).
Proof. intros s. split; reflexivity. Qed.

Lemma offline_print (l : line) : offline (print l).
Proof. intros s. split; reflexivity. Qed.

Lemma offline_bind {A B} (c : prog (state W) A) (k : A -> prog (state W) B) :
  offline c -> (forall a, offline (k a)) -> offline (bind c k).
Proof.
  intros Hc Hk s. specialize (Hc s). unfold bind.
  destruct (c s) as [[a|e] s']; cbn [snd] in *; [|exact Hc].
  destruct (Hk a s') as [H1 H2]. destruct Hc as [H3 H4]. split; congruence.
Qed.

Lemma offline_when_in (key : string) (dps : pyval) (body : pyval -> prog (state W) unit) :
  (forall v, offline (body v)) -> offline (when_in key dps body).
Proof.
  intros Hb. unfold when_in. apply offline_bind; [apply offline_lift|].
  intros [|]; [|apply offline_ret].
  apply offline_bind; [apply offline_lift | exact Hb].
Qed.

Lemma show_data_points_offline (data : pyval) : offline (show_data_points (W := W) data).
Proof.
  unfold show_data_points.
  repeat (cbv beta;
          first [ match goal with |- offline (if ?b then _ else _) => destruct b end
                | apply offline_ret
                | apply offline_lift
                | apply offline_print
                | apply offline_when_in; intros ?
                | apply offline_bind; [|intros ?] ]).
Qed.

End Offline.

(** [response.lower() == 'y'] holds of the answers "y" and "Y" alone. *)
Lemma lower_is_y (ans : string) :
  String.eqb (lower ans) "y" = true <-> ans = "y" \/ ans = "Y".
Proof.
  split.
  - intros H. apply String.eqb_eq in H.
    destruct ans as [|c [|c' rest]]; cbn [lower] in H; try discriminate.
    injection H as H.
    destruct c as [[] [] [] [] [] [] [] []]; vm_compute in H; try discriminate; auto.
  - intros [-> | ->]; reflexivity.
Qed.

Section Consent.
Context {W : Type}.
Variable lib : tinytuya W.
Variable DEVICE_CONFIG : config.

(** The connection test goes to the network once, for the status. *)
Lemma test_connection_net (s : state W) (r : result pyval) (n' : W) :
  status lib (set_socketTimeout (OutletDevice DEVICE_CONFIG) 5) (net s) = (r, n') ->
  net (snd (test_connection lib DEVICE_CONFIG s)) = n' /\
  stdin (snd (test_connection lib DEVICE_CONFIG s)) = stdin s.
Proof.
  intros Hst. unfold test_connection.
  cbv [bind print modify try_except on_net ret]. cbn [stdout stdin net].
  rewrite Hst. destruct r as [data|e].
  2:{ unfold except_Exception. destruct (is_Exception _); cbn; auto. }
  destruct (truthy data); cbn [negb stdout stdin net snd]; [|auto].
  match goal with |- context [show_data_points data ?S] =>
    destruct (show_data_points_offline data S) as [H1 H2];
    destruct (show_data_points data S) as [[[]|e] s2] end;
    cbn [snd stdout stdin net] in *; [auto|].
  unfold except_Exception. destruct (is_Exception _); cbn; auto.
Qed.

(** X14.  No command without consent.  With a device id filled in, unless
    the first line typed at the prompt is "y" or "Y", the script sends nothing
    to the device beyond the one status request of the connection test: the
    network is left as that request left it.  This holds whatever the device
    answers and whatever stdin holds, an empty stdin included. *)
Theorem no_toggle_without_consent (keys : list string) (n n' : W) (r : result pyval) :
  dev_id DEVICE_CONFIG <> "YOUR_DEVICE_ID_HERE" ->
  status lib (set_socketTimeout (OutletDevice DEVICE_CONFIG) 5) n = (r, n') ->
  (forall ans rest, keys = ans :: rest -> ans <> "y" /\ ans <> "Y") ->
  snd (run lib DEVICE_CONFIG keys n) = n'.
Proof.
  intros Hid Hst Hans. unfold run, main.
  apply String.eqb_neq in Hid. rewrite Hid.
  unfold bind at 1.
  destruct (test_connection_net (State [] keys n) r n' Hst) as [Hnet Hin].
  destruct (test_connection lib DEVICE_CONFIG (State [] keys n)) as [[[|]|e] [out i n1]];
    cbn [snd stdout stdin net] in Hnet, Hin; subst i n1; [| |reflexivity].
  - unfold input. cbv [bind print modify]. cbn [stdout stdin net].
    destruct keys as [|ans rest]; [reflexivity|].
    destruct (Hans ans rest eq_refl) as [Hy HY].
    destruct (String.eqb (lower ans) "y") eqn:E.
    + apply lower_is_y in E. tauto.
    + reflexivity.
  - reflexivity.
Qed.

End Consent.

(** *** The check of the configuration (lines 171-191) *)

Section Output.
Context {W : Type}.

(** [grows c]: whatever it does, [c] only adds to what was printed. *)
Definition grows {A} (c : prog (state W) A) : Prop :=
  forall s, exists out, stdout (snd (c s)) = stdout s ++ out.

Lemma grows_ret {A} (a : A) : grows (ret a).
Proof. intros s. exists []. cbn. now rewrite app_nil_r. Qed.

Lemma grows_lift {A} (r : result A) : grows (lift r).
Proof. intros s. exists []. cbn. now rewrite app_nil_r. Qed.

Lemma grows_print (l : line) : grows (print l).
Proof. intros s. now exists [l]. Qed.

Lemma grows_on_net {A} (c : prog W A) : grows (on_net c).
Proof.
  intros s. exists []. unfold on_net. destruct (c (net s)). cbn.
  now rewrite app_nil_r.
Qed.

Lemma grows_time_sleep (lib : tinytuya W) (z : Z) : grows (time_sleep lib z).
Proof. intros s. exists []. cbn. now rewrite app_nil_r. Qed.

Lemma grows_bind {A B} (c : prog (state W) A) (k : A -> prog (state W) B) :
  grows c -> (forall a, grows (k a)) -> grows (bind c k).
Proof.
  intros Hc Hk s. destruct (Hc s) as (out & Ho). unfold bind.
  destruct (c s) as [[a|e] s']; cbn [snd] in *; [|now exists out].
  destruct (Hk a s') as (out' & Ho'). exists (out ++ out').
  now rewrite Ho', Ho, app_assoc.
Qed.

Lemma grows_try {A} (c : prog (state W) A) (h : exn -> prog (state W) A) :
  grows c -> (forall e, grows (h e)) -> grows (try_except c (except_Exception h)).
Proof.
  intros Hc Hh s. destruct (Hc s) as (out & Ho). unfold try_except, except_Exception.
  destruct (c s) as [[a|e] s']; cbn [snd] in *; [now exists out|].
  destruct (is_Exception (exn_cls e)); [|now exists out].
  destruct (Hh e s') as (out' & Ho'). exists (out ++ out').
  now rewrite Ho', Ho, app_assoc.
Qed.

Lemma grows_input (prompt : string) : grows (input (W := W) prompt).
Proof.
  intros s. exists [Prompt prompt]. unfold input. cbv [bind print modify].
  cbn [stdin stdout net]. now destruct (stdin s).
Qed.

Lemma grows_when_in (key : string) (dps : pyval) (body : pyval -> prog (state W) unit) :
  (forall v, grows (body v)) -> grows (when_in key dps body).
Proof.
  intros Hb. unfold when_in. apply grows_bind; [apply grows_lift|].
  intros [|]; [|apply grows_ret].
  apply grows_bind; [apply grows_lift | exact Hb].
Qed.

End Output.

Ltac growing :=
  repeat
    (cbv beta;
     lazymatch goal with
     | |- grows (if ?b then _ else _) => destruct b
     | |- grows (bind _ _) => apply grows_bind; [|intros ?]
     | |- grows (try_except _ _) => apply grows_try; [|intros ?]
     | |- grows (when_in _ _ _) => apply grows_when_in; intros ?
     | |- grows (ret _) => apply grows_ret
     | |- grows (lift _) => apply grows_lift
     | |- grows (print _) => apply grows_print
     | |- grows (on_net _) => apply grows_on_net
     | |- grows (time_sleep _ _) => apply grows_time_sleep
     | |- grows (input _) => apply grows_input
     end).

Section Placeholder.
Context {W : Type}.
Variable lib : tinytuya W.
Variable DEVICE_CONFIG : config.

(** The question the script asks after a connection test that passed. *)
Definition question : line :=
  Prompt (newline +:+ "Test device control (turn on/off)? [y/N]: ").

(** The connection test begins with its banner and the announcement of the
    status request, whatever the library does. *)
Lemma test_connection_starts (s : state W) :
  exists out,
    stdout (snd (test_connection lib DEVICE_CONFIG s))
      = stdout s ++ connection_banner DEVICE_CONFIG ++
        Text "Fetching device status..." :: out.
Proof.
  unfold test_connection.
  match goal with |- context [try_except (bind _ ?k) ?h] =>
    assert (Hrest : grows (try_except (k tt) h)) by (unfold show_data_points; growing)
  end.
  cbv [bind print modify]. cbn [stdout stdin net].
  match goal with |- context [try_except _ _ ?S] =>
    destruct (Hrest (State (stdout S ++ [Text "Fetching device status..."])
                           (stdin S) (net S))) as (out & Ho) end.
  cbn [stdout stdin net] in Ho.
  exists out.
  match type of Ho with stdout (snd ?L) = _ =>
    match goal with |- stdout (snd ?R) = _ => change R with L end end.
  rewrite Ho. unfold connection_banner. rewrite <- !app_assoc. reflexivity.
Qed.

(** C8, as amended.  The script refuses to run exactly when the device id
    is left at its placeholder: it then prints the setup message and exits
    with code 1, before the connection test and without touching the network;
    the address, the local key and the protocol version are not looked at.
    With any other device id the connection test runs, whatever the library
    does and whatever stdin holds: the output begins with its banner and the
    announcement of the status request.  If moreover the library raises
    nothing but [Exception]s and the question, which is asked only after a
    connection test that passed, finds a line to read, the script ends with
    the completion text and code 0.  A question asked on an exhausted stdin
    ends the script with [EOFError] and code 1, after the connection test. *)
Theorem placeholder_check (keys : list string) (n : W) :
  (dev_id DEVICE_CONFIG = "YOUR_DEVICE_ID_HERE" ->
   run lib DEVICE_CONFIG keys n = (1, setup_message, n)) /\
  (snd (fst (run lib DEVICE_CONFIG keys n)) = setup_message <->
   dev_id DEVICE_CONFIG = "YOUR_DEVICE_ID_HERE") /\
  (dev_id DEVICE_CONFIG <> "YOUR_DEVICE_ID_HERE" ->
   exists out,
     snd (fst (run lib DEVICE_CONFIG keys n))
       = connection_banner DEVICE_CONFIG ++ Text "Fetching device status..." :: out) /\
  (dev_id DEVICE_CONFIG <> "YOUR_DEVICE_ID_HERE" ->
   polite lib ->
   (fst (test_connection lib DEVICE_CONFIG (State [] keys n)) = Ok true -> keys <> []) ->
   exists out n',
     run lib DEVICE_CONFIG keys n
       = (0, connection_banner DEVICE_CONFIG ++ out ++ completion, n')) /\
  (dev_id DEVICE_CONFIG <> "YOUR_DEVICE_ID_HERE" ->
   forall s1,
     test_connection lib DEVICE_CONFIG (State [] keys n) = (Ok true, s1) ->
     keys = [] ->
     run lib DEVICE_CONFIG keys n = (1, stdout s1 ++ [question], net s1)).
Proof.
  assert (Hruns : dev_id DEVICE_CONFIG <> "YOUR_DEVICE_ID_HERE" ->
            exists out,
              snd (fst (run lib DEVICE_CONFIG keys n))
                = connection_banner DEVICE_CONFIG ++
                  Text "Fetching device status..." :: out).
  { intros Hid. unfold run, main. apply String.eqb_neq in Hid. rewrite Hid.
    match goal with |- context [bind (test_connection lib DEVICE_CONFIG) ?k] =>
      assert (Hk : forall ok, grows (k ok))
        by (intros ok; unfold test_control, switch_of; growing) end.
    unfold bind at 1.
    destruct (test_connection_starts (State [] keys n)) as (out & Ho).
    destruct (test_connection lib DEVICE_CONFIG (State [] keys n)) as [[ok|e] s1];
      cbn [snd stdout app] in Ho.
    - match goal with |- context [bind ?c ?k s1] =>
        destruct (Hk ok s1) as (out' & Ho') end.
      match type of Ho' with stdout (snd ?L) = _ =>
        destruct L as [r2 s2] end.
      cbn [snd fst] in Ho' |- *. exists (out ++ out').
      rewrite Ho', Ho. unfold connection_banner. reflexivity.
    - cbn [snd fst]. exists out. exact Ho. }
  split; [|split; [|split; [|split]]].
  - intros Hid. unfold run, main. rewrite Hid, String.eqb_refl. reflexivity.
  - split.
    + intros Hout. destruct (string_dec (dev_id DEVICE_CONFIG) "YOUR_DEVICE_ID_HERE")
        as [|Hid]; [assumption|].
      destruct (Hruns Hid) as (out & Ho). rewrite Ho in Hout. discriminate.
    + intros Hid. unfold run, main. rewrite Hid, String.eqb_refl. reflexivity.
  - exact Hruns.
  - intros Hid Hp Hkeys. unfold run, main.
    apply String.eqb_neq in Hid. rewrite Hid.
    unfold bind at 1.
    destruct (test_connection_returns lib DEVICE_CONFIG Hp (State [] keys n))
      as (b & out & n1 & E).
    rewrite E in Hkeys |- *. cbn [stdout stdin net app fst] in Hkeys |- *.
    fold question.
    destruct b.
    + destruct keys as [|key rest]; [now destruct (Hkeys eq_refl)|].
      unfold input. cbv [bind print modify]. cbn [stdout stdin net].
      destruct (String.eqb (lower key) "y").
      * match goal with |- context [test_control lib DEVICE_CONFIG ?S] =>
          destruct (test_control_calm lib DEVICE_CONFIG Hp S)
            as ([] & out2 & n2 & E2 & _); rewrite E2 end.
        cbn [stdout stdin net exit_code].
        exists (out ++ [question] ++ out2), n2.
        unfold completion. rewrite <- !app_assoc. reflexivity.
      * cbv [ret]. cbn [stdout stdin net exit_code].
        exists (out ++ [question]), n1.
        unfold completion. rewrite <- !app_assoc. reflexivity.
    + cbv [bind print modify ret]. cbn [stdout stdin net exit_code].
      exists out, n1. unfold completion. rewrite <- !app_assoc. reflexivity.
  - intros Hid s1 Htc ->. unfold run, main.
    apply String.eqb_neq in Hid. rewrite Hid.
    unfold bind at 1. rewrite Htc.
    destruct (status lib (set_socketTimeout (OutletDevice DEVICE_CONFIG) 5) n)
      as [r n'] eqn:Hst.
    destruct (test_connection_net lib DEVICE_CONFIG (State [] [] n) r n' Hst)
      as [_ Hin].
    rewrite Htc in Hin. cbn [snd stdin] in Hin.
    unfold input. cbv [bind print modify]. cbn [stdout stdin net].
    rewrite Hin. reflexivity.
Qed.

End Placeholder.
(** *** A device that does not answer (lines 50-59 and 109-116) *)

(** What the connection test prints after "Fetching device status..." when
    the status request raises, or returns nothing. *)
Definition failure_report (r : result pyval) : list line :=
  match r with
  | Ok _ =>
      [Text "❌ No response from device";
       Text (newline +:+ "TROUBLESHOOTING:");
       Text "1. Check device IP address is correct";
       Text "2. Ensure device is powered on";
       Text "3. Verify local key is correct";
       Text "4. Check firewall isn't blocking ports 6666, 6667"]
  | Raise e =>
      [ErrorLine (exn_str e);
       Text "TROUBLESHOOTING:";
       Text "1. Verify device info is correct";
       Text "2. Check network connectivity";
       Text "3. Ensure local key hasn't changed";
       Text "4. Try rescanning: python -m tinytuya scan"]
  end.

(** The status request failed: it raised an [Exception], or returned a
    value Python takes for false ([None], an empty payload). *)
Definition no_answer (r : result pyval) : Prop :=
  match r with
  | Ok data => truthy data = false
  | Raise e => is_Exception (exn_cls e) = true
  end.

Section Unreachable.
Context {W : Type}.
Variable lib : tinytuya W.
Variable DEVICE_CONFIG : config.

(** X15.  A device that does not answer.  With a device id filled in, when
    the status request raises an [Exception] or returns nothing ([None], an
    empty payload), the script prints the banner, "Fetching device status...",
    the error or "No response" lines with their troubleshooting hints and the
    completion text, and ends with exit code 0.  It does not prompt: stdin is
    left untouched, and the network saw the one status request. *)
Theorem unreachable_device_exits_0 (keys : list string) (n n' : W) (r : result pyval) :
  dev_id DEVICE_CONFIG <> "YOUR_DEVICE_ID_HERE" ->
  status lib (set_socketTimeout (OutletDevice DEVICE_CONFIG) 5) n = (r, n') ->
  no_answer r ->
  let out := connection_banner DEVICE_CONFIG ++
             Text "Fetching device status..." :: failure_report r ++ completion in
  main lib DEVICE_CONFIG (State [] keys n) = (Ok tt, State out keys n') /\
  run lib DEVICE_CONFIG keys n = (0, out, n').
Proof.
  intros Hid Hst Hr out.
  assert (Hmain : main lib DEVICE_CONFIG (State [] keys n) = (Ok tt, State out keys n')).
  { unfold main. apply String.eqb_neq in Hid. rewrite Hid.
    unfold test_connection.
    cbv [bind print modify try_except on_net ret]. cbn [stdout stdin net].
    rewrite Hst. destruct r as [data|e]; cbn [no_answer] in Hr.
    - rewrite Hr. reflexivity.
    - unfold except_Exception. rewrite Hr. reflexivity. }
  split; [exact Hmain|]. unfold run. now rewrite Hmain.
Qed.

End Unreachable.

(** *** The control test on any reported state (lines 131-165) *)

Section Toggle.
Context {W : Type}.
Variable lib : tinytuya W.
Variable DEVICE_CONFIG : config.

(** The command [test_control] sends to bring the switch to [new_state]. *)
Definition command (new_state : bool) : outlet -> prog W pyval :=
  if new_state then turn_on lib else turn_off lib.

Lemma on_net_command (new_state : bool) (d : outlet) :
  (if new_state then on_net (turn_on lib d) else on_net (turn_off lib d))
  = on_net (W := W) (command new_state d).
Proof. now destruct new_state. Qed.

(** X19.  The control test gives up without a state to toggle.  When its
    status request returns nothing or a payload without "dps", [test_control]
    prints "Cannot get device state"; when the request raises an [Exception],
    it prints the control error.  Either way it returns, and sends no command:
    the network saw the one status request. *)
Theorem control_needs_a_state (s : state W) (r : result pyval) (n1 : W) :
  status lib (OutletDevice DEVICE_CONFIG) (net s) = (r, n1) ->
  match r with
  | Ok st => truthy st = false \/ py_contains "dps" st = Ok false
  | Raise e => is_Exception (exn_cls e) = true
  end ->
  test_control lib DEVICE_CONFIG s
    = (Ok tt,
       State (stdout s ++ control_banner ++
              [match r with
               | Ok _ => Text "❌ Cannot get device state"
               | Raise e => ControlError (exn_str e)
               end])
             (stdin s) n1).
Proof.
  intros Hst Hr. unfold test_control.
  cbv [bind print modify try_except on_net ret lift]. cbn [stdout stdin net].
  rewrite Hst.
  assert (Hout : forall l : line,
             ((((stdout s ++ [Text (newline +:+ rule)]) ++ [Text "TESTING DEVICE CONTROL"]) ++
               [Text (rule +:+ newline)]) ++ [Text "Attempting to toggle device..."]) ++ [l]
             = stdout s ++ control_banner ++ [l]).
  { intros l. unfold control_banner. now rewrite <- !app_assoc. }
  destruct r as [st|e].
  - destruct Hr as [Hr|Hr].
    + rewrite Hr. cbn [negb stdout stdin net]. now rewrite Hout.
    + destruct (truthy st); [rewrite Hr|]; cbn [negb stdout stdin net]; now rewrite Hout.
  - unfold except_Exception. rewrite Hr. cbn [stdout stdin net]. now rewrite Hout.
Qed.

(** X20.  The toggle, whatever state the device reports.  With data points
    in the first status payload, the current state is the truth value of data
    point "1" (off when the key is absent) and the new state is its opposite:
    [test_control] prints both, sends [turn_on] when the new state is on and
    [turn_off] when it is off, and no other command.  It reports success
    exactly when the command and the second status request both return and
    the re-read state of key "1" equals the new state as Python has it (the
    bool itself, the int 1 or the float 1.0 for on, 0 or 0.0 for off); it
    never reports having turned the switch the other way. *)
Theorem toggle_sends_the_opposite (s : state W) (m dps : gmap string pyval)
    (n1 n2 n3 : W) (rc r2 : result pyval) :
  let device := OutletDevice DEVICE_CONFIG in
  let current_state := default (VBool false) (dps !! "1") in
  let new_state := negb (truthy current_state) in
  status lib device (net s) = (Ok (VDict m), n1) ->
  m !! "dps" = Some (VDict dps) ->
  command new_state device n1 = (rc, n2) ->
  status lib device (sleep lib 2 n2) = (r2, n3) ->
  exists r report,
    test_control lib DEVICE_CONFIG s
      = (r,
         State (stdout s ++ control_banner ++
                [CurrentState (truthy current_state); Turning new_state] ++ report)
               (stdin s)
               (match rc with Ok _ => n3 | Raise _ => n2 end)) /\
    (In (SuccessfullyTurned new_state) report <->
     exists x st2 v,
       rc = Ok x /\ r2 = Ok st2 /\
       reread_switch st2 = Some v /\ equals v new_state) /\
    ~ In (SuccessfullyTurned (negb new_state)) report /\
    (raises_Exception rc -> raises_Exception r2 -> r = Ok tt).
Proof.
  intros device current_state new_state Hst Hm Hcmd Hst2.
  unfold test_control. fold device.
  cbv [bind print modify try_except ret time_sleep switch_of lift].
  cbn [stdout stdin net].
  unfold on_net at 1. cbn [stdout stdin net].
  rewrite Hst. rewrite (dict_with_key_truthy m _ _ Hm). cbn [negb].
  rewrite (contains_present m _ _ Hm). cbn [negb py_getitem].
  rewrite Hm. cbn [py_get]. fold current_state. fold new_state.
  cbn [stdout stdin net].
  clearbody new_state. clearbody current_state.
  rewrite (on_net_command new_state device).
  unfold on_net. cbn [stdout stdin net]. rewrite Hcmd.
  cbn [stdout stdin net].
  assert (Hno : forall (rep : list line),
             (forall l, In l rep ->
                        l = StateMayNotHaveChanged \/ exists msg, l = ControlError msg) ->
             ~ In (SuccessfullyTurned new_state) rep /\
             ~ In (SuccessfullyTurned (negb new_state)) rep).
  { intros rep Hrep. split; intros Hin; destruct (Hrep _ Hin) as [|[? ?]]; discriminate. }
  assert (Herr : forall e, forall l, In l [ControlError (exn_str e)] ->
             l = StateMayNotHaveChanged \/ exists msg, l = ControlError msg).
  { intros e l [<-|[]]. right. eauto. }
  assert (Hout : forall rep : list line,
             ((((((stdout s ++ [Text (newline +:+ rule)]) ++ [Text "TESTING DEVICE CONTROL"]) ++
                 [Text (rule +:+ newline)]) ++ [Text "Attempting to toggle device..."]) ++
               [CurrentState (truthy current_state)]) ++ [Turning new_state]) ++ rep
             = stdout s ++ control_banner ++
               [CurrentState (truthy current_state); Turning new_state] ++ rep).
  { intros rep. unfold control_banner. now rewrite <- !app_assoc. }
  assert (Hout0 :
             (((((stdout s ++ [Text (newline +:+ rule)]) ++ [Text "TESTING DEVICE CONTROL"]) ++
                 [Text (rule +:+ newline)]) ++ [Text "Attempting to toggle device..."]) ++
               [CurrentState (truthy current_state)]) ++ [Turning new_state]
             = stdout s ++ control_banner ++
               [CurrentState (truthy current_state); Turning new_state] ++ []).
  { rewrite <- (Hout []). now rewrite app_nil_r. }
  destruct rc as [x|e].
  2:{ unfold except_Exception.
      destruct (is_Exception (exn_cls e)) eqn:Ee; cbn [stdout stdin net].
      - exists (Ok tt), [ControlError (exn_str e)].
        split; [now rewrite Hout|].
        destruct (Hno _ (Herr e)) as [Ht Hf].
        split; [split; [tauto | intros (? & ? & ? & [=] & _)] |]. split; auto.
      - exists (Raise e), [].
        split; [now rewrite Hout0|].
        split; [split; [intros [] | intros (? & ? & ? & [=] & _)] |].
        split; [intros [] | cbn; congruence]. }
  cbn [stdout stdin net]. rewrite Hst2.
  destruct r2 as [st2|e].
  2:{ unfold except_Exception.
      destruct (is_Exception (exn_cls e)) eqn:Ee; cbn [stdout stdin net].
      - exists (Ok tt), [ControlError (exn_str e)].
        split; [now rewrite Hout|].
        destruct (Hno _ (Herr e)) as [Ht Hf].
        split; [split; [tauto | intros (? & ? & ? & _ & [=] & _)] |]. split; auto.
      - exists (Raise e), [].
        split; [now rewrite Hout0|].
        split; [split; [intros [] | intros (? & ? & ? & _ & [=] & _)] |].
        split; [intros [] | cbn; congruence]. }
  assert (Hspec := reread_switch_spec st2).
  pose proof (py_contains_Exception "dps" st2) as Xc.
  pose proof (py_getitem_Exception st2 "dps") as Xg.
  destruct (truthy st2) eqn:Ht.
  2:{ cbn [stdout stdin net]. exists (Ok tt), [].
      split; [now rewrite Hout0|].
      split; [split; [intros [] | intros (? & ? & v & _ & [= <-] & Hr & _)] |].
      - apply Hspec in Hr as (Hr & _). congruence.
      - split; [intros [] | auto]. }
  destruct (py_contains "dps" st2) as [[|]|e] eqn:Hc.
  3:{ cbn in Xc. unfold except_Exception. rewrite Xc. cbn [stdout stdin net].
      exists (Ok tt), [ControlError (exn_str e)].
      split; [now rewrite Hout|].
      destruct (Hno _ (Herr e)) as [Hn Hf].
      split; [split; [tauto | intros (? & ? & v & _ & [= <-] & Hr & _)] |].
      - apply Hspec in Hr as (_ & Hr & _). congruence.
      - split; auto. }
  2:{ cbn [stdout stdin net]. exists (Ok tt), [].
      split; [now rewrite Hout0|].
      split; [split; [intros [] | intros (? & ? & v & _ & [= <-] & Hr & _)] |].
      - apply Hspec in Hr as (_ & Hr & _). congruence.
      - split; [intros [] | auto]. }
  destruct (py_getitem st2 "dps") as [d|e] eqn:Hg.
  2:{ cbn in Xg. unfold except_Exception. rewrite Xg. cbn [stdout stdin net].
      exists (Ok tt), [ControlError (exn_str e)].
      split; [now rewrite Hout|].
      destruct (Hno _ (Herr e)) as [Hn Hf].
      split; [split; [tauto | intros (? & ? & v & _ & [= <-] & Hr & _)] |].
      - apply Hspec in Hr as (_ & _ & d' & Hr & _). congruence.
      - split; auto. }
  pose proof (py_get_Exception d "1" (VBool false)) as Xp.
  destruct (py_get d "1" (VBool false)) as [v|e] eqn:Hp.
  2:{ cbn in Xp. unfold except_Exception. rewrite Xp. cbn [stdout stdin net].
      exists (Ok tt), [ControlError (exn_str e)].
      split; [now rewrite Hout|].
      destruct (Hno _ (Herr e)) as [Hn Hf].
      split; [split; [tauto | intros (? & ? & v & _ & [= <-] & Hr & _)] |].
      - apply Hspec in Hr as (_ & _ & d' & Hr & Hr'). congruence.
      - split; auto. }
  destruct (py_eq_bool v new_state) eqn:Hb; cbn [stdout stdin net].
  - exists (Ok tt), [SuccessfullyTurned new_state].
    split; [now rewrite Hout|].
    split; [split |].
    + intros _. exists x, st2, v.
      split; [reflexivity|]. split; [reflexivity|].
      split; [|now apply py_eq_bool_equals].
      apply Hspec. split; [reflexivity|]. split; [reflexivity|].
      exists d. split; [reflexivity | exact Hp].
    + intros _. now left.
    + split; [|auto]. intros [H|[]]. injection H. now destruct new_state.
  - exists (Ok tt), [StateMayNotHaveChanged].
    split; [now rewrite Hout|].
    destruct (Hno [StateMayNotHaveChanged]) as [Hn Hf].
    { intros l [<-|[]]. now left. }
    split; [split; [tauto | intros (? & ? & v' & _ & [= <-] & Hr & Hv)] |].
    + apply py_eq_bool_equals in Hv.
      apply Hspec in Hr as (_ & _ & d' & Hr & Hr'). congruence.
    + split; auto.
Qed.

End Toggle.
(** *** The data points (lines 69-103) *)

Section DataPoints.
Context {W : Type}.
Variable lib : tinytuya W.
Variable DEVICE_CONFIG : config.

Lemma bind_print {B} (l : line) (k : unit -> prog (state W) B) (s : state W) :
  bind (print l) k s = k tt (State (stdout s ++ [l]) (stdin s) (net s)).
Proof. reflexivity. Qed.

Lemma when_in_present (key : string) (dps : gmap string pyval) (v : pyval)
    (body : pyval -> prog (state W) unit) :
  dps !! key = Some v -> when_in key (VDict dps) body = body v.
Proof.
  intros H. unfold when_in. rewrite (contains_present dps key v H), bind_lift_Ok.
  cbn [py_getitem]. now rewrite H, bind_lift_Ok.
Qed.

(** With data point "1", the parsing prints its switch-state line and no
    other. *)
Lemma show_data_points_switch (m dps : gmap string pyval) (v : pyval) (s : state W) :
  m !! "dps" = Some (VDict dps) -> dps !! "1" = Some v ->
  exists r out n,
    show_data_points (VDict m) s
      = (r, State (stdout s ++ [Text "Parsed Data Points:"; separator;
                                SwitchState (truthy v)] ++ out) (stdin s) n) /\
    Forall not_switch out /\ raises_Exception r.
Proof.
  intros Hm Hd. unfold show_data_points.
  rewrite (contains_present m "dps" _ Hm), bind_lift_Ok.
  cbn [py_getitem]. rewrite Hm, bind_lift_Ok.
  rewrite !bind_print. rewrite (when_in_present "1" dps v _ Hd), bind_print.
  cbn [stdout stdin net].
  match goal with |- context [bind ?c ?k ?S] =>
    assert (Hq : quiet not_switch (bind c k)) by frame;
    destruct (Hq S) as (r & out & n & E & Hout & Hr); rewrite E end.
  exists r, out, n. cbn [stdout stdin net]. rewrite <- !app_assoc.
  split; [reflexivity | auto].
Qed.

(** X17.  The switch-state line.  When the status payload has data points
    with the key "1", [test_connection] returns and prints exactly one
    switch-state line; the line says ON when the value of the key is one
    Python takes for true, and OFF otherwise. *)
Theorem switch_state_line_shown (s : state W) (m dps : gmap string pyval)
    (v : pyval) (n' : W) :
  status lib (set_socketTimeout (OutletDevice DEVICE_CONFIG) 5) (net s)
    = (Ok (VDict m), n') ->
  m !! "dps" = Some (VDict dps) ->
  dps !! "1" = Some v ->
  exists b before after n'',
    test_connection lib DEVICE_CONFIG s
      = (Ok b, State (stdout s ++ before ++ SwitchState (truthy v) :: after)
                     (stdin s) n'') /\
    Forall not_switch before /\ Forall not_switch after.
Proof.
  intros Hst Hm Hd.
  unfold test_connection.
  cbv [bind print modify try_except on_net ret]. cbn [stdout stdin net].
  rewrite Hst. rewrite (dict_with_key_truthy m _ _ Hm). cbn [negb stdout stdin net].
  match goal with |- context [show_data_points (VDict m) ?S] =>
    destruct (show_data_points_switch m dps v S Hm Hd) as (r & out & n2 & E & Hout & Hr);
    rewrite E end.
  cbn [stdout stdin net] in *.
  set (before := connection_banner DEVICE_CONFIG ++
                 [Text "Fetching device status...";
                  Text ("✓ Device responded!" +:+ newline);
                  Text "Raw Device Data:"; RawDeviceData (VDict m); Text "";
                  Text "Parsed Data Points:"; separator]).
  assert (Hbefore : Forall not_switch before) by (subst before; repeat constructor).
  destruct r as [[]|e].
  - exists true, before,
      (out ++ [Text "✓ LOCAL CONTROL WORKING!";
               Text (newline +:+ "You can now integrate this into your app.")]), n2.
    split; [|split; [exact Hbefore|]].
    + subst before. unfold connection_banner. now rewrite <- !app_assoc.
    + apply Forall_app; split; [assumption | repeat constructor].
  - cbn in Hr. unfold except_Exception. rewrite Hr. cbn [stdout stdin net].
    exists false, before, (out ++ failure_report (Raise e)), n2.
    split; [|split; [exact Hbefore|]].
    + subst before. unfold connection_banner, failure_report. now rewrite <- !app_assoc.
    + apply Forall_app; split; [assumption | repeat constructor].
Qed.

(** [fails P c]: [c] always raises an [Exception], having printed only
    lines that satisfy [P] and read nothing. *)
Definition fails (P : line -> Prop) {A} (c : prog (state W) A) : Prop :=
  forall s, exists e out n,
    c s = (Raise e, State (stdout s ++ out) (stdin s) n) /\
    Forall P out /\ is_Exception (exn_cls e) = true.

Lemma fails_bind_l (P : line -> Prop) {A B} (c : prog (state W) A)
    (k : A -> prog (state W) B) :
  fails P c -> fails P (bind c k).
Proof.
  intros Hc s. destruct (Hc s) as (e & out & n & E & Hout & He).
  exists e, out, n. unfold bind. rewrite E. auto.
Qed.

Lemma fails_bind_r (P : line -> Prop) {A B} (c : prog (state W) A)
    (k : A -> prog (state W) B) :
  quiet P c -> (forall a, fails P (k a)) -> fails P (bind c k).
Proof.
  intros Hc Hk s. destruct (Hc s) as (r & out & n & E & Hout & Hr).
  unfold bind. rewrite E. destruct r as [a|e].
  - destruct (Hk a (State (stdout s ++ out) (stdin s) n)) as (e & out' & n' & E' & Hout' & He).
    exists e, (out ++ out'), n'. rewrite E'. cbn [stdout stdin net].
    rewrite app_assoc. split; [reflexivity|]. split; [now apply Forall_app | exact He].
  - exists e, out, n. auto.
Qed.

(** Values that [/] does not take: [None], strings, lists and objects. *)
Definition not_a_number (v : pyval) : Prop :=
  match v with
  | VNone | VStr _ | VList _ | VDict _ => True
  | _ => False
  end.

Lemma fails_truediv (P : line -> Prop) (v : pyval) (n : Z)
    (k : float -> prog (state W) unit) :
  not_a_number v -> fails P (bind (lift (py_truediv v n)) k).
Proof.
  intros Hv s. destruct v; try contradiction; cbn [py_truediv];
    eexists _, [], (net s); unfold bind, lift; rewrite app_nil_r;
    (split; [destruct s; reflexivity | split; [constructor | reflexivity]]).
Qed.

(** The data points the parsing divides. *)
Definition metered : list string := ["18"; "19"; "20"; "101"].

Lemma show_data_points_fails (m dps : gmap string pyval) (key : string) (v : pyval) :
  m !! "dps" = Some (VDict dps) ->
  In key metered -> dps !! key = Some v -> not_a_number v ->
  fails any_line (show_data_points (W := W) (VDict m)).
Proof.
  intros Hm Hkey Hd Hv. unfold show_data_points.
  rewrite (contains_present m "dps" _ Hm), bind_lift_Ok.
  cbn [py_getitem]. rewrite Hm, bind_lift_Ok.
  apply fails_bind_r; [frame|intros _].
  apply fails_bind_r; [frame|intros _].
  apply fails_bind_r; [frame|intros _].
  unfold metered in Hkey. cbn [In] in Hkey.
  destruct Hkey as [<-|[<-|[<-|[<-|[]]]]].
  - apply fails_bind_l. rewrite (when_in_present _ dps v _ Hd). now apply fails_truediv.
  - apply fails_bind_r; [frame|intros _].
    apply fails_bind_l. rewrite (when_in_present _ dps v _ Hd). now apply fails_truediv.
  - apply fails_bind_r; [frame|intros _].
    apply fails_bind_r; [frame|intros _].
    apply fails_bind_l. rewrite (when_in_present _ dps v _ Hd). now apply fails_truediv.
  - apply fails_bind_r; [frame|intros _].
    apply fails_bind_r; [frame|intros _].
    apply fails_bind_r; [frame|intros _].
    apply fails_bind_l. rewrite (when_in_present _ dps v _ Hd). now apply fails_truediv.
Qed.

(** X18.  A data point that is not a number.  When one of the data points
    "18", "19", "20", "101" is [null], a string, a list or an object, the
    division raises inside [test_connection]: the test prints the error and
    the troubleshooting hints and returns [False], although the device
    answered; the network saw the one status request. *)
Theorem bad_data_point_fails_the_test (s : state W) (m dps : gmap string pyval)
    (key : string) (v : pyval) (n' : W) :
  status lib (set_socketTimeout (OutletDevice DEVICE_CONFIG) 5) (net s)
    = (Ok (VDict m), n') ->
  m !! "dps" = Some (VDict dps) ->
  In key metered -> dps !! key = Some v -> not_a_number v ->
  exists e out,
    test_connection lib DEVICE_CONFIG s
      = (Ok false,
         State (stdout s ++ connection_banner DEVICE_CONFIG ++ out ++
                failure_report (Raise e)) (stdin s) n') /\
    is_Exception (exn_cls e) = true.
Proof.
  intros Hst Hm Hkey Hd Hv.
  destruct (test_connection_net lib DEVICE_CONFIG s _ n' Hst) as [Hnet _].
  revert Hnet. unfold test_connection.
  cbv [bind print modify try_except on_net ret]. cbn [stdout stdin net].
  rewrite Hst. rewrite (dict_with_key_truthy m _ _ Hm). cbn [negb stdout stdin net].
  match goal with |- context [show_data_points (VDict m) ?S] =>
    destruct (show_data_points_fails m dps key v Hm Hkey Hd Hv S)
      as (e & out & n2 & E & _ & He);
    rewrite E end.
  unfold except_Exception. rewrite He. cbn [stdout stdin net snd].
  intros ->. exists e.
  exists ([Text "Fetching device status..."; Text ("✓ Device responded!" +:+ newline);
           Text "Raw Device Data:"; RawDeviceData (VDict m); Text ""] ++ out).
  split; [|exact He].
  unfold connection_banner, failure_report. now rewrite <- !app_assoc.
Qed.

(** X16.  A payload without data points.  When the status request returns
    a non-empty payload without the key "dps" (an error payload of the
    library, say), [test_connection] prints the payload and, skipping the data
    points, "LOCAL CONTROL WORKING!", and returns [True]. *)
Theorem payload_without_dps_passes (s : state W) (m : gmap string pyval) (n' : W) :
  status lib (set_socketTimeout (OutletDevice DEVICE_CONFIG) 5) (net s)
    = (Ok (VDict m), n') ->
  m <> ∅ -> m !! "dps" = None ->
  test_connection lib DEVICE_CONFIG s
    = (Ok true,
       State (stdout s ++ connection_banner DEVICE_CONFIG ++
              [Text "Fetching device status...";
               Text ("✓ Device responded!" +:+ newline);
               Text "Raw Device Data:"; RawDeviceData (VDict m); Text "";
               Text "✓ LOCAL CONTROL WORKING!";
               Text (newline +:+ "You can now integrate this into your app.")])
             (stdin s) n').
Proof.
  intros Hst Hne Hd.
  assert (Ht : truthy (VDict m) = true).
  { cbn. destruct (Nat.eqb_spec (size m) 0) as [E|]; [|reflexivity].
    apply map_size_empty_iff in E. congruence. }
  unfold test_connection.
  cbv [bind print modify try_except on_net ret]. cbn [stdout stdin net].
  rewrite Hst, Ht. cbn [negb stdout stdin net].
  unfold show_data_points. rewrite (contains_absent m "dps" Hd).
  cbv [bind lift ret]. cbn [stdout stdin net].
  unfold connection_banner. now rewrite <- !app_assoc.
Qed.

End DataPoints.

(** *** The theorems at work on the stand-in plugs *)

(** A configuration with the device's details filled in. *)
Definition filled_in : config :=
  Config "bf1234567890abcdef" "192.168.1.50" "0123456789abcdef" version_3_3.

(** A plug that gives no answer, one that answers with an error payload,
    and one whose current reading is [null]. *)
Definition silent_plug : tinytuya bool :=
  TinyTuya (fun _ on => (Ok VNone, on)) (fun _ _ => (Ok VNone, true))
           (fun _ _ => (Ok VNone, false)) (fun _ on => on).

Definition error_payload : gmap string pyval :=
  {[ "Error" := VStr "Network Error: Device Unreachable"; "Err" := VStr "905";
     "Payload" := VNone ]}.

Definition unreachable_plug : tinytuya bool :=
  TinyTuya (fun _ on => (Ok (VDict error_payload), on)) (fun _ _ => (Ok VNone, true))
           (fun _ _ => (Ok VNone, false)) (fun _ on => on).

Definition odd_plug : tinytuya bool :=
  TinyTuya (fun _ on => (Ok (VDict {[ "dps" := VDict {[ "1" := VBool on;
                                                        "18" := VNone ]} ]}), on))
           (fun _ _ => (Ok VNone, true)) (fun _ _ => (Ok VNone, false))
           (fun _ on => on).

(** The shipped configuration is turned away. *)
Lemma placeholder_check_witness :
  run (Sim.plug true) PLACEHOLDER ["y"] false = (1, setup_message, false).
Proof.
  apply (proj1 (placeholder_check (Sim.plug true) PLACEHOLDER ["y"] false)).
  reflexivity.
Defined.

Lemma no_toggle_without_consent_witness :
  snd (run (Sim.plug true) filled_in ["n"] false) = false.
Proof.
  apply (no_toggle_without_consent (Sim.plug true) filled_in ["n"] false false
           (Ok (Sim.plug_status true false))).
  - discriminate.
  - reflexivity.
  - intros ans rest [= <- <-]. split; discriminate.
Defined.

Lemma unreachable_device_exits_0_witness :
  main silent_plug filled_in (State [] ["y"] false)
    = (Ok tt,
       State (connection_banner filled_in ++
              Text "Fetching device status..." :: failure_report (Ok VNone) ++ completion)
             ["y"] false) /\
  run silent_plug filled_in ["y"] false
    = (0, connection_banner filled_in ++
          Text "Fetching device status..." :: failure_report (Ok VNone) ++ completion,
       false).
Proof.
  apply (unreachable_device_exits_0 silent_plug filled_in ["y"] false false (Ok VNone)).
  - discriminate.
  - reflexivity.
  - reflexivity.
Defined.

Lemma control_needs_a_state_witness :
  test_control unreachable_plug filled_in (State [] [] false)
    = (Ok tt, State ([] ++ control_banner ++ [Text "❌ Cannot get device state"]) [] false).
Proof.
  apply (control_needs_a_state unreachable_plug filled_in (State [] [] false)
           (Ok (VDict error_payload)) false).
  - reflexivity.
  - right. reflexivity.
Defined.

Lemma toggle_sends_the_opposite_witness :
  exists r report,
    test_control (Sim.plug true) filled_in (State [] [] true)
      = (r, State ([] ++ control_banner ++
                   [CurrentState true; Turning false] ++ report) [] false) /\
    (In (SuccessfullyTurned false) report <->
     exists x st2 v,
       Ok VNone = Ok x /\ Ok (Sim.plug_status true false) = Ok st2 /\
       reread_switch st2 = Some v /\ equals v false) /\
    ~ In (SuccessfullyTurned true) report /\
    (raises_Exception (Ok VNone) ->
     raises_Exception (Ok (Sim.plug_status true false)) -> r = Ok tt).
Proof.
  refine (toggle_sends_the_opposite (Sim.plug true) filled_in (State [] [] true)
            {[ "dps" := VDict {[ "1" := VBool true; "18" := VInt 120;
                                 "19" := VInt 250; "20" := VInt 1201 ]} ]}
            {[ "1" := VBool true; "18" := VInt 120; "19" := VInt 250;
               "20" := VInt 1201 ]}
            true false false (Ok VNone) (Ok (Sim.plug_status true false))
            _ _ _ _); vm_compute; reflexivity.
Defined.

Lemma switch_state_line_shown_witness :
  exists b before after n'',
    test_connection (Sim.plug true) filled_in (State [] [] true)
      = (Ok b, State ([] ++ before ++ SwitchState true :: after) [] n'') /\
    Forall not_switch before /\ Forall not_switch after.
Proof.
  refine (switch_state_line_shown (Sim.plug true) filled_in (State [] [] true)
            {[ "dps" := VDict {[ "1" := VBool true; "18" := VInt 120;
                                 "19" := VInt 250; "20" := VInt 1201 ]} ]}
            {[ "1" := VBool true; "18" := VInt 120; "19" := VInt 250;
               "20" := VInt 1201 ]}
            (VBool true) true _ _ _); vm_compute; reflexivity.
Defined.

Lemma bad_data_point_fails_the_test_witness :
  exists e out,
    test_connection odd_plug filled_in (State [] [] true)
      = (Ok false,
         State ([] ++ connection_banner filled_in ++ out ++ failure_report (Raise e))
               [] true) /\
    is_Exception (exn_cls e) = true.
Proof.
  refine (bad_data_point_fails_the_test odd_plug filled_in (State [] [] true)
            {[ "dps" := VDict {[ "1" := VBool true; "18" := VNone ]} ]}
            {[ "1" := VBool true; "18" := VNone ]}
            "18" VNone true _ _ _ _ _).
  - vm_compute. reflexivity.
  - vm_compute. reflexivity.
  - left. reflexivity.
  - vm_compute. reflexivity.
  - exact I.
Defined.

Lemma payload_without_dps_passes_witness :
  test_connection unreachable_plug filled_in (State [] [] false)
    = (Ok true,
       State ([] ++ connection_banner filled_in ++
              [Text "Fetching device status...";
               Text ("✓ Device responded!" +:+ newline);
               Text "Raw Device Data:"; RawDeviceData (VDict error_payload); Text "";
               Text "✓ LOCAL CONTROL WORKING!";
               Text (newline +:+ "You can now integrate this into your app.")])
             [] false).
Proof.
  apply (payload_without_dps_passes unreachable_plug filled_in (State [] [] false)
           error_payload false).
  - reflexivity.
  - intros H. apply (f_equal (fun m : gmap string pyval => m !! "Err")) in H.
    vm_compute in H. discriminate.
  - vm_compute. reflexivity.
Defined.

End ScriptFacts.

(** ** Rounding errors of the percentage (lines 256-260, 369-374) *)

Module FloatError.
Import Py FloatFacts FloatOrder.

(** Dropping [k] low bits drops [k] from the bit count. *)
Lemma Zdigits2_div_pow (m k : Z) :
  0 < m -> 0 <= k < Zdigits2 m -> Zdigits2 (m / 2 ^ k) = Zdigits2 m - k.
Proof.
  intros Hm Hk.
  assert (Hp : 0 < 2 ^ k) by (apply Z.pow_pos_nonneg; lia).
  apply Z.le_antisymm.
  - pose proof (Zdigits2_shift m k ltac:(lia) ltac:(lia)). lia.
  - pose proof (Zdigits2_lower m Hm) as Hlow.
    assert (2 ^ (Zdigits2 m - 1 - k) <= m / 2 ^ k).
    { apply Z.div_le_lower_bound; [lia|].
      rewrite <- Z.pow_add_r by lia.
      now replace (k + (Zdigits2 m - 1 - k)) with (Zdigits2 m - 1) by lia. }
    pose proof (Zdigits2_ge (m / 2 ^ k) (Zdigits2 m - 1 - k) ltac:(lia) ltac:(assumption)).
    lia.
Qed.

(** [shr_fexp] on a mantissa of 53 bits or more, in the normal range: the
    bits beyond 53 are shifted out. *)
Lemma shr_fexp_shift (m e : Z) (l : location) :
  0 < m -> 53 <= Zdigits2 m -> -1021 <= Zdigits2 m + e ->
  shr_m (fst (shr_fexp prec emax m e l)) = m / 2 ^ (Zdigits2 m - 53) /\
  snd (shr_fexp prec emax m e l) = e + (Zdigits2 m - 53).
Proof.
  intros Hm Hd He.
  destruct (shr_fexp_exact m e l ltac:(lia)) as [E1 E2]. rewrite E1, E2. clear E1 E2.
  replace (Z.max (Zdigits2 m + e - 53) (-1074) - e) with (Zdigits2 m - 53) by lia.
  destruct (Z.ltb_spec 0 (Zdigits2 m - 53)) as [Hn|Hn]; [split; reflexivity|].
  replace (Zdigits2 m - 53) with 0 by lia. rewrite Z.pow_0_r, Z.div_1_r. split; lia.
Qed.

(** The shape of a rounding in the normal range: the result has 53 bits and
    is one of the two neighbours of the value on the grid of step
    [2^(ex + d - 53)], where [d] is the number of bits of [mx]. *)
Lemma binary_round_aux_shape (mx ex : Z) (lx : location) :
  0 < mx -> 53 <= Zdigits2 mx -> -1021 <= Zdigits2 mx + ex ->
  Zdigits2 mx + ex <= 1022 ->
  let e1 := ex + (Zdigits2 mx - 53) in
  let m1 := mx / 2 ^ (Zdigits2 mx - 53) in
  exists m e,
    binary_round_aux prec emax false mx ex lx = S754_finite false m e /\
    Zdigits2 (Z.pos m) = 53 /\ e1 <= e <= e1 + 1 /\
    2 ^ 52 <= m1 /\
    m1 <= Z.pos m * 2 ^ (e - e1) <= m1 + 1.
Proof.
  intros Hm Hd Hlo Hhi e1 m1. unfold binary_round_aux.
  destruct (shr_fexp_shift mx ex lx Hm Hd Hlo) as [H1 H2].
  destruct (shr_fexp prec emax mx ex lx) as [mrs' e']. cbn [fst snd] in *.
  fold m1 in H1. fold e1 in H2. subst e'.
  pose proof (round_nearest_even_bounds (shr_m mrs') (loc_of_shr_record mrs')) as Hr.
  set (m2 := round_nearest_even (shr_m mrs') (loc_of_shr_record mrs')) in *.
  rewrite H1 in Hr. clear H1.
  assert (Hd1 : Zdigits2 m1 = 53).
  { subst m1. rewrite Zdigits2_div_pow by lia. lia. }
  assert (Hpos1 : 0 < m1).
  { assert (0 <= m1) by (apply Z.div_pos; [lia | apply Z.pow_pos_nonneg; lia]).
    destruct (Z.eq_dec m1 0) as [E0|]; [|lia].
    rewrite E0 in Hd1. discriminate. }
  assert (Hm1 : 2 ^ 52 <= m1 < 2 ^ 53).
  { split.
    - pose proof (Zdigits2_lower m1 Hpos1) as Hl. now rewrite Hd1 in Hl.
    - pose proof (Zdigits2_gt m1 ltac:(lia)) as Hg. now rewrite Hd1 in Hg. }
  assert (Hd2 : 53 <= Zdigits2 m2 <= 54).
  { split.
    - pose proof (Zdigits2_ge m2 52 ltac:(lia) ltac:(lia)). lia.
    - apply Zdigits2_le; [lia | lia |]. change (2 ^ 54) with (2 * 2 ^ 53). lia. }
  destruct (shr_fexp_shift m2 e1 loc_Exact ltac:(lia) ltac:(lia) ltac:(subst e1; lia))
    as [H3 H4].
  destruct (shr_fexp prec emax m2 e1 loc_Exact) as [mrs'' e'']. cbn [fst snd] in *.
  assert (Hcase : Zdigits2 m2 = 53 \/ (Zdigits2 m2 = 54 /\ m2 = 2 ^ 53)).
  { destruct (Z.eq_dec (Zdigits2 m2) 53) as [|Hne]; [now left|right].
    split; [lia|].
    assert (Zdigits2 m2 = 54) by lia.
    pose proof (Zdigits2_lower m2 ltac:(lia)) as Hl. rewrite H in Hl.
    change (2 ^ (54 - 1)) with (2 ^ 53) in Hl. lia. }
  destruct Hcase as [H53 | [H54 Heq]].
  - rewrite H53 in H3, H4. change (53 - 53) with 0 in *.
    rewrite Z.pow_0_r, Z.div_1_r in H3. rewrite H3.
    destruct m2 as [|p|p]; try lia.
    change (emax - prec) with 971.
    destruct (Z.leb_spec e'' 971); [|subst e1; lia].
    exists p, e''. split; [reflexivity|]. split; [exact H53|]. split; [lia|].
    split; [lia|].
    replace (e'' - e1) with 0 by lia. rewrite Z.pow_0_r. lia.
  - rewrite H54 in H3, H4. change (54 - 53) with 1 in *.
    rewrite Heq in H3. change (2 ^ 53 / 2 ^ 1) with (2 ^ 52) in H3. rewrite H3.
    change (2 ^ 52) with (Z.pos 4503599627370496).
    change (emax - prec) with 971.
    destruct (Z.leb_spec e'' 971); [|subst e1; lia].
    exists 4503599627370496%positive, e''. split; [reflexivity|].
    split; [reflexivity|]. split; [lia|]. split; [lia|].
    replace (e'' - e1) with 1 by lia.
    change (Z.pos 4503599627370496 * 2 ^ 1) with (2 ^ 53). lia.
Qed.

(** *** One rounding, as an error bound

    Floats are read on a common scale: [scaled K m e] is [m * 2^e * 2^K],
    an integer when [K] is large enough. *)

Definition scaled (K : Z) (m : positive) (e : Z) : Z := Z.pos m * 2 ^ (e + K).

Lemma pow_split (x y : Z) : 0 <= x -> 0 <= y -> 2 ^ (x + y) = 2 ^ x * 2 ^ y.
Proof. intros. now apply Z.pow_add_r. Qed.

Section Scaled.
Variable K : Z.
Hypothesis K_large : 1200 <= K.

(** [a / b] for [0 < a < b] and [b] of at most 1000 bits: the quotient [q]
    has 53 bits and is within one unit [u] of its last place of [a / b]. *)
Lemma SFdiv_error (a b : Z) :
  0 < a -> a < b -> Zdigits2 b <= 1000 ->
  exists m e u,
    SFdiv prec emax (Z2SF a) (Z2SF b) = S754_finite false m e /\
    Zdigits2 (Z.pos m) = 53 /\ -1060 <= e <= 0 /\
    0 < u /\ 2 ^ 52 * u <= scaled K m e /\
    (scaled K m e - u) * b <= a * 2 ^ K <= (scaled K m e + u) * b.
Proof.
  intros Ha Hab Hdb.
  destruct a as [|pa|pa]; [lia| |lia]. destruct b as [|pb|pb]; [lia| |lia].
  cbn [Z2SF]. unfold SFdiv, SFdiv_core_binary. cbn [xorb].
  pose proof (Zdigits2_mono (Z.pos pa) (Z.pos pb) ltac:(lia)) as Hmono.
  pose proof (Zdigits2_lower (Z.pos pa) ltac:(lia)) as Hla.
  pose proof (Zdigits2_gt (Z.pos pa) ltac:(lia)) as Hua.
  pose proof (Zdigits2_lower (Z.pos pb) ltac:(lia)) as Hlb.
  pose proof (Zdigits2_gt (Z.pos pb) ltac:(lia)) as Hub.
  assert (Hda1 : 1 <= Zdigits2 (Z.pos pa)) by (cbn; lia).
  set (da := Zdigits2 (Z.pos pa)) in *. set (db := Zdigits2 (Z.pos pb)) in *.
  change (IntDef.Z.min ?x ?y) with (Z.min x y). rewrite fexp_eq.
  replace (Z.min (Z.max (da + 0 - (db + 0) - 53) (-1074)) (0 - 0))
    with (da - db - 53) by lia.
  set (e' := da - db - 53).
  assert (He' : e' < 0) by (subst e'; lia).
  set (m' := match 0 - 0 - e' with
             | 0 => Z.pos pa
             | Z.pos _ => IntDef.Z.shiftl (Z.pos pa) (0 - 0 - e')
             | Z.neg _ => 0
             end).
  assert (Hm' : m' = Z.pos pa * 2 ^ (- e')).
  { subst m'. replace (0 - 0 - e') with (- e') by lia.
    destruct (- e') as [|p|p] eqn:Hs; [lia| |lia].
    change (IntDef.Z.shiftl ?x ?y) with (Z.shiftl x y).
    now rewrite Z.shiftl_mul_pow2 by lia. }
  change (IntDef.Z.div_eucl ?x ?y) with (Z.div_eucl x y).
  pose proof (Z_div_mod m' (Z.pos pb) ltac:(lia)) as Hdiv.
  destruct (Z.div_eucl m' (Z.pos pb)) as [q r]. destruct Hdiv as [Hq Hr].
  assert (Hp : 0 < 2 ^ (- e')) by (apply Z.pow_pos_nonneg; lia).
  (* the quotient has at least 53 bits *)
  assert (Hm'lo : 2 ^ 52 * 2 ^ db <= m').
  { rewrite Hm'. replace (- e') with ((db - da + 1) + 52) by (subst e'; lia).
    rewrite pow_split by lia.
    assert (2 ^ (da - 1) * 2 ^ (db - da + 1) = 2 ^ db).
    { rewrite <- Z.pow_add_r by lia. f_equal. lia. }
    assert (0 < 2 ^ (db - da + 1)) by (apply Z.pow_pos_nonneg; lia).
    assert (0 < 2 ^ 52) by lia. nia. }
  assert (Hq52 : 2 ^ 52 <= q).
  { assert (0 < 2 ^ 52) by lia. nia. }
  assert (Hq53 : 53 <= Zdigits2 q).
  { pose proof (Zdigits2_ge q 52 ltac:(lia) Hq52). lia. }
  assert (Hq54 : Zdigits2 q <= 54).
  { apply Zdigits2_le; [lia | lia |].
    assert (m' < 2 ^ 54 * 2 ^ (db - 1)).
    { rewrite Hm'. replace (- e') with ((db - da) + 53) by (subst e'; lia).
      rewrite pow_split by lia.
      assert (2 ^ da * 2 ^ (db - da) = 2 * 2 ^ (db - 1)).
      { rewrite <- Z.pow_add_r by lia. replace (da + (db - da)) with (1 + (db - 1)) by lia.
        now rewrite pow_split by lia. }
      assert (0 < 2 ^ (db - da)) by (apply Z.pow_pos_nonneg; lia).
      change (2 ^ 54) with (2 * 2 ^ 53). assert (0 < 2 ^ 53) by lia. nia. }
    assert (0 < 2 ^ 54) by lia. nia. }
  destruct (binary_round_aux_shape q e' (new_location (Z.pos pb) r)
              ltac:(lia) Hq53 ltac:(subst e'; lia) ltac:(subst e'; lia))
    as (m & e & Hres & Hdm & He & Hm1 & HM).
  set (n := Zdigits2 q - 53) in *.
  set (e1 := e' + n) in *. set (m1 := q / 2 ^ n) in *.
  assert (Hn : 0 <= n) by (subst n; lia).
  assert (Hpn : 0 < 2 ^ n) by (apply Z.pow_pos_nonneg; lia).
  assert (Hq1 : m1 * 2 ^ n <= q < (m1 + 1) * 2 ^ n).
  { subst m1. pose proof (Z.mul_div_le q (2 ^ n) Hpn).
    pose proof (Z.mul_succ_div_gt q (2 ^ n) Hpn). lia. }
  exists m, e, (2 ^ (e1 + K)).
  assert (He1K : 0 <= e1 + K) by (subst e1 e' n; lia).
  assert (HU : 0 < 2 ^ (e1 + K)) by (apply Z.pow_pos_nonneg; lia).
  assert (Hs : scaled K m e = (Z.pos m * 2 ^ (e - e1)) * 2 ^ (e1 + K)).
  { unfold scaled. rewrite <- Z.mul_assoc, <- Z.pow_add_r by lia.
    do 2 f_equal. lia. }
  assert (HaT : Z.pos pa * 2 ^ K = m' * 2 ^ (e' + K)).
  { rewrite Hm', <- Z.mul_assoc, <- Z.pow_add_r by (subst e'; lia).
    do 2 f_equal. lia. }
  assert (HU' : 2 ^ (e1 + K) = 2 ^ n * 2 ^ (e' + K)).
  { rewrite <- Z.pow_add_r by (subst e'; lia). f_equal. subst e1. lia. }
  assert (Hpe : 0 < 2 ^ (e' + K)) by (apply Z.pow_pos_nonneg; subst e'; lia).
  split; [exact Hres|]. split; [exact Hdm|].
  split; [subst e1 e' n; lia|]. split; [exact HU|].
  rewrite Hs. set (M := Z.pos m * 2 ^ (e - e1)) in *.
  set (U := 2 ^ (e1 + K)) in *. set (V := 2 ^ (e' + K)) in *.
  split; [nia|]. rewrite HaT.
  split.
  - transitivity (m1 * U * Z.pos pb); [nia|].
    rewrite HU'. nia.
  - transitivity ((m1 + 1) * U * Z.pos pb); [|nia].
    rewrite HU'. nia.
Qed.

(** [q * 100.0] for a positive [q] of 53 bits: the product [p] has 53 bits
    and is within one unit [u] of its last place of [100 q]. *)
Lemma SFmul_100_error (m : positive) (e : Z) :
  Zdigits2 (Z.pos m) = 53 -> -1060 <= e <= 0 ->
  exists m' e' u,
    SFmul prec emax (S754_finite false m e) (float_of_Z 100)
      = S754_finite false m' e' /\
    -1100 <= e' /\
    0 < u /\ 2 ^ 52 * u <= scaled K m' e' /\
    scaled K m' e' - u <= 100 * scaled K m e <= scaled K m' e' + u.
Proof.
  intros Hdm He.
  replace (float_of_Z 100) with (S754_finite false 7036874417766400 (-46))
    by (vm_compute; reflexivity).
  cbn [SFmul xorb].
  pose proof (Zdigits2_lower (Z.pos m) ltac:(lia)) as Hlm. rewrite Hdm in Hlm.
  pose proof (Zdigits2_gt (Z.pos m) ltac:(lia)) as Hum. rewrite Hdm in Hum.
  change (2 ^ (53 - 1)) with (2 ^ 52) in Hlm.
  set (pm := Z.pos (m * 7036874417766400)).
  assert (Hpm : pm = Z.pos m * (100 * 2 ^ 46)) by (subst pm; rewrite Pos2Z.inj_mul; reflexivity).
  assert (Hpm0 : 0 < pm) by (subst pm; lia).
  assert (Hdp : 105 <= Zdigits2 pm <= 106).
  { split.
    - pose proof (Zdigits2_ge pm 104 ltac:(lia)) as Hg.
      assert (2 ^ 104 <= pm); [|lia].
      rewrite Hpm. change (2 ^ 104) with (2 ^ 52 * 2 ^ 52). assert (0 < 2 ^ 52) by lia.
      change (100 * 2 ^ 46) with 7036874417766400.
      change (2 ^ 52) with 4503599627370496 in *. nia.
    - apply Zdigits2_le; [lia | lia |].
      rewrite Hpm. change (2 ^ 106) with (2 ^ 53 * 2 ^ 53).
      change (100 * 2 ^ 46) with 7036874417766400.
      change (2 ^ 53) with 9007199254740992 in *. nia. }
  destruct (binary_round_aux_shape pm (e + -46) loc_Exact Hpm0 ltac:(lia) ltac:(lia)
              ltac:(lia)) as (m' & e'' & Hres & _ & He'' & Hm1 & HM).
  set (n := Zdigits2 pm - 53) in *.
  set (e1 := e + -46 + n) in *. set (m1 := pm / 2 ^ n) in *.
  assert (Hn : 0 <= n) by (subst n; lia).
  assert (Hpn : 0 < 2 ^ n) by (apply Z.pow_pos_nonneg; lia).
  assert (Hq1 : m1 * 2 ^ n <= pm < (m1 + 1) * 2 ^ n).
  { subst m1. pose proof (Z.mul_div_le pm (2 ^ n) Hpn).
    pose proof (Z.mul_succ_div_gt pm (2 ^ n) Hpn). lia. }
  exists m', e'', (2 ^ (e1 + K)).
  assert (He1K : 0 <= e1 + K) by (subst e1 n; lia).
  assert (HU : 0 < 2 ^ (e1 + K)) by (apply Z.pow_pos_nonneg; lia).
  assert (Hs : scaled K m' e'' = (Z.pos m' * 2 ^ (e'' - e1)) * 2 ^ (e1 + K)).
  { unfold scaled. rewrite <- Z.mul_assoc, <- Z.pow_add_r by lia.
    do 2 f_equal. lia. }
  assert (Hq : 100 * scaled K m e = pm * 2 ^ (e + -46 + K)).
  { unfold scaled. rewrite Hpm.
    replace (e + K) with (46 + (e + -46 + K)) by lia.
    rewrite pow_split by lia. ring. }
  assert (HU' : 2 ^ (e1 + K) = 2 ^ n * 2 ^ (e + -46 + K)).
  { rewrite <- Z.pow_add_r by lia. f_equal. subst e1. lia. }
  assert (Hpe : 0 < 2 ^ (e + -46 + K)) by (apply Z.pow_pos_nonneg; lia).
  split; [exact Hres|]. split; [subst e1 n; lia|]. split; [exact HU|].
  rewrite Hs, Hq. set (M := Z.pos m' * 2 ^ (e'' - e1)) in *.
  set (U := 2 ^ (e1 + K)) in *. set (V := 2 ^ (e + -46 + K)) in *.
  split; [nia|].
  split.
  - transitivity (m1 * U); [nia|]. rewrite HU'. nia.
  - transitivity ((m1 + 1) * U); [|nia]. rewrite HU'. nia.
Qed.

(** [int(x)] on the common scale. *)
Lemma float_to_int_scaled (m : positive) (e : Z) :
  - K <= e ->
  float_to_int (S754_finite false m e) = Ok (scaled K m e / 2 ^ K).
Proof.
  intros He. cbn [float_to_int]. f_equal. unfold scaled.
  assert (HT : 0 < 2 ^ K) by (apply Z.pow_pos_nonneg; lia).
  destruct (Z.leb_spec 0 e) as [H0|H0].
  - rewrite pow_split by lia. rewrite Z.mul_assoc. now rewrite Z.div_mul by lia.
  - assert (HK : 2 ^ K = 2 ^ (e + K) * 2 ^ (- e)).
    { rewrite <- Z.pow_add_r by lia. f_equal. lia. }
    rewrite HK, (Z.mul_comm (Z.pos m)).
    rewrite Z.div_mul_cancel_l; [reflexivity | | ];
      apply Z.pow_nonzero; lia.
Qed.

End Scaled.

End FloatError.

(** ** The computed percentage against the exact one (lines 256-260, 369-374) *)

Module PercentError.
Import Py PyFacts Audible AudibleFacts FloatFacts FloatOrder PercentFacts FloatError.


(** A unit in the last place is at most one part in [D] of the value. *)
Lemma rel_lower (D Q u : Z) : 0 < D -> 0 < u -> D * u <= Q ->
  forall y z, 0 <= y -> (Q - u) * y <= z -> (D - 1) * Q * y <= D * z.
Proof.
  intros HD Hu HQ y z Hy H.
  assert (D * ((Q - u) * y) <= D * z) by (apply Z.mul_le_mono_nonneg_l; lia).
  assert (D * u * y <= Q * y) by (apply Z.mul_le_mono_nonneg_r; lia).
  lia.
Qed.

Lemma rel_upper (D Q u : Z) : 0 < D -> 0 < u -> D * u <= Q ->
  forall y z, 0 <= y -> z <= (Q + u) * y -> D * z <= (D + 1) * Q * y.
Proof.
  intros HD Hu HQ y z Hy H.
  assert (D * z <= D * ((Q + u) * y)) by (apply Z.mul_le_mono_nonneg_l; lia).
  assert (D * u * y <= Q * y) by (apply Z.mul_le_mono_nonneg_r; lia).
  lia.
Qed.

(** The arithmetic of the two roundings.  [Q] is the rounded quotient of
    [a] by [b] and [P] the rounded product of [Q] with 100, both on the scale
    [T]; each is within one part in [D] of what it rounds.  When [200 b <= D]
    the truncation [n] of [P] is the floor [k] of [100 a / b] or one below,
    and one below only when [b] divides [100 a]. *)
Lemma two_roundings (D a b T Q u P u' : Z) :
  0 < a < b -> 200 * b <= D -> 0 < T ->
  0 < u -> D * u <= Q -> (Q - u) * b <= a * T <= (Q + u) * b ->
  0 < u' -> D * u' <= P -> P - u' <= 100 * Q <= P + u' ->
  let k := 100 * a / b in
  let n := P / T in
  k - 1 <= n <= k /\ (n = k \/ 100 * a = k * b).
Proof.
  intros Hab HbD HT Hu HQ [Hq1 Hq2] Hu' HP [Hp1 Hp2] k n.
  assert (HD : 0 < D) by lia.
  pose proof (rel_lower D Q u HD Hu HQ b (a * T) ltac:(lia) Hq1) as I1.
  pose proof (rel_upper D Q u HD Hu HQ b (a * T) ltac:(lia) Hq2) as I2.
  pose proof (rel_lower D P u' HD Hu' HP 1 (100 * Q) ltac:(lia) ltac:(lia)) as I3.
  pose proof (rel_upper D P u' HD Hu' HP 1 (100 * Q) ltac:(lia) ltac:(lia)) as I4.
  rewrite Z.mul_1_r in I3, I4.
  assert (Hk : k * b <= 100 * a < (k + 1) * b).
  { subst k. pose proof (Z.mul_div_le (100 * a) b ltac:(lia)).
    pose proof (Z.mul_succ_div_gt (100 * a) b ltac:(lia)). lia. }
  assert (Hk0 : 0 <= k) by (subst k; apply Z.div_pos; lia).
  assert (Hk99 : k <= 99).
  { assert (k < 100); [|lia]. subst k. apply Z.div_lt_upper_bound; lia. }
  assert (Hn : n * T <= P < (n + 1) * T).
  { subst n. pose proof (Z.mul_div_le P T HT).
    pose proof (Z.mul_succ_div_gt P T HT). lia. }
  assert (HQ0 : 0 < Q) by nia.
  assert (HP0 : 0 < P) by nia.
  assert (Hn0 : 0 <= n) by (subst n; apply Z.div_pos; lia).
  clearbody k n.
  (* the computed value is never above the exact floor *)
  assert (Hup : n <= k).
  { destruct (Z_le_gt_dec n k) as [|Hc]; [assumption | exfalso].
    assert (E1 : (k + 1) * T <= P) by nia.
    assert (E2 : (D - 1) * ((k + 1) * T) <= D * (100 * Q))
      by (transitivity ((D - 1) * P); [apply Z.mul_le_mono_nonneg_l; lia | lia]).
    assert (E3 : (D - 1) * ((D - 1) * ((k + 1) * T)) * b
                 <= (D - 1) * (D * (100 * Q)) * b).
    { apply Z.mul_le_mono_nonneg_r; [lia|]. apply Z.mul_le_mono_nonneg_l; lia. }
    assert (E4 : (D * 100) * ((D - 1) * Q * b) <= (D * 100) * (D * (a * T)))
      by (apply Z.mul_le_mono_nonneg_l; lia).
    assert (E5 : ((D - 1) * (D - 1) * ((k + 1) * b)) * T <= (D * D * (100 * a)) * T).
    { transitivity ((D - 1) * (D * (100 * Q)) * b); [|].
      - etransitivity; [|exact E3]. apply Z.eq_le_incl. ring.
      - etransitivity; [|etransitivity; [exact E4|]]; apply Z.eq_le_incl; ring. }
    apply Z.mul_le_mono_pos_r in E5; [|exact HT].
    set (X := (k + 1) * b) in *.
    assert (HX : 2 * X <= D) by (subst X; nia).
    assert (HX0 : 0 < X) by (subst X; nia).
    assert (E6 : D * D * (100 * a) <= D * D * (X - 1))
      by (apply Z.mul_le_mono_nonneg_l; nia).
    assert (E7 : 2 * X * D <= D * D) by (apply Z.mul_le_mono_nonneg_r; lia).
    clearbody X. nia. }
  (* any multiple of b strictly below 100 a is reached *)
  assert (Hge : forall j, 1 <= j <= 99 -> j * b + 1 <= 100 * a -> j <= n).
  { intros j Hj Ha.
    destruct (Z_le_gt_dec j n) as [|Hc]; [assumption | exfalso].
    assert (F1 : P <= j * T) by nia.
    assert (F2 : D * (100 * Q) <= (D + 1) * (j * T))
      by (transitivity ((D + 1) * P); [lia | apply Z.mul_le_mono_nonneg_l; lia]).
    assert (F3 : (D * 100) * (D * (a * T)) <= (D * 100) * ((D + 1) * Q * b))
      by (apply Z.mul_le_mono_nonneg_l; lia).
    assert (F4 : (D + 1) * b * (D * (100 * Q)) <= (D + 1) * b * ((D + 1) * (j * T)))
      by (apply Z.mul_le_mono_nonneg_l; [nia | exact F2]).
    assert (F5 : (D * D * (100 * a)) * T <= ((D + 1) * (D + 1) * (j * b)) * T).
    { transitivity ((D + 1) * b * (D * (100 * Q))).
      - etransitivity; [|etransitivity; [exact F3|]]; apply Z.eq_le_incl; ring.
      - etransitivity; [exact F4|]. apply Z.eq_le_incl. ring. }
    apply Z.mul_le_mono_pos_r in F5; [|exact HT].
    set (X := j * b) in *.
    assert (HX : 2 * X + 1 <= D) by (subst X; nia).
    assert (HX0 : 0 < X) by (subst X; nia).
    assert (F6 : D * D * (X + 1) <= D * D * (100 * a))
      by (apply Z.mul_le_mono_nonneg_l; nia).
    assert (F7 : (2 * X + 1) * D <= D * D) by (apply Z.mul_le_mono_nonneg_r; lia).
    clearbody X. clear - F5 F6 F7 HX HX0 HD.
    replace ((D + 1) * (D + 1) * X) with (D * D * X + (2 * X * D + X)) in F5 by ring.
    replace (D * D * (X + 1)) with (D * D * X + D * D) in F6 by ring.
    replace ((2 * X + 1) * D) with (2 * X * D + D) in F7 by ring.
    lia. }
  assert (Hlo : k - 1 <= n).
  { destruct (Z_le_gt_dec k 1) as [Hk1|Hk1]; [lia|].
    apply Hge; [lia|]. replace ((k - 1) * b) with (k * b - b) by ring. lia. }
  split; [lia|].
  destruct (Z.eq_dec (100 * a) (k * b)) as [He|He]; [now right | left].
  destruct (Z.eq_dec k 0) as [Hk1|Hk1]; [lia|].
  assert (k <= n) by (apply Hge; lia). lia.
Qed.

(** The truncated product for a position inside the runtime. *)
Lemma percent_complete_inside (position_sec runtime_min : Z) :
  0 < runtime_min <= 2 ^ 38 -> 0 < position_sec < runtime_min * 60 ->
  let k := 100 * position_sec / (runtime_min * 60) in
  exists n, percent_complete position_sec runtime_min = Ok n /\
    k - 1 <= n <= k /\ (n = k \/ 100 * position_sec = k * (runtime_min * 60)) /\
    k <= 99.
Proof.
  intros Hm Hp k.
  set (b := runtime_min * 60) in *.
  assert (Hb : b <= 60 * 2 ^ 38) by (subst b; lia).
  destruct (percent_complete_floats position_sec runtime_min ltac:(lia))
    as (q & n & Hq & Hn & _ & Hpc).
  { split; [lia|]. transitivity (2 ^ 44); [lia | reflexivity]. }
  fold b in Hq.
  assert (Hdb : Zdigits2 b <= 1000).
  { apply Zdigits2_le; [lia | lia |]. transitivity (2 ^ 44); [lia | reflexivity]. }
  destruct (SFdiv_error 1200 ltac:(lia) position_sec b ltac:(lia) ltac:(lia) Hdb)
    as (m & e & u & Hdiv & Hdm & He & Hu & HQ & HQb).
  destruct (SFmul_100_error 1200 ltac:(lia) m e Hdm He)
    as (m' & e' & u' & Hmul & He' & Hu' & HP & HPq).
  rewrite Hdiv in Hq. subst q. unfold float_mul in Hn. rewrite Hmul in Hn.
  rewrite (float_to_int_scaled 1200 ltac:(lia) m' e' ltac:(lia)) in Hn.
  injection Hn as Hn.
  assert (H200 : 200 * b <= 2 ^ 52)
    by (transitivity (200 * (60 * 2 ^ 38)); [lia | vm_compute; discriminate]).
  assert (HT : 0 < 2 ^ 1200) by (apply Z.pow_pos_nonneg; lia).
  destruct (two_roundings (2 ^ 52) position_sec b (2 ^ 1200)
              (scaled 1200 m e) u (scaled 1200 m' e') u'
              Hp H200 HT Hu HQ HQb Hu' HP HPq) as (Hk & Hex).
  rewrite Hn in Hk, Hex. fold k in Hk, Hex.
  assert (Hk99 : k <= 99).
  { assert (k < 100); [|lia]. subst k. apply Z.div_lt_upper_bound; lia. }
  exists n. rewrite Hpc. replace (Z.min 100 n) with n by lia.
  split; [reflexivity|]. split; [exact Hk|]. split; [exact Hex | exact Hk99].
Qed.

(** X21.  How far the computed percentage is from the exact one.  For a
    runtime of 1 to 2^38 minutes and a position from 0 to below 2^1015
    seconds, [percent_complete] returns the floor of
    position x 100 / (runtime x 60) clamped to 100, or that number less one;
    and it returns one less only where position x 100 is an exact multiple of
    runtime x 60.  The division and the product with 100.0 each move the
    value by at most one part in 2^52, too little to cross an integer that
    the exact value does not hit. *)
Theorem percent_complete_error (position_sec runtime_min : Z) :
  0 <= position_sec < 2 ^ 1015 -> 0 < runtime_min <= 2 ^ 38 ->
  exists n, percent_complete position_sec runtime_min = Ok n /\
    (n = spec_percent position_sec runtime_min \/
     n = spec_percent position_sec runtime_min - 1 /\
     (position_sec * 100) mod (runtime_min * 60) = 0).
Proof.
  intros Hp Hm. unfold spec_percent.
  destruct (Z.eqb_spec runtime_min 0) as [|_]; [lia|].
  destruct (Z_le_gt_dec (runtime_min * 60) position_sec) as [Hfull|Hin].
  - exists 100. split; [apply percent_complete_full; lia|]. left.
    assert (100 <= position_sec * 100 / (runtime_min * 60)); [|lia].
    apply Z.div_le_lower_bound; lia.
  - destruct (Z.eq_dec position_sec 0) as [->|Hpos].
    + exists 0. split; [|left; rewrite Z.div_0_l by lia; reflexivity].
      unfold percent_complete. destruct (runtime_min >? 0); [|reflexivity].
      unfold int_truediv. destruct (Z.eqb_spec (runtime_min * 60) 0) as [|_]; [lia|].
      assert (Hb : runtime_min * 60 <> 0) by lia.
      destruct (runtime_min * 60) as [|p|p]; [congruence | reflexivity | reflexivity].
    + destruct (percent_complete_inside position_sec runtime_min Hm ltac:(lia))
        as (n & Hn & Hk & Hex & Hk99).
      exists n. split; [exact Hn|].
      rewrite (Z.mul_comm position_sec 100).
      set (k := 100 * position_sec / (runtime_min * 60)) in *.
      replace (Z.min 100 k) with k by lia.
      destruct Hex as [->|Hex]; [now left|].
      destruct (Z.eq_dec n k) as [->|Hne]; [now left | right].
      split; [lia|]. rewrite Hex. apply Z.mod_mul. lia.
Qed.

(** A book of 600 minutes heard up to second 10440, where the code gives 28
    and the exact floor is 29. *)
Lemma percent_complete_error_witness :
  exists n, percent_complete 10440 600 = Ok n /\
    (n = spec_percent 10440 600 \/
     n = spec_percent 10440 600 - 1 /\ (10440 * 100) mod (600 * 60) = 0).
Proof.
  apply (percent_complete_error 10440 600); split; try lia; reflexivity.
Defined.

End PercentError.
